(** * BuidlGuidl client: supervisor, secure store and persisted options

    A shallow embedding of the parts of the BuidlGuidl client that own the
    supervised child processes (index.js), the RAM-backed secret directory
    (ethereum_client_scripts/secureStore.js), the keystore password prompt
    (ethereum_client_scripts/keyManager.js), the Lighthouse secrets
    population loop (ethereum_client_scripts/lighthouse_validator.js) and
    the persisted run configuration (commandLineOptions.js).

    Node's runtime is modelled only as far as the scripts observe it: a
    file system keyed by normalised POSIX paths, [path.join], the result of
    the liveness probe [process.kill(pid, 0)], property lookup on objects
    produced by [JSON.parse], and the timer queue. [JSON.parse] and
    [JSON.stringify] themselves are parameters. Strings are sequences of
    8-bit characters; file modes, [debugToFile] and most console output
    are left out. A thrown error is [None] (or a [Threw] outcome) and
    every try/catch of the source is a match on it. checkpointHealthCheck.js
    is not among the sources; its selection rule is taken from the
    specification. *)

From stdpp Require Import gmap strings list fin_maps pretty.
From Stdlib Require Import ZArith Ascii String Lia.

Local Open Scope string_scope.
Local Open Scope list_scope.
Local Open Scope Z_scope.

(** ** Strings as the scripts use them *)

Module Str.

(** [s.startsWith(p)] *)
Definition startsWith (p s : string) : bool := String.prefix p s.

(** [s.endsWith(p)] *)
Definition endsWith (p s : string) : bool :=
  String.prefix (String.rev p) (String.rev s).

(** [s.split(c)] for a single-character separator. *)
Fixpoint split_go (c : ascii) (cur : string) (s : string) : list string :=
  match s with
  | EmptyString => [String.rev cur]
  | String a rest =>
      if Ascii.eqb a c then String.rev cur :: split_go c EmptyString rest
      else split_go c (String a cur) rest
  end.

Definition split (c : ascii) (s : string) : list string :=
  split_go c EmptyString s.

(** [segs.join(sep)] *)
Fixpoint join (sep : string) (segs : list string) : string :=
  match segs with
  | [] => ""
  | [x] => x
  | x :: rest => x +:+ sep +:+ join sep rest
  end.

Definition last_char (s : string) : option ascii :=
  match String.rev s with
  | EmptyString => None
  | String a _ => Some a
  end.

Definition first_char (s : string) : option ascii :=
  match s with
  | EmptyString => None
  | String a _ => Some a
  end.

End Str.

(** ** [path] (POSIX flavour) *)

Module Path.

Definition slash : ascii := "/"%char.

(** [normalizeString(path, allowAboveRoot)] of Node's [path] module, on
    the list of "/"-separated segments; [acc] is the result so far, last
    segment first. *)
Fixpoint normalizeSegs (allowAboveRoot : bool) (acc : list string)
    (segs : list string) : list string :=
  match segs with
  | [] => rev acc
  | seg :: rest =>
      if String.eqb seg "" || String.eqb seg "." then
        normalizeSegs allowAboveRoot acc rest
      else if String.eqb seg ".." then
        match acc with
        | top :: below =>
            if String.eqb top ".." then
              normalizeSegs allowAboveRoot
                (if allowAboveRoot then ".." :: acc else acc) rest
            else normalizeSegs allowAboveRoot below rest
        | [] =>
            normalizeSegs allowAboveRoot
              (if allowAboveRoot then [".."] else []) rest
        end
      else normalizeSegs allowAboveRoot (seg :: acc) rest
  end.

(** [path.normalize(p)] *)
Definition normalize (p : string) : string :=
  if String.eqb p "" then "."
  else
    let isAbsolute := bool_decide (Str.first_char p = Some slash) in
    let trailingSeparator := bool_decide (Str.last_char p = Some slash) in
    let body :=
      Str.join "/" (normalizeSegs (negb isAbsolute) [] (Str.split slash p)) in
    if String.eqb body "" then
      if isAbsolute then "/"
      else if trailingSeparator then "./" else "."
    else
      let body := if trailingSeparator then body +:+ "/" else body in
      if isAbsolute then "/" +:+ body else body.

(** [path.join(...args)]: the non-empty arguments joined by "/", then
    normalised. *)
Definition join (args : list string) : string :=
  let parts := filter (λ a, a ≠ "") args in
  match parts with
  | [] => "."
  | _ => normalize (Str.join "/" parts)
  end.

(** [path.dirname(p)] for a normalised path without trailing slash. *)
Definition dirname (p : string) : string :=
  let isAbsolute := bool_decide (Str.first_char p = Some slash) in
  let segs := filter (λ a, a ≠ "") (Str.split slash p) in
  match rev segs with
  | [] => if isAbsolute then "/" else "."
  | _ :: before =>
      match before with
      | [] => if isAbsolute then "/" else "."
      | _ => (if isAbsolute then "/" else "") +:+ Str.join "/" (rev before)
      end
  end.

(** [p] is [dir] itself or lies below it. *)
Definition within (dir p : string) : bool :=
  String.eqb p dir || Str.startsWith (dir +:+ "/") p.

End Path.

(** ** The file system, as [fs] shows it to the scripts *)

Module Fs.

Inductive Node : Type :=
| File (content : string)
| Dir.

Abbreviation t := (gmap string Node).

(** [fs.existsSync(p)] *)
Definition existsSync (p : string) (fs : t) : bool :=
  bool_decide (is_Some (fs !! p)).

Definition isDirectory (p : string) (fs : t) : bool :=
  match fs !! p with
  | Some Dir => true
  | _ => false
  end.

(** [fs.readFileSync(p, "utf8")]; [None] stands for the thrown error
    (ENOENT, EISDIR). *)
Definition readFileSync (p : string) (fs : t) : option string :=
  match fs !! p with
  | Some (File c) => Some c
  | _ => None
  end.

(** [fs.writeFileSync(p, data)]: creates or replaces the file; throws
    ([None]) when the parent directory is missing or [p] is a directory. *)
Definition writeFileSync (p data : string) (fs : t) : option t :=
  match fs !! p with
  | Some Dir => None
  | _ =>
      if isDirectory (Path.dirname p) fs then Some (<[p := File data]> fs)
      else None
  end.

(** [fs.unlinkSync(p)]; throws ([None]) unless [p] is an existing file. *)
Definition unlinkSync (p : string) (fs : t) : option t :=
  match fs !! p with
  | Some (File _) => Some (delete p fs)
  | _ => None
  end.

(** All the directories from the root down to [p], [p] included. *)
Fixpoint ancestors_go (pre : string) (segs : list string) : list string :=
  match segs with
  | [] => []
  | seg :: rest =>
      let here := pre +:+ seg in
      here :: ancestors_go (here +:+ "/") rest
  end.

Definition ancestors (p : string) : list string :=
  let isAbsolute := bool_decide (Str.first_char p = Some Path.slash) in
  ancestors_go (if isAbsolute then "/" else "")
    (filter (λ a, a ≠ "") (Str.split Path.slash p)).

(** [fs.mkdirSync(p, { recursive: true })]: creates the missing
    directories on the way; throws ([None]) when a file is in the way. *)
Definition mkdirSync (p : string) (fs : t) : option t :=
  foldl (λ acc d,
           match acc with
           | None => None
           | Some fs' =>
               match fs' !! d with
               | Some (File _) => None
               | Some Dir => Some fs'
               | None => Some (<[d := Dir]> fs')
               end
           end) (Some fs) (ancestors p).

(** [fs.rmSync(p, { recursive: true, force: true })]: [p] and everything
    below it is gone; a missing [p] is not an error. *)
Definition rmSync (p : string) (fs : t) : t :=
  filter (λ kv, Path.within p kv.1 = false) fs.

(** The last segment of a path. *)
Definition basename (p : string) : string :=
  match rev (filter (λ a, a ≠ "") (Str.split Path.slash p)) with
  | [] => ""
  | name :: _ => name
  end.

(** [fs.readdirSync(dir)]: the names of the direct children of [dir];
    throws ([None]) when [dir] is not a directory. *)
Definition readdirSync (dir : string) (fs : t) : option (list string) :=
  if isDirectory dir fs then
    Some (omap (λ kv, if bool_decide (Path.dirname kv.1 = dir ∧ kv.1 ≠ dir)
                      then Some (basename kv.1) else None)
            (map_to_list fs))
  else None.

End Fs.

(** ** JavaScript values, as far as the scripts inspect them *)

Module Js.

(** Numbers: the integers (ports, pids, exit codes) and the three
    non-finite values; fractional doubles are outside the model. *)
Inductive Num : Type :=
| NInt (z : Z)
| NNaN
| NInf (negative : bool).

(** What [JSON.parse] can return. An object keeps its own properties in
    order; of two entries with the same key the first one counts. *)
#[warnings="-register-all"]
Inductive Json : Type :=
| JNull
| JBool (b : bool)
| JNum (n : Num)
| JStr (s : string)
| JArr (items : list Json)
| JObj (props : list (string * Json)).

(** What a variable or a property read can hold: a JSON value,
    [undefined], or one of the built-in objects reached through the
    prototype chain (named, never inspected). *)
Inductive Val : Type :=
| Undefined
| Builtin (name : string)
| Data (j : Json).

(** [typeof v] *)
Definition typeof (v : Val) : string :=
  match v with
  | Undefined => "undefined"
  | Builtin "Object" => "function"
  | Builtin _ => "object"
  | Data JNull => "object"
  | Data (JBool _) => "boolean"
  | Data (JNum _) => "number"
  | Data (JStr _) => "string"
  | Data (JArr _) => "object"
  | Data (JObj _) => "object"
  end.

(** [Array.isArray(v)] *)
Definition isArray (v : Val) : bool :=
  match v with
  | Data (JArr _) => true
  | _ => false
  end.

(** [v === undefined], [v === null] *)
Definition isUndefined (v : Val) : bool :=
  match v with Undefined => true | _ => false end.

Definition isNull (v : Val) : bool :=
  match v with Data JNull => true | _ => false end.

(** Truthiness, as [if (v)], [!v], [v || d] test it. *)
Definition truthy (v : Val) : bool :=
  match v with
  | Undefined => false
  | Builtin _ => true
  | Data JNull => false
  | Data (JBool b) => b
  | Data (JNum (NInt z)) => negb (z =? 0)
  | Data (JNum NNaN) => false
  | Data (JNum (NInf _)) => true
  | Data (JStr s) => negb (String.eqb s "")
  | Data (JArr _) => true
  | Data (JObj _) => true
  end.

(** The own property [k] of an object. *)
Fixpoint ownProperty (k : string) (props : list (string * Json)) : option Json :=
  match props with
  | [] => None
  | (k', v) :: rest => if String.eqb k k' then Some v else ownProperty k rest
  end.

(** The properties every ordinary object inherits from
    [Object.prototype]. *)
Definition objectPrototype (k : string) : Val :=
  if String.eqb k "constructor" then Builtin "Object"
  else if String.eqb k "__proto__" then Builtin "Object.prototype"
  else if bool_decide (k ∈ ["hasOwnProperty"; "isPrototypeOf";
                            "propertyIsEnumerable"; "toLocaleString";
                            "toString"; "valueOf"; "__defineGetter__";
                            "__defineSetter__"; "__lookupGetter__";
                            "__lookupSetter__"])
  then Builtin k
  else Undefined.

(** [o.k] / [o[k]] on an object made by [JSON.parse]: the own property
    if there is one, else what [Object.prototype] provides. *)
Definition getProperty (props : list (string * Json)) (k : string) : Val :=
  match ownProperty k props with
  | Some v => Data v
  | None => objectPrototype k
  end.

(** [String(n)] *)
Definition numToString (n : Num) : string :=
  match n with
  | NInt z => pretty z
  | NNaN => "NaN"
  | NInf false => "Infinity"
  | NInf true => "-Infinity"
  end.

(** [`${v}`] on a JSON value: arrays join their items with ",",
    [null] items giving the empty string; objects print as
    "[object Object]". *)
Fixpoint toString (j : Json) : string :=
  match j with
  | JNull => "null"
  | JBool true => "true"
  | JBool false => "false"
  | JNum n => numToString n
  | JStr s => s
  | JArr items =>
      Str.join ","
        (map (λ x, match x with JNull => "" | _ => toString x end) items)
  | JObj _ => "[object Object]"
  end.

(** *** [parseInt(s)] (no radix argument) *)

Definition isWhite (a : ascii) : bool :=
  bool_decide (a ∈ [" "%char; "009"%char; "010"%char; "011"%char;
                    "012"%char; "013"%char]).

Fixpoint skipWhite (s : string) : string :=
  match s with
  | String a rest => if isWhite a then skipWhite rest else s
  | EmptyString => s
  end.

(** The value of [a] as a digit in [radix], when it is one. *)
Definition digitValue (radix : Z) (a : ascii) : option Z :=
  let n := Z.of_nat (nat_of_ascii a) in
  let d :=
    if (48 <=? n) && (n <=? 57) then Some (n - 48)
    else if (97 <=? n) && (n <=? 122) then Some (n - 97 + 10)
    else if (65 <=? n) && (n <=? 90) then Some (n - 65 + 10)
    else None in
  match d with
  | Some v => if v <? radix then Some v else None
  | None => None
  end.

(** The longest prefix of digits, accumulated; [None] when there is no
    digit at all. *)
Fixpoint digits (radix : Z) (acc : option Z) (s : string) : option Z :=
  match s with
  | String a rest =>
      match digitValue radix a with
      | Some v => digits radix (Some (radix * default 0 acc + v)) rest
      | None => acc
      end
  | EmptyString => acc
  end.

(** [parseInt(s)]; [None] is [NaN]. *)
Definition parseInt (s : string) : option Z :=
  let s := skipWhite s in
  let '(neg, s) :=
    match s with
    | String "-"%char rest => (true, rest)
    | String "+"%char rest => (false, rest)
    | _ => (false, s)
    end in
  let '(radix, s) :=
    match s with
    | String "0"%char (String "x"%char rest) => (16, rest)
    | String "0"%char (String "X"%char rest) => (16, rest)
    | _ => (10, s)
    end in
  match digits radix None s with
  | Some v => Some (if neg : bool then - v else v)
  | None => None
  end.

End Js.

(** ** secureStore.js: the RAM-backed secret directory *)

Module SecureStore.

(** The module variables [secureDirPath] and [macRamDiskDevice] ([None]
    is [null]), the file system, and the RAM disks attached through
    [hdiutil]. The state is the one [createSecureDir] leaves behind. *)
Record State : Type := mkState {
  secureDirPath : option string;
  macRamDiskDevice : option string;
  fs : Fs.t;
  attached : list string
}.

(** Truthiness of a variable that holds [null] or a string. *)
Definition isSet (v : option string) : bool :=
  match v with
  | Some s => negb (String.eqb s "")
  | None => false
  end.

Definition macMountPoint : string := "/Volumes/BGClientSecure".

(** [getSecurePasswordPath()]; [None] is the thrown [Error]. *)
Definition getSecurePasswordPath (st : State) : option string :=
  if negb (isSet (secureDirPath st)) then None
  else Some (Path.join [default "" (secureDirPath st); "password.txt"]).

(** [getSecureDirPath()] *)
Definition getSecureDirPath (st : State) : option string := secureDirPath st.

(** [execFileSync("hdiutil", ["detach", device, "-force"])]: the device
    goes away with the volume mounted from it; throws ([None]) when the
    device is not attached. *)
Definition hdiutilDetach (device : string) (st : State) : option State :=
  if bool_decide (device ∈ attached st) then
    Some (mkState (secureDirPath st) (macRamDiskDevice st)
            (Fs.rmSync macMountPoint (fs st))
            (filter (λ d, d ≠ device) (attached st)))
  else None.

(** [cleanupSecureDir()] *)
Definition cleanupSecureDir (st : State) : State :=
  if negb (isSet (secureDirPath st)) then st
  else
    let dir := default "" (secureDirPath st) in
    (* try { if (fs.existsSync(dir)) fs.rmSync(dir, ...) } catch {} *)
    let st1 :=
      if Fs.existsSync dir (fs st) then
        mkState (secureDirPath st) (macRamDiskDevice st)
          (Fs.rmSync dir (fs st)) (attached st)
      else st in
    (* if (macRamDiskDevice) { try { detach } catch {}; macRamDiskDevice = null } *)
    let st2 :=
      if isSet (macRamDiskDevice st1) then
        let st' :=
          match hdiutilDetach (default "" (macRamDiskDevice st1)) st1 with
          | Some st' => st'
          | None => st1
          end in
        mkState (secureDirPath st') None (fs st') (attached st')
      else st1 in
    mkState None (macRamDiskDevice st2) (fs st2) (attached st2).

End SecureStore.

(** ** keyManager.js: the keystore password prompt *)

Module KeyManager.

(** What the prompt touches: the secure store (with the file system),
    the operator's answers still to come, and the console lines that
    matter here. *)
Record World : Type := mkWorld {
  store : SecureStore.State;
  stdin : list string;
  console : list string
}.

(** How a call ends: it returns, [process.exit(code)] ends the process,
    or an error propagates out of it. *)
Inductive Outcome (A : Type) : Type :=
| Returned (a : A) (w : World)
| Exited (code : Z) (w : World)
| Threw (w : World).
Arguments Returned {A} a w.
Arguments Exited {A} code w.
Arguments Threw {A} w.

Definition bind {A B} (m : Outcome A) (k : A → World → Outcome B) : Outcome B :=
  match m with
  | Returned a w => k a w
  | Exited c w => Exited c w
  | Threw w => Threw w
  end.

(** The world a call leaves. *)
Definition worldOf {A} (o : Outcome A) : World :=
  match o with
  | Returned _ w => w
  | Exited _ w => w
  | Threw w => w
  end.

Definition withFs (w : World) (fs' : Fs.t) : World :=
  mkWorld
    (SecureStore.mkState (SecureStore.secureDirPath (store w))
       (SecureStore.macRamDiskDevice (store w)) fs'
       (SecureStore.attached (store w)))
    (stdin w) (console w).

Definition fsOf (w : World) : Fs.t := SecureStore.fs (store w).

(** [console.log(line)] *)
Definition log (line : string) (w : World) : World :=
  mkWorld (store w) (stdin w) (console w ++ [line]).

(** [readlineSync.question(...)]: the operator's next answer (the empty
    string once the input has ended). *)
Definition question (w : World) : string * World :=
  (hd "" (stdin w), mkWorld (store w) (tl (stdin w)) (console w)).

Definition isKeystoreFile (f : string) : bool :=
  Str.startsWith "keystore" f && Str.endsWith ".json" f.


(** [getPasswordFilePath(installDir)] *)
Definition getPasswordFilePath (installDir : string) (w : World) : Outcome string :=
  let secureDir := SecureStore.getSecureDirPath (store w) in
  if SecureStore.isSet secureDir then
    match SecureStore.getSecurePasswordPath (store w) with
    | Some p => Returned p w
    | None => Threw w
    end
  else
    Returned
      (Path.join [installDir; "ethereum_clients"; "validator"; "password.txt"]) w.

Definition minPasswordLength : nat := 8.

(** [promptAndSavePassword(installDir, { firstTime = false } = {})];
    [opts] is the second argument when given. *)
Definition promptAndSavePassword (installDir : string) (opts : option bool)
    (w : World) : Outcome string :=
  let firstTime := default false opts in
  bind (getPasswordFilePath installDir w) (λ passwordPath w,
    let parentDir := Path.dirname passwordPath in
    let '(password, w) := question w in
    if (String.length password <? minPasswordLength)%nat then
      Exited 1 (log "Password must be at least 8 characters long." w)
    else
      let continue (w : World) : Outcome string :=
        let mk :=
          if negb (Fs.existsSync parentDir (fsOf w)) then
            Fs.mkdirSync parentDir (fsOf w)
          else Some (fsOf w) in
        match mk with
        | None => Threw w
        | Some fs1 =>
            match Fs.writeFileSync passwordPath password fs1 with
            | None => Threw (withFs w fs1)
            | Some fs2 => Returned passwordPath (withFs w fs2)
            end
        end in
      if firstTime then
        let '(confirmPassword, w) := question w in
        if negb (String.eqb password confirmPassword) then
          Exited 1 (log "Passwords do not match. Please try again." w)
        else continue w
      else continue w).

(** [setupValidatorKeys]; the key import and generation procedures it
    delegates to are parameters. Both end by calling
    [promptAndSavePassword(installDir, { firstTime: true })]. *)
Section Setup.
Variable importValidatorKeys : string → string → string → World → Outcome bool.
Variable generateValidatorKeys : string → string → World → Outcome bool.
Variable importKeysForPrysm : string → World → Outcome unit.


End Setup.

(** The earlier revision of the prompt kept in
    ethereum_client_scripts/keyManager.js: the password lives on disk
    under the install directory, an existing file ends the call at once,
    and the confirmation is always asked for. *)
Module Legacy.

Definition promptAndSavePassword (installDir : string) (w : World)
    : Outcome string :=
  let validatorDir := Path.join [installDir; "ethereum_clients"; "validator"] in
  let passwordPath := Path.join [validatorDir; "password.txt"] in
  if Fs.existsSync passwordPath (fsOf w) then Returned passwordPath w
  else
    let '(password, w) := question w in
    let '(confirmPassword, w) := question w in
    if negb (String.eqb password confirmPassword) then
      Exited 1 (log "Passwords do not match. Please try again." w)
    else
      let mk :=
        if negb (Fs.existsSync validatorDir (fsOf w)) then
          Fs.mkdirSync validatorDir (fsOf w)
        else Some (fsOf w) in
      match mk with
      | None => Threw w
      | Some fs1 =>
          match Fs.writeFileSync passwordPath password fs1 with
          | None => Threw (withFs w fs1)
          | Some fs2 => Returned passwordPath (withFs w fs2)
          end
      end.

End Legacy.

End KeyManager.

(** ** lighthouse_validator.js: one secret file per validator *)

Module LighthouseValidator.

(** What the population loop leaves: the file system and the paths of
    the secret files it wrote, in order. *)
Record Result : Type := mkResult {
  fs : Fs.t;
  written : list string
}.

Section Populate.
(** [JSON.parse]; [None] is the thrown [SyntaxError]. *)
Variable JSON_parse : string → option Js.Json.

Definition passwordFile (installDir : string) (passwordDir : option string)
    : string :=
  if SecureStore.isSet passwordDir
  then Path.join [default "" passwordDir; "password.txt"]
  else Path.join [installDir; "ethereum_clients"; "validator"; "password.txt"].

Definition secretsDir (installDir : string) (passwordDir : option string)
    : string :=
  if SecureStore.isSet passwordDir
  then Path.join [default "" passwordDir; "secrets"]
  else Path.join [installDir; "ethereum_clients"; "validator"; "secrets"].

Definition keystoresDir (installDir : string) : string :=
  Path.join [installDir; "ethereum_clients"; "validator"; "keystores"].

(** [ksContent.pubkey]; [None] is the [TypeError] of reading a
    property of [null]. Numbers, strings, booleans and arrays have no
    such property. *)
Definition pubkeyOf (ksContent : Js.Json) : option Js.Val :=
  match ksContent with
  | Js.JNull => None
  | Js.JObj props => Some (Js.getProperty props "pubkey")
  | _ => Some Js.Undefined
  end.

(** [`0x${pubkey}`] *)
Definition secretName (pubkey : Js.Val) : string :=
  "0x" +:+ match pubkey with
           | Js.Data j => Js.toString j
           | Js.Builtin _ => "[object Object]"
           | Js.Undefined => "undefined"
           end.

(** The body of [for (const ksFile of keystoreFiles)]: everything that
    throws inside is caught and only logged. *)
Definition perKeystore (installDir : string) (passwordDir : option string)
    (password : string) (r : Result) (ksFile : string) : Result :=
  match Fs.readFileSync (Path.join [keystoresDir installDir; ksFile]) (fs r) with
  | None => r
  | Some text =>
      match JSON_parse text with
      | None => r
      | Some ksContent =>
          match pubkeyOf ksContent with
          | None => r
          | Some pubkey =>
              if Js.truthy pubkey then
                let secretFile :=
                  Path.join [secretsDir installDir passwordDir;
                             secretName pubkey] in
                match Fs.writeFileSync secretFile password (fs r) with
                | Some fs' => mkResult fs' (written r ++ [secretFile])
                | None => r
                end
              else r
          end
      end
  end.

(** The block that populates the secrets directory at start-up; [None]
    is an error that nothing catches. *)
Definition populateSecrets (installDir : string) (passwordDir : option string)
    (fs0 : Fs.t) : option Result :=
  if Fs.existsSync (passwordFile installDir passwordDir) fs0
     && Fs.existsSync (keystoresDir installDir) fs0 then
    let sdir := secretsDir installDir passwordDir in
    let mk :=
      if negb (Fs.existsSync sdir fs0) then Fs.mkdirSync sdir fs0
      else Some fs0 in
    match mk with
    | None => None
    | Some fs1 =>
        match Fs.readFileSync (passwordFile installDir passwordDir) fs1 with
        | None => None
        | Some password =>
            match Fs.readdirSync (keystoresDir installDir) fs1 with
            | None => None
            | Some entries =>
                let keystoreFiles := List.filter KeyManager.isKeystoreFile entries in
                Some (foldl (perKeystore installDir passwordDir password)
                        (mkResult fs1 []) keystoreFiles)
            end
        end
    end
  else Some (mkResult fs0 []).
End Populate.

(** The character policy the secret name is meant to pass:
    [/^[0-9a-fA-F]+$/]. *)
Definition isHexChar (a : ascii) : bool :=
  match Js.digitValue 16 a with Some _ => true | None => false end.

Definition isHex (s : string) : bool :=
  negb (String.eqb s "") && forallb isHexChar (list_ascii_of_string s).

End LighthouseValidator.

(** ** commandLineOptions.js: the persisted run configuration *)

Module Options.

(** The module variables that make up the run configuration, as
    dynamically typed as the script holds them. *)
Record Vars : Type := mkVars {
  executionClient : Js.Val;
  consensusClient : Js.Val;
  executionPeerPort : Js.Val;
  consensusPeerPorts : Js.Val;
  consensusCheckpoint : Js.Val;
  installDir : Js.Val;
  owner : Js.Val;
  validatorEnabled : Js.Val;
  feeRecipient : Js.Val;
  graffiti : Js.Val;
  validatorKeysDir : Js.Val;
  mevBoostEnabled : Js.Val
}.

(** How [loadOptionsFromFile] ends: with the parsed object, with
    [undefined] (no file), or with a thrown error. *)
Inductive LoadResult : Type :=
| Loaded (options : list (string * Js.Json))
| NotFound
| Threw (message : string).

Definition stringFields : list string :=
  ["executionClient"; "consensusClient"; "consensusCheckpoint"; "installDir";
   "owner"; "feeRecipient"; "graffiti"; "validatorKeysDir"].

Definition boolFields : list string := ["validatorEnabled"; "mevBoostEnabled"].

Section Persist.
(** [JSON.stringify] of an object literal and [JSON.parse] ([None] is
    the thrown [SyntaxError]) are the runtime's. *)
Variable JSON_stringify : list (string * Js.Val) → string.
Variable JSON_parse : string → option Js.Json.
(** The directory of the script, where options.json lives. *)
Variable scriptDir : string.

Definition optionsFilePath : string := Path.join [scriptDir; "options.json"].

(** The object literal [saveOptionsToFile] serialises. *)
Definition optionsObject (v : Vars) : list (string * Js.Val) :=
  [("executionClient", executionClient v);
   ("consensusClient", consensusClient v);
   ("executionPeerPort", executionPeerPort v);
   ("consensusPeerPorts", consensusPeerPorts v);
   ("consensusCheckpoint", consensusCheckpoint v);
   ("installDir", installDir v);
   ("owner", owner v);
   ("validatorEnabled", validatorEnabled v);
   ("feeRecipient", feeRecipient v);
   ("graffiti", graffiti v);
   ("validatorKeysDir", validatorKeysDir v);
   ("mevBoostEnabled", mevBoostEnabled v)].

(** [saveOptionsToFile()]; [None] is a thrown error. *)
Definition saveOptionsToFile (v : Vars) (fs : Fs.t) : option Fs.t :=
  Fs.writeFileSync optionsFilePath (JSON_stringify (optionsObject v)) fs.

Definition badStringField (props : list (string * Js.Json)) (field : string)
    : bool :=
  let x := Js.getProperty props field in
  negb (Js.isUndefined x) && negb (Js.isNull x)
  && negb (String.eqb (Js.typeof x) "string").

Definition badBoolField (props : list (string * Js.Json)) (field : string)
    : bool :=
  let x := Js.getProperty props field in
  negb (Js.isUndefined x) && negb (String.eqb (Js.typeof x) "boolean").

(** The checks on a root that is an object, in the order of the
    source. *)
Definition validateObject (props : list (string * Js.Json)) : LoadResult :=
  if negb (Js.isUndefined (Js.getProperty props "__proto__"))
     || negb (Js.isUndefined (Js.getProperty props "constructor")) then
    Threw "Invalid options file: suspicious keys detected"
  else
    match List.find (badStringField props) stringFields with
    | Some field =>
        Threw ("Invalid options file: " +:+ field +:+ " must be a string or null")
    | None =>
        match List.find (badBoolField props) boolFields with
        | Some field =>
            Threw ("Invalid options file: " +:+ field +:+ " must be a boolean")
        | None =>
            let port := Js.getProperty props "executionPeerPort" in
            if negb (Js.isUndefined port)
               && negb (String.eqb (Js.typeof port) "number") then
              Threw "Invalid options file: executionPeerPort must be a number"
            else
              let ports := Js.getProperty props "consensusPeerPorts" in
              if negb (Js.isUndefined ports) && negb (Js.isArray ports) then
                Threw "Invalid options file: consensusPeerPorts must be an array"
              else Loaded props
        end
    end.

(** [loadOptionsFromFile()] *)
Definition loadOptionsFromFile (fs : Fs.t) : LoadResult :=
  if Fs.existsSync optionsFilePath fs then
    match Fs.readFileSync optionsFilePath fs with
    | None => Threw "EISDIR: illegal operation on a directory, read"
    | Some raw =>
        match JSON_parse raw with
        | None => Threw "SyntaxError"
        | Some options =>
            if negb (String.eqb (Js.typeof (Js.Data options)) "object")
               || Js.isNull (Js.Data options)
               || Js.isArray (Js.Data options) then
              Threw "Invalid options file: root must be an object"
            else
              match options with
              | Js.JObj props => validateObject props
              | _ => Threw "Invalid options file: root must be an object"
              end
        end
    end
  else NotFound.

(** [deleteOptionsFile()]: failures are caught and only logged. *)
Definition deleteOptionsFile (fs : Fs.t) : Fs.t :=
  if Fs.existsSync optionsFilePath fs then
    match Fs.unlinkSync optionsFilePath fs with
    | Some fs' => fs'
    | None => fs
    end
  else fs.
End Persist.

End Options.

(** ** index.js: the supervisor *)

Module Supervisor.

Inductive Role : Type := Execution | Consensus | Validator | MevBoost.

Global Instance Role_eq_dec : EqDecision Role.
Proof. solve_decision. Defined.

(** The signals index.js installs a handler for. *)
Inductive Signal : Type := SIGINT | SIGTERM | SIGHUP | SIGUSR2.

Definition signalName (sg : Signal) : string :=
  match sg with
  | SIGINT => "SIGINT"
  | SIGTERM => "SIGTERM"
  | SIGHUP => "SIGHUP"
  | SIGUSR2 => "SIGUSR2"
  end.

(** How [process.kill(pid, 0)] ends: it returns, or throws a system
    error with a code, or throws a [TypeError] (no code). *)
Inductive KillResult : Type :=
| Signalled
| Errno (code : string)
| TypeError.

(** Which alert text is sent. *)
Inductive AlertKind : Type :=
| ClientCrashed (clientName : string)
| ValidatorCrashed
| MevBoostStopped.

Global Instance AlertKind_eq_dec : EqDecision AlertKind.
Proof. solve_decision. Defined.

(** What the supervisor does to the outside. *)
Inductive Effect : Type :=
| Kill (r : Role)                       (* child.kill("SIGINT") *)
| Alert (kind : AlertKind) (code : Z).  (* sendTelegramAlert("crash", ...) *)

Global Instance Effect_eq_dec : EqDecision Effect.
Proof. solve_decision. Defined.

(** The module variables of index.js, with what the runtime keeps for
    it: the listeners [handleExit] has put on the children, the pending
    [setTimeout] callbacks in registration order (delay in ms and the
    child to signal), whether the 1 s interval runs, and whether the
    process has emitted its [exit] event. *)
Record State : Type := mkState {
  fs : Fs.t;
  executionChild : bool;
  consensusChild : bool;
  validatorChild : bool;
  mevBoostChild : bool;
  executionExited : bool;
  consensusExited : bool;
  validatorExited : bool;
  mevBoostExited : bool;
  isExiting : bool;
  shutdownListeners : list Role;
  timers : list (Z * Role);
  interval : bool;
  processExiting : bool;
  trace : list Effect
}.

Definition set_fs (x : Fs.t) (s : State) : State :=
  mkState x (executionChild s) (consensusChild s) (validatorChild s)
    (mevBoostChild s) (executionExited s) (consensusExited s)
    (validatorExited s) (mevBoostExited s) (isExiting s) (shutdownListeners s)
    (timers s) (interval s) (processExiting s) (trace s).

Definition set_executionExited (x : bool) (s : State) : State :=
  mkState (fs s) (executionChild s) (consensusChild s) (validatorChild s)
    (mevBoostChild s) x (consensusExited s) (validatorExited s)
    (mevBoostExited s) (isExiting s) (shutdownListeners s) (timers s)
    (interval s) (processExiting s) (trace s).

Definition set_consensusExited (x : bool) (s : State) : State :=
  mkState (fs s) (executionChild s) (consensusChild s) (validatorChild s)
    (mevBoostChild s) (executionExited s) x (validatorExited s)
    (mevBoostExited s) (isExiting s) (shutdownListeners s) (timers s)
    (interval s) (processExiting s) (trace s).

Definition set_validatorExited (x : bool) (s : State) : State :=
  mkState (fs s) (executionChild s) (consensusChild s) (validatorChild s)
    (mevBoostChild s) (executionExited s) (consensusExited s) x
    (mevBoostExited s) (isExiting s) (shutdownListeners s) (timers s)
    (interval s) (processExiting s) (trace s).

Definition set_mevBoostExited (x : bool) (s : State) : State :=
  mkState (fs s) (executionChild s) (consensusChild s) (validatorChild s)
    (mevBoostChild s) (executionExited s) (consensusExited s)
    (validatorExited s) x (isExiting s) (shutdownListeners s) (timers s)
    (interval s) (processExiting s) (trace s).

Definition set_isExiting (x : bool) (s : State) : State :=
  mkState (fs s) (executionChild s) (consensusChild s) (validatorChild s)
    (mevBoostChild s) (executionExited s) (consensusExited s)
    (validatorExited s) (mevBoostExited s) x (shutdownListeners s) (timers s)
    (interval s) (processExiting s) (trace s).

Definition set_shutdownListeners (x : list Role) (s : State) : State :=
  mkState (fs s) (executionChild s) (consensusChild s) (validatorChild s)
    (mevBoostChild s) (executionExited s) (consensusExited s)
    (validatorExited s) (mevBoostExited s) (isExiting s) x (timers s)
    (interval s) (processExiting s) (trace s).

Definition set_timers (x : list (Z * Role)) (s : State) : State :=
  mkState (fs s) (executionChild s) (consensusChild s) (validatorChild s)
    (mevBoostChild s) (executionExited s) (consensusExited s)
    (validatorExited s) (mevBoostExited s) (isExiting s) (shutdownListeners s)
    x (interval s) (processExiting s) (trace s).

Definition set_interval (x : bool) (s : State) : State :=
  mkState (fs s) (executionChild s) (consensusChild s) (validatorChild s)
    (mevBoostChild s) (executionExited s) (consensusExited s)
    (validatorExited s) (mevBoostExited s) (isExiting s) (shutdownListeners s)
    (timers s) x (processExiting s) (trace s).

Definition set_processExiting (x : bool) (s : State) : State :=
  mkState (fs s) (executionChild s) (consensusChild s) (validatorChild s)
    (mevBoostChild s) (executionExited s) (consensusExited s)
    (validatorExited s) (mevBoostExited s) (isExiting s) (shutdownListeners s)
    (timers s) (interval s) x (trace s).

Definition set_trace (x : list Effect) (s : State) : State :=
  mkState (fs s) (executionChild s) (consensusChild s) (validatorChild s)
    (mevBoostChild s) (executionExited s) (consensusExited s)
    (validatorExited s) (mevBoostExited s) (isExiting s) (shutdownListeners s)
    (timers s) (interval s) (processExiting s) x.

Definition child (r : Role) (s : State) : bool :=
  match r with
  | Execution => executionChild s
  | Consensus => consensusChild s
  | Validator => validatorChild s
  | MevBoost => mevBoostChild s
  end.

Definition exited (r : Role) (s : State) : bool :=
  match r with
  | Execution => executionExited s
  | Consensus => consensusExited s
  | Validator => validatorExited s
  | MevBoost => mevBoostExited s
  end.

Definition set_exited (r : Role) (b : bool) (s : State) : State :=
  match r with
  | Execution => set_executionExited b s
  | Consensus => set_consensusExited b s
  | Validator => set_validatorExited b s
  | MevBoost => set_mevBoostExited b s
  end.

Definition emit (e : Effect) (s : State) : State :=
  set_trace (trace s ++ [e]) s.

Definition allExited (s : State) : bool :=
  executionExited s && consensusExited s && validatorExited s
  && mevBoostExited s.

(** The children [handleExit] still has to signal. *)
Definition live (s : State) (r : Role) : bool := child r s && negb (exited r s).

(** What [attach] and [schedule] leave alone. *)
Definition sameFrame (s s' : State) : Prop :=
  isExiting s' = isExiting s ∧ fs s' = fs s ∧ trace s' = trace s
  ∧ processExiting s' = processExiting s.

(** How a handler ends: it returns to the event loop, or the process is
    gone with an exit code. *)
Inductive Outcome : Type :=
| Return (s : State)
| Exit (code : Z) (s : State).

Definition finalState (o : Outcome) : State :=
  match o with
  | Return s => s
  | Exit _ s => s
  end.

(** The timers in the order they fire: by delay, and at equal delay in
    the order they were set. *)
Fixpoint insertTimer (t : Z * Role) (sorted : list (Z * Role)) : list (Z * Role) :=
  match sorted with
  | [] => [t]
  | u :: rest => if fst u <=? fst t then u :: insertTimer t rest else t :: u :: rest
  end.

Definition fireOrder (ts : list (Z * Role)) : list (Z * Role) :=
  foldl (λ sorted t, insertTimer t sorted) [] ts.

Fixpoint removeTimer (t : Z * Role) (ts : list (Z * Role)) : list (Z * Role) :=
  match ts with
  | [] => []
  | u :: rest => if bool_decide (u = t) then rest else u :: removeTimer t rest
  end.

(** The children signalled by the first [n] timers to fire. *)
Fixpoint drain (n : nat) (ts : list (Z * Role)) : list Role :=
  match n with
  | O => []
  | S n' =>
      match fireOrder ts with
      | [] => []
      | t :: _ => snd t :: drain n' (removeTimer t ts)
      end
  end.

Section Script.
(** [installDir], the directory of the scripts, [process.pid], the
    outcome of the liveness probe, and the names of the two clients. *)
Variable installDir : string.
Variable scriptDir : string.
Variable pid : Z.
Variable kill0 : string → KillResult.
Variable executionClient : string.
Variable consensusClient : string.

Definition lockFilePath : string :=
  Path.join [installDir; "ethereum_clients"; "script.lock"].

(** [deleteOptionsFile()] from commandLineOptions.js. *)
Definition deleteOptionsFile (s : State) : State :=
  set_fs (Options.deleteOptionsFile scriptDir (fs s)) s.

(** The paths no exit path is meant to touch: all but the lock file and
    options.json. *)
Definition untouched (p : string) : Prop :=
  p ≠ lockFilePath ∧ p ≠ Options.optionsFilePath scriptDir.

(** *** The instance lock *)

(** [isAlreadyRunning()]: the answer and the file system after it. *)
Definition isAlreadyRunning (fs0 : Fs.t) : bool * Fs.t :=
  if Fs.existsSync lockFilePath fs0 then
    match Fs.readFileSync lockFilePath fs0 with
    | None => (false, fs0)                       (* outer catch *)
    | Some pidText =>
        match kill0 pidText with
        | Signalled => (true, fs0)
        | Errno code =>
            if String.eqb code "ESRCH" then
              match Fs.unlinkSync lockFilePath fs0 with
              | Some fs1 => (false, fs1)
              | None => (false, fs0)             (* outer catch *)
              end
            else (false, fs0)                    (* rethrown, outer catch *)
        | TypeError => (false, fs0)              (* rethrown, outer catch *)
        end
    end
  else (false, fs0).

(** [createLockFile()]; [None] is a thrown error. *)
Definition createLockFile (fs0 : Fs.t) : option Fs.t :=
  Fs.writeFileSync lockFilePath (pretty pid) fs0.

(** [removeLockFile()]; [None] is a thrown error. *)
Definition removeLockFile (fs0 : Fs.t) : option Fs.t :=
  if Fs.existsSync lockFilePath fs0 then Fs.unlinkSync lockFilePath fs0
  else Some fs0.

(** The start of the main script: [if (!isAlreadyRunning()) {
    deleteOptionsFile(); createLockFile(); ... }]. *)
Inductive Acquire : Type :=
| AlreadyRunning (fs' : Fs.t)
| Acquired (fs' : Fs.t)
| Crashed (fs' : Fs.t).

Definition acquireInstanceLock (fs0 : Fs.t) : Acquire :=
  let '(running, fs1) := isAlreadyRunning fs0 in
  if running then AlreadyRunning fs1
  else
    let fs2 := Options.deleteOptionsFile scriptDir fs1 in
    match createLockFile fs2 with
    | Some fs3 => Acquired fs3
    | None => Crashed fs2
    end.

(** The same, one file-system call at a time. *)
Inductive Pc : Type :=
| AtExists
| AtRead
| AtProbe (pidText : string)
| AtUnlink
| AtDeleteOptions
| AtCreate
| Done (acquired : bool)
| Crash.

Definition lockStep (pc : Pc) (fs0 : Fs.t) : Pc * Fs.t :=
  match pc with
  | AtExists =>
      if Fs.existsSync lockFilePath fs0 then (AtRead, fs0)
      else (AtDeleteOptions, fs0)
  | AtRead =>
      match Fs.readFileSync lockFilePath fs0 with
      | Some pidText => (AtProbe pidText, fs0)
      | None => (AtDeleteOptions, fs0)
      end
  | AtProbe pidText =>
      match kill0 pidText with
      | Signalled => (Done false, fs0)
      | Errno code =>
          if String.eqb code "ESRCH" then (AtUnlink, fs0)
          else (AtDeleteOptions, fs0)
      | TypeError => (AtDeleteOptions, fs0)
      end
  | AtUnlink =>
      match Fs.unlinkSync lockFilePath fs0 with
      | Some fs1 => (AtDeleteOptions, fs1)
      | None => (AtDeleteOptions, fs0)
      end
  | AtDeleteOptions => (AtCreate, Options.deleteOptionsFile scriptDir fs0)
  | AtCreate =>
      match createLockFile fs0 with
      | Some fs1 => (Done true, fs1)
      | None => (Crash, fs0)
      end
  | Done a => (Done a, fs0)
  | Crash => (Crash, fs0)
  end.

Fixpoint lockRun (n : nat) (pc : Pc) (fs0 : Fs.t) : Pc * Fs.t :=
  match n with
  | O => (pc, fs0)
  | S n' => let '(pc', fs1) := lockStep pc fs0 in lockRun n' pc' fs1
  end.

(** *** Children leaving *)

(** The [exit] listener [startClient(clientName, ...)] puts on the
    child it spawns. *)
Definition startClient_onExit (clientName : string) (code : option Z)
    (s : State) : State :=
  let s :=
    match code with
    | Some c =>
        if negb (isExiting s) then emit (Alert (ClientCrashed clientName) c) s
        else s
    | None => s
    end in
  if String.eqb clientName "geth" || String.eqb clientName "reth" then
    set_executionExited true s
  else if String.eqb clientName "prysm" || String.eqb clientName "lighthouse" then
    set_consensusExited true s
  else s.

(** The [exit] listener of [startValidatorClient]. *)
Definition startValidatorClient_onExit (code : option Z) (s : State) : State :=
  let s :=
    match code with
    | Some c =>
        if negb (isExiting s) then emit (Alert ValidatorCrashed c) s else s
    | None => s
    end in
  set_validatorExited true s.

(** The [exit] listener of [startMevBoost]. *)
Definition startMevBoost_onExit (code : option Z) (s : State) : State :=
  let s :=
    match code with
    | Some c =>
        if negb (isExiting s) then emit (Alert MevBoostStopped c) s else s
    | None => s
    end in
  set_mevBoostExited true s.

(** The alert text the listener of a role uses. *)
Definition alertKindOf (r : Role) : AlertKind :=
  match r with
  | Execution => ClientCrashed executionClient
  | Consensus => ClientCrashed consensusClient
  | Validator => ValidatorCrashed
  | MevBoost => MevBoostStopped
  end.

(** The listener the start-up code has put on the child of a role. *)
Definition startListener (r : Role) (code : option Z) (s : State) : State :=
  match r with
  | Execution => startClient_onExit executionClient code s
  | Consensus => startClient_onExit consensusClient code s
  | Validator => startValidatorClient_onExit code s
  | MevBoost => startMevBoost_onExit code s
  end.

(** *** [handleExit] *)

(** How [checkExit()] ends: nothing to do, the process is gone, or
    [removeLockFile] threw. *)
Inductive Check : Type :=
| NotYet (s : State)
| Gone (o : Outcome)
| CheckThrew (s : State).

(** [if (child && !exited) { child.on("exit", ...); child.on("close",
    ...) } else { exited = true }] *)
Definition attach (s : State) (r : Role) : State :=
  if child r s && negb (exited r s) then
    set_shutdownListeners (shutdownListeners s ++ [r]) s
  else set_exited r true s.

(** [if (child && !exited) setTimeout(() => child.kill("SIGINT"),
    delay)] *)
Definition schedule (s : State) (t : Z * Role) : State :=
  if child (snd t) s && negb (exited (snd t) s) then
    set_timers (timers s ++ [t]) s
  else s.

Definition killPlan : list (Z * Role) :=
  [(500, Validator); (750, Execution); (750, Consensus); (750, MevBoost)].

(** The part of [handleExit] between the lock check and the first
    [checkExit()]: the flag, the options file, the listeners and the
    timers. *)
Definition prepare (s : State) : State :=
  let s := set_isExiting true s in
  let s := deleteOptionsFile s in
  let s := if negb (validatorChild s) then set_validatorExited true s else s in
  let s := if negb (mevBoostChild s) then set_mevBoostExited true s else s in
  let s := foldl attach s [Execution; Consensus; Validator; MevBoost] in
  foldl schedule s killPlan.

Section Handler.
(** [process.exit], as it behaves at the point of the call. *)
Variable process_exit : Z → State → Outcome.

Definition checkExit (s : State) : Check :=
  if allExited s then
    match removeLockFile (fs s) with
    | Some fs' => Gone (process_exit 0 (set_fs fs' s))
    | None => CheckThrew s
    end
  else NotYet s.

Definition handleExit_with (exitType : string) (s : State) : Outcome :=
  if isExiting s then Return s
  else
    match Fs.readFileSync lockFilePath (fs s) with
    | None => process_exit 1 s
    | Some lockFilePid =>
        if bool_decide (Js.parseInt lockFilePid ≠ Some pid) then
          process_exit 0 s
        else
          match checkExit (prepare s) with
          | Gone o => o
          | CheckThrew s' => Return s'           (* catch: logged *)
          | NotYet s' => Return (set_interval true s')
          end
    end.
End Handler.

(** [process.exit(code)] once the [exit] event has been emitted. *)
Definition reallyExit (code : Z) (s : State) : Outcome := Exit code s.

(** [process.on("exit", code => { if (!isExiting) handleExit("exit") })];
    it runs while [process._exiting] is set. *)
Definition exitListener (s : State) : Outcome :=
  if negb (isExiting s) then handleExit_with reallyExit "exit" s
  else Return s.

(** [process.exit(code)]: the first call emits [exit] and then leaves
    with [code], unless a listener left with its own. *)
Definition process_exit (code : Z) (s : State) : Outcome :=
  if processExiting s then Exit code s
  else
    match exitListener (set_processExiting true s) with
    | Exit c s' => Exit c s'
    | Return s' => Exit code s'
    end.

Definition handleExit (exitType : string) (s : State) : Outcome :=
  handleExit_with process_exit exitType s.

(** The listeners [handleExit] puts on a child ([handleExecutionExit],
    [handleExecutionClose] and the like are the same code). *)
Definition shutdownListener (r : Role) (s : State) : Check :=
  if negb (exited r s) then checkExit process_exit (set_exited r true s)
  else NotYet s.

(** An error thrown out of a callback reaches the [uncaughtException]
    handler. *)
Definition settle (c : Check) : Outcome :=
  match c with
  | NotYet s => Return s
  | Gone o => o
  | CheckThrew s => handleExit "uncaughtException" s
  end.

(** *** The event loop *)

Inductive Event : Type :=
| Sig (sg : Signal)
| UncaughtException
| UnhandledRejection
| ChildExit (r : Role) (code : option Z)
| ChildClose (r : Role) (code : option Z)
| TimerDue
| IntervalTick
| ProcessExit (code : Z).

Definition dispatch (ev : Event) (s : State) : Outcome :=
  match ev with
  | Sig sg => handleExit (signalName sg) s
  | UncaughtException => handleExit "uncaughtException" s
  | UnhandledRejection => handleExit "unhandledRejection" s
  | ChildExit r code =>
      if child r s then
        let s := startListener r code s in
        if bool_decide (r ∈ shutdownListeners s) then
          settle (shutdownListener r s)
        else Return s
      else Return s
  | ChildClose r code =>
      if child r s && bool_decide (r ∈ shutdownListeners s) then
        settle (shutdownListener r s)
      else Return s
  | TimerDue =>
      match fireOrder (timers s) with
      | [] => Return s
      | t :: _ => Return (emit (Kill (snd t)) (set_timers (removeTimer t (timers s)) s))
      end
  | IntervalTick =>
      if interval s then
        match checkExit process_exit s with
        | NotYet s' =>
            Return (if allExited s' then set_interval false s' else s')
        | c => settle c
        end
      else Return s
  | ProcessExit code => process_exit code s
  end.

(** The events one after the other, until the process is gone. *)
Fixpoint run (evs : list Event) (s : State) : Outcome :=
  match evs with
  | [] => Return s
  | ev :: rest =>
      match dispatch ev s with
      | Return s' => run rest s'
      | Exit c s' => Exit c s'
      end
  end.
End Script.

(** The [kill] calls of a trace, in order. *)
Definition kills (tr : list Effect) : list Role :=
  omap (λ e, match e with Kill r => Some r | Alert _ _ => None end) tr.

(** The alerts of a trace, in order. *)
Definition alerts (tr : list Effect) : list (AlertKind * Z) :=
  omap (λ e, match e with Alert k c => Some (k, c) | Kill _ => None end) tr.

(** *** Two instances starting against one install directory *)

(** The two program counters and the shared file system. *)
Record Race : Type := mkRace {
  pcA : Pc;
  pcB : Pc;
  shared : Fs.t
}.

Section Interleave.
Variable installDir : string.
Variable scriptDir : string.
Variable kill0 : string → KillResult.
Variable pidA pidB : Z.

(** One step of the instance chosen by the scheduler ([true] is A). *)
Definition raceStep (r : Race) (who : bool) : Race :=
  if who then
    let '(pc, fs') := lockStep installDir scriptDir pidA kill0 (pcA r) (shared r) in
    mkRace pc (pcB r) fs'
  else
    let '(pc, fs') := lockStep installDir scriptDir pidB kill0 (pcB r) (shared r) in
    mkRace (pcA r) pc fs'.

Definition raceRun (schedule : list bool) (fs0 : Fs.t) : Race :=
  foldl raceStep (mkRace AtExists AtExists fs0) schedule.
End Interleave.

End Supervisor.

(** ** checkpointHealthCheck.js: choosing the bootstrap endpoint *)

Module Checkpoint.

(** Modelled from the spec: checkpointHealthCheck.js is not among the
    sources; a candidate is the record of section 3 (url, reachable,
    headSlotAge, latency), with durations in milliseconds. *)
Record CheckpointCandidate : Type := mkCandidate {
  url : string;
  reachable : bool;
  headSlotAge : Z;
  latency : Z
}.

(** Modelled from the spec: the eligibility invariant of
    CheckpointCandidate, "eligible for selection only if reachable and
    headSlotAge is below a freshness threshold". *)
Definition eligible (threshold : Z) (c : CheckpointCandidate) : bool :=
  reachable c && (headSlotAge c <? threshold).

(** Modelled from the spec: the ranking of selectBest, "by freshness
    first, latency as tiebreak"; [a] ranks strictly above [b]. *)
Definition outranks (a b : CheckpointCandidate) : bool :=
  (headSlotAge a <? headSlotAge b)
  || ((headSlotAge a =? headSlotAge b) && (latency a <? latency b)).

(** Modelled from the spec: the top-ranked candidate seen so far. *)
Definition pick (best : option CheckpointCandidate) (c : CheckpointCandidate)
    : option CheckpointCandidate :=
  match best with
  | None => Some c
  | Some b => if outranks c b then Some c else Some b
  end.

(** Modelled from the spec: selectBest of section 4.2, on the probe
    results; "returns the top-ranked candidate's URL, or none found if
    zero candidates are eligible". [None] is "none found". *)
Definition selectBest (threshold : Z) (candidates : list CheckpointCandidate)
    : option string :=
  url <$> foldl pick None (List.filter (eligible threshold) candidates).

(** The ranking, not strict: [a] is at least as fresh as [b], and at equal freshness at least as
    fast. *)
Definition atLeastAsGood (a b : CheckpointCandidate) : Prop :=
  headSlotAge a < headSlotAge b
  ∨ (headSlotAge a = headSlotAge b ∧ latency a ≤ latency b).

End Checkpoint.

(** ** A validator installation, for the worked cases *)

Module Scenario.

Definition installDir : string := "/home/op/buidlguidl-client".
Definition scriptDir : string := "/home/op/buidlguidl-client".
Definition pid : Z := 4242.
Definition secureDir : string := "/dev/shm/bgclient-4242".
Definition passwordPath : string := "/dev/shm/bgclient-4242/password.txt".
Definition password : string := "correct horse".

(** The disk of a running primary instance: its lock, its saved options,
    and the keystore password in the RAM-backed directory. *)
Definition disk : Fs.t :=
  list_to_map
    [("/home/op/buidlguidl-client", Fs.Dir);
     ("/home/op/buidlguidl-client/options.json", Fs.File "{}");
     ("/home/op/buidlguidl-client/ethereum_clients", Fs.Dir);
     ("/home/op/buidlguidl-client/ethereum_clients/script.lock", Fs.File "4242");
     ("/dev/shm", Fs.Dir);
     ("/dev/shm/bgclient-4242", Fs.Dir);
     ("/dev/shm/bgclient-4242/password.txt", Fs.File password)].

(** Execution client, consensus client and validator are up; no
    MEV-Boost. *)
Definition running : Supervisor.State :=
  Supervisor.mkState disk true true true false false false false false
    false [] [] false false [].

(** What follows the first event of a shutdown: the three kill timers
    fire, the children leave, the interval ticks. *)
Definition shutdownEvents : list Supervisor.Event :=
  [Supervisor.TimerDue; Supervisor.TimerDue; Supervisor.TimerDue;
   Supervisor.ChildExit Supervisor.Validator None;
   Supervisor.ChildExit Supervisor.Execution (Some 0);
   Supervisor.ChildExit Supervisor.Consensus (Some 0);
   Supervisor.IntervalTick].

(** The ways the supervisor's end can begin. *)
Definition terminationPaths : list Supervisor.Event :=
  [Supervisor.ProcessExit 0;
   Supervisor.Sig Supervisor.SIGINT; Supervisor.Sig Supervisor.SIGTERM;
   Supervisor.Sig Supervisor.SIGHUP; Supervisor.Sig Supervisor.SIGUSR2;
   Supervisor.UncaughtException; Supervisor.UnhandledRejection].

Definition runFrom (evs : list Supervisor.Event) : Supervisor.Outcome :=
  Supervisor.run installDir scriptDir pid "reth" "lighthouse" evs running.

(** The process is gone and the keystore password is still in the secure
    directory. *)
Definition secretLeft (o : Supervisor.Outcome) : bool :=
  match o with
  | Supervisor.Exit _ s' =>
      bool_decide (Fs.readFileSync passwordPath (Supervisor.fs s') = Some password)
      && Fs.existsSync secureDir (Supervisor.fs s')
  | Supervisor.Return _ => false
  end.

(** The disk before any instance has started. *)
Definition freshDisk : Fs.t :=
  list_to_map
    [("/home/op/buidlguidl-client", Fs.Dir);
     ("/home/op/buidlguidl-client/ethereum_clients", Fs.Dir)].

(** The liveness probe while the processes 100 and 200 are alive and no
    other process of interest is. *)
Definition bothAlive (pidText : string) : Supervisor.KillResult :=
  if bool_decide (pidText ∈ ["100"; "200"]) then Supervisor.Signalled
  else Supervisor.Errno "ESRCH".

(** Two instances, pids 100 and 200, start at the same time. *)
Definition race (schedule : list bool) : Supervisor.Race :=
  Supervisor.raceRun installDir scriptDir bothAlive 100 200 schedule freshDisk.

(** A keystore whose [pubkey] is not a public key. *)
Definition quote : string := String "034"%char EmptyString.

Definition evilPubkey : string := "/../../../evil".

Definition keystoreText : string :=
  "{" +:+ quote +:+ "pubkey" +:+ quote +:+ ":"
      +:+ quote +:+ evilPubkey +:+ quote +:+ "}".

Definition keystoreJson : Js.Json := Js.JObj [("pubkey", Js.JStr evilPubkey)].

(** [JSON.parse] on the one document of this case. *)
Definition parseKeystore (text : string) : option Js.Json :=
  if String.eqb text keystoreText then Some keystoreJson else None.

(** The disk when the Lighthouse validator script starts with
    [--password-dir /dev/shm/bgclient-4242]. *)
Definition validatorDisk : Fs.t :=
  list_to_map
    [("/home/op/buidlguidl-client", Fs.Dir);
     ("/home/op/buidlguidl-client/ethereum_clients", Fs.Dir);
     ("/home/op/buidlguidl-client/ethereum_clients/validator", Fs.Dir);
     ("/home/op/buidlguidl-client/ethereum_clients/validator/keystores", Fs.Dir);
     ("/home/op/buidlguidl-client/ethereum_clients/validator/keystores/keystore-m_12381_3600_0_0_0-1.json",
      Fs.File keystoreText);
     ("/dev/shm", Fs.Dir);
     ("/dev/shm/bgclient-4242", Fs.Dir);
     ("/dev/shm/bgclient-4242/password.txt", Fs.File password)].

(** The loop ran, wrote exactly /dev/shm/evil, which is outside the
    secure directory, and the file holds the password. *)
Definition escaped (r : option LighthouseValidator.Result) : bool :=
  match r with
  | Some r =>
      bool_decide (LighthouseValidator.written r = ["/dev/shm/evil"])
      && negb (Path.within secureDir "/dev/shm/evil")
      && bool_decide (Fs.readFileSync "/dev/shm/evil" (LighthouseValidator.fs r)
                      = Some password)
  | None => false
  end.

(** The configuration of a default start, and the object [JSON.parse]
    gives back for its serialisation. *)
Definition defaultVars : Options.Vars :=
  Options.mkVars
    (Js.Data (Js.JStr "reth")) (Js.Data (Js.JStr "lighthouse"))
    (Js.Data (Js.JNum (Js.NInt 30303)))
    (Js.Data (Js.JArr [Js.JNum (Js.NInt 9000); Js.JNum (Js.NInt 9001)]))
    (Js.Data Js.JNull) (Js.Data (Js.JStr installDir)) (Js.Data Js.JNull)
    (Js.Data (Js.JBool false)) (Js.Data Js.JNull)
    (Js.Data (Js.JStr "BuidlGuidl")) (Js.Data Js.JNull)
    (Js.Data (Js.JBool false)).

Definition defaultJson : Js.Json :=
  Js.JObj
    [("executionClient", Js.JStr "reth");
     ("consensusClient", Js.JStr "lighthouse");
     ("executionPeerPort", Js.JNum (Js.NInt 30303));
     ("consensusPeerPorts", Js.JArr [Js.JNum (Js.NInt 9000); Js.JNum (Js.NInt 9001)]);
     ("consensusCheckpoint", Js.JNull);
     ("installDir", Js.JStr installDir);
     ("owner", Js.JNull);
     ("validatorEnabled", Js.JBool false);
     ("feeRecipient", Js.JNull);
     ("graffiti", Js.JStr "BuidlGuidl");
     ("validatorKeysDir", Js.JNull);
     ("mevBoostEnabled", Js.JBool false)].

(** [JSON.stringify] and [JSON.parse] on that one object; the text
    stands for the serialisation. *)
Definition stringifyDefault (_ : list (string * Js.Val)) : string :=
  "default-options".

Definition parseDefault (text : string) : option Js.Json :=
  if String.eqb text "default-options" then Some defaultJson else None.

(** The secure store of that instance. *)
Definition store : SecureStore.State :=
  SecureStore.mkState (Some secureDir) None disk [].

(** The prompt on that instance, with the answers the operator is going
    to type. *)
Definition promptWorld (answers : list string) : KeyManager.World :=
  KeyManager.mkWorld store answers [].

End Scenario.

(** ** Names without a separator *)

Module PathNames.

(** A name without "/". *)
Definition plain (s : string) : bool :=
  forallb (λ a, negb (Ascii.eqb a "/")) (list_ascii_of_string s).

End PathNames.

(** ** What a call may do to the file system *)

Module FsChange.

(** What [mkdirSync] may do to a path: leave it, or make a directory
    where there was nothing. *)
Definition grown (f f' : Fs.t) : Prop :=
  ∀ q, f' !! q = f !! q ∨ (f !! q = None ∧ f' !! q = Some Fs.Dir).

End FsChange.

(** ** secureStore.js: making the secure directory *)

Module SecureSetup.
Import SecureStore.

(** [s.replace(pat, rep)] with a string pattern: the first occurrence
    only. *)
Fixpoint dropChars (n : nat) (s : string) : string :=
  match n, s with
  | O, _ => s
  | S n', String _ rest => dropChars n' rest
  | S _, EmptyString => EmptyString
  end.

Fixpoint replace (pat rep s : string) : string :=
  if String.prefix pat s then rep +:+ dropChars (String.length pat) s
  else
    match s with
    | EmptyString => EmptyString
    | String a rest => String a (replace pat rep rest)
    end.

(** [parseInt(s, 10)]; [None] is [NaN]. With the radix given, a leading
    "0x" is not a prefix: the parse stops at the "x". *)
Definition parseInt10 (s : string) : option Z :=
  let s := Js.skipWhite s in
  let '(neg, s) :=
    match s with
    | String "-"%char rest => (true, rest)
    | String "+"%char rest => (false, rest)
    | _ => (false, s)
    end in
  match Js.digits 10 None s with
  | Some v => Some (if neg : bool then - v else v)
  | None => None
  end.

(** How a call ends: with a value, or with an error thrown out of it. *)
Inductive Result (A : Type) : Type :=
| Ok (a : A) (st : State)
| Thrown (st : State).
Arguments Ok {A} a st.
Arguments Thrown {A} st.

Definition stateOf {A} (r : Result A) : State :=
  match r with
  | Ok _ st => st
  | Thrown st => st
  end.

Definition set_fs (f : Fs.t) (st : State) : State :=
  mkState (secureDirPath st) (macRamDiskDevice st) f (attached st).

Definition set_secureDirPath (v : option string) (st : State) : State :=
  mkState v (macRamDiskDevice st) (fs st) (attached st).

Definition set_macRamDiskDevice (v : option string) (st : State) : State :=
  mkState (secureDirPath st) v (fs st) (attached st).

Section Create.
(** [os.platform()], [os.tmpdir()], [process.pid] *)
Variables (platform tmpdir : string) (pid : Z).
(** [process.kill(pid, 0)]: [true] when it returns, [false] when it
    throws (no such process, or not permitted). *)
Variable processKill0 : Z → bool.
(** [hdiutil attach -nomount ram://2048]: what it prints (the device,
    padded), given the devices attached so far; [None] when the command
    fails. *)
Variable hdiutilAttach : list string → option string.
(** [diskutil erasevolume HFS+ BGClientSecure <device>]: the file system
    with the new volume mounted; [None] when the command fails. *)
Variable diskutilErase : string → Fs.t → option Fs.t.

(** The body of the loop of [cleanupStaleDirs]. *)
Definition sweepEntry (parentDir : string) (f : Fs.t) (entry : string) : Fs.t :=
  if Str.startsWith "bgclient-" entry then
    let stalePath := Path.join [parentDir; entry] in
    match parseInt10 (replace "bgclient-" "" entry) with
    | Some pid' =>
        if processKill0 pid' then f else Fs.rmSync stalePath f
    | None => f
    end
  else f.

(** An entry of the parent directory that [cleanupStaleDirs] sweeps: it
    is named after a process that [process.kill(pid, 0)] does not
    reach. *)
Definition stale (entry : string) : bool :=
  Str.startsWith "bgclient-" entry
  && match parseInt10 (replace "bgclient-" "" entry) with
     | Some pid' => negb (processKill0 pid')
     | None => false
     end.

(** [cleanupStaleDirs(parentDir)]; what throws inside ([readdirSync] on
    something that is not a directory) is caught and logged. *)
Definition cleanupStaleDirs (parentDir : string) (f : Fs.t) : Fs.t :=
  if negb (Fs.existsSync parentDir f) then f
  else
    match Fs.readdirSync parentDir f with
    | Some entries => foldl (sweepEntry parentDir) f entries
    | None => f
    end.

Definition dirName : string := "bgclient-" +:+ pretty pid.

(** [createLinuxSecureDir()]; the value [None] is [null]. *)
Definition createLinuxSecureDir (st : State) : Result (option string) :=
  let shmDir := "/dev/shm" in
  if Fs.existsSync shmDir (fs st) then
    let st1 := set_fs (cleanupStaleDirs shmDir (fs st)) st in
    let dirPath := Path.join [shmDir; dirName] in
    match Fs.mkdirSync dirPath (fs st1) with
    | Some f2 => Ok (Some dirPath) (set_fs f2 st1)
    | None => Thrown st1
    end
  else Ok None st.

(** [s.trim()] on the output of a command. *)
Definition trim (s : string) : string :=
  String.rev (Js.skipWhite (String.rev (Js.skipWhite s))).

(** [createMacSecureDir()]: the device [hdiutil] has printed is attached
    from then on. Everything that fails inside is caught; the catch
    forgets the device and returns [null]. *)
Definition createMacSecureDir (st : State) : Result (option string) :=
  let failed (st : State) := Ok None (set_macRamDiskDevice None st) in
  match hdiutilAttach (attached st) with
  | None => failed st
  | Some output =>
      let deviceRaw := trim output in
      let st1 :=
        mkState (secureDirPath st) (Some deviceRaw) (fs st)
          (attached st ++ [deviceRaw]) in
      match diskutilErase deviceRaw (fs st1) with
      | None => failed st1
      | Some mounted =>
          let st2 := set_fs mounted st1 in
          let dirPath := Path.join [macMountPoint; dirName] in
          match Fs.mkdirSync dirPath (fs st2) with
          | Some f3 => Ok (Some dirPath) (set_fs f3 st2)
          | None => failed st2
          end
      end
  end.

(** [createFallbackSecureDir()] *)
Definition createFallbackSecureDir (st : State) : Result string :=
  let dirPath := Path.join [tmpdir; dirName] in
  match Fs.mkdirSync dirPath (fs st) with
  | Some f1 => Ok dirPath (set_fs f1 st)
  | None => Thrown st
  end.

(** [createSecureDir()] *)
Definition createSecureDir (st : State) : Result string :=
  if isSet (secureDirPath st)
     && Fs.existsSync (default "" (secureDirPath st)) (fs st)
  then Ok (default "" (secureDirPath st)) st
  else
    let first : Result unit :=
      if String.eqb platform "linux" then
        match createLinuxSecureDir st with
        | Ok v st' => Ok tt (set_secureDirPath v st')
        | Thrown st' => Thrown st'
        end
      else if String.eqb platform "darwin" then
        match createMacSecureDir st with
        | Ok v st' => Ok tt (set_secureDirPath v st')
        | Thrown st' => Thrown st'
        end
      else Ok tt st in
    match first with
    | Thrown st' => Thrown st'
    | Ok _ st1 =>
        if negb (isSet (secureDirPath st1)) then
          match createFallbackSecureDir st1 with
          | Ok v st2 => Ok v (set_secureDirPath (Some v) st2)
          | Thrown st2 => Thrown st2
          end
        else Ok (default "" (secureDirPath st1)) st1
    end.

End Create.

End SecureSetup.

(** ** keyManager.js: the deposit tool and the key import *)

Module KeySetup.
Import KeyManager.


(** The path [p] of the tree at [old], moved to [new]. *)
Definition rebase (old new p : string) : string :=
  new +:+ SecureSetup.dropChars (String.length old) p.

(** [fs.renameSync(old, new)]: a file replaces the file at [new]; a
    directory moves with all that is below it, onto nothing or onto an
    empty directory. Throws ([None]) when [old] is missing, when the
    parent of [new] is, when a file would replace a directory or a
    directory a file or a directory that is not empty, or when [new]
    lies inside [old]. *)
Definition renameSync (old new : string) (f : Fs.t) : option Fs.t :=
  if negb (Fs.isDirectory (Path.dirname new) f) then None
  else
    match f !! old with
    | None => None
    | Some (Fs.File content) =>
        match f !! new with
        | Some Fs.Dir => None
        | _ => Some (<[new := Fs.File content]> (delete old f))
        end
    | Some Fs.Dir =>
        if String.eqb old new then Some f
        else if Path.within old new then None
        else
          let free :=
            match f !! new with
            | None => true
            | Some (Fs.File _) => false
            | Some Fs.Dir =>
                forallb (λ kv : string * Fs.Node,
                           negb (Path.within new kv.1) || String.eqb kv.1 new)
                  (map_to_list f)
            end in
          if free then
            let moved : list (string * Fs.Node) :=
              map (λ kv : string * Fs.Node, (rebase old new kv.1, kv.2))
                (List.filter (λ kv : string * Fs.Node, Path.within old kv.1)
                   (map_to_list f)) in
            Some ((list_to_map moved : Fs.t) ∪ Fs.rmSync old f)
          else None
    end.




(** How far a call may have gone without copying or writing a file: the
    file system has only grown directories, and no answer was read. *)
Definition idle (w : World) {A} (o : Outcome A) : Prop :=
  FsChange.grown (fsOf w) (fsOf (worldOf o)) ∧ stdin (worldOf o) = stdin w.

(** [hasPasswordFile(installDir)] *)
Definition hasPasswordFile (installDir : string) (w : World) : Outcome bool :=
  bind (getPasswordFilePath installDir w) (λ passwordPath w,
    Returned (Fs.existsSync passwordPath (fsOf w)) w).

(** [if (!fs.existsSync(dir)) fs.mkdirSync(dir, { recursive: true })] *)
Definition ensureDir (dir : string) (w : World) : Outcome unit :=
  if negb (Fs.existsSync dir (fsOf w)) then
    match Fs.mkdirSync dir (fsOf w) with
    | Some f => Returned tt (withFs w f)
    | None => Threw w
    end
  else Returned tt w.






(** *** The staking-deposit-cli *)

Definition latestDepositCliVer : string := "2.7.0".

(** [DEPOSIT_CLI_CHECKSUMS] *)
Definition DEPOSIT_CLI_CHECKSUMS : list (string * Js.Json) :=
  [("staking_deposit-cli-fdab65d-darwin-amd64.tar.gz",
    Js.JStr "8f33bdb78dfbe334ac25d4d5146bb58a43a06b4f3ab02268ceaf003de1ebc4c3");
   ("staking_deposit-cli-fdab65d-linux-amd64.tar.gz",
    Js.JStr "ac3151843d681c92ae75567a88fbe0e040d53c21368cc1ed1a8c3d9fb29f2a3a");
   ("staking_deposit-cli-fdab65d-linux-arm64.tar.gz",
    Js.JStr "e9ba5baadd5fe0a30c3f222d8cf66cccdd414c7748d095a2c0540904deff3bac")].

(** What [os.arch()] can return. *)
Inductive Arch : Type :=
| arm | arm64 | ia32 | loong64 | mips | mipsel | ppc | ppc64 | riscv64
| s390 | s390x | x32 | x64.

(** The table [configs] of [getDepositCliConfig]. *)
Definition configs : list (string * (Arch → option string)) :=
  [("darwin",
    λ a, match a with
         | x64 => Some "staking_deposit-cli-fdab65d-darwin-amd64"
         | arm64 => Some "staking_deposit-cli-fdab65d-darwin-amd64"
         | _ => None
         end);
   ("linux",
    λ a, match a with
         | x64 => Some "staking_deposit-cli-fdab65d-linux-amd64"
         | arm64 => Some "staking_deposit-cli-fdab65d-linux-arm64"
         | _ => None
         end)].

Record DepositCliConfig : Type := mkConfig {
  fileName : string;
  downloadUrl : string
}.

Section DepositCli.
(** [os.arch()] *)
Variable arch : Arch.
(** [curl -L -o <archive> <url>]: the bytes it fetches; [None] when it
    fails, and nothing is written then. *)
Variable curl : string → option string.
(** The SHA-256 of a byte string, in hex. *)
Variable sha256hex : string → string.
(** [tar -xzf <archive> -C <dir>]: the file system with the archive
    unpacked; [None] when it fails. *)
Variable tar : string → string → Fs.t → option Fs.t.

(** [verifySha256(filePath, expectedHash)]; [None] when the file cannot
    be read. *)
Definition verifySha256 (filePath : string) (expectedHash : Js.Val) (f : Fs.t)
    : option bool :=
  match Fs.readFileSync filePath f with
  | Some fileBuffer =>
      Some match expectedHash with
           | Js.Data (Js.JStr h) => String.eqb (sha256hex fileBuffer) h
           | _ => false
           end
  | None => None
  end.

(** [getDepositCliConfig(platform)]; [None] is the thrown [Error]. No
    architecture names a property of the objects that [configs]
    inherits from, so only its two own entries can answer. *)
Definition getDepositCliConfig (platform : string) : option DepositCliConfig :=
  match List.find (λ c, String.eqb platform c.1) configs with
  | Some (_, byArch) =>
      match byArch arch with
      | Some fileName =>
          if String.eqb fileName "" then None
          else
            Some (mkConfig fileName
                    ("https://github.com/ethereum/staking-deposit-cli/releases/download/v"
                     +:+ latestDepositCliVer +:+ "/" +:+ fileName +:+ ".tar.gz"))
      | None => None
      end
  | None => None
  end.

(** [console.log(...); fs.unlinkSync(archivePath); process.exit(1)] *)
Definition abort (line archivePath : string) (w : World) : Outcome string :=
  let w := log line w in
  match Fs.unlinkSync archivePath (fsOf w) with
  | Some f => Exited 1 (withFs w f)
  | None => Threw w
  end.

(** [installDepositCli(installDir, platform)] *)
Definition installDepositCli (installDir platform : string) (w : World)
    : Outcome string :=
  let depositCliDir := Path.join [installDir; "ethereum_clients"; "deposit-cli"] in
  let depositCliBin := Path.join [depositCliDir; "deposit"] in
  if Fs.existsSync depositCliBin (fsOf w) then Returned depositCliBin w
  else
    let w := log "Installing staking-deposit-cli..." w in
    bind (ensureDir depositCliDir w) (λ _ w,
      match getDepositCliConfig platform with
      | None => Threw w
      | Some cfg =>
          let archiveName := fileName cfg +:+ ".tar.gz" in
          let archivePath := Path.join [depositCliDir; archiveName] in
          match curl (downloadUrl cfg) with
          | None => Threw w
          | Some bytes =>
              match Fs.writeFileSync archivePath bytes (fsOf w) with
              | None => Threw w
              | Some downloaded =>
                  let w := withFs w downloaded in
                  let expectedChecksum :=
                    Js.getProperty DEPOSIT_CLI_CHECKSUMS archiveName in
                  if negb (Js.truthy expectedChecksum) then
                    abort ("No known checksum for " +:+ archiveName
                           +:+ ". Aborting for safety.") archivePath w
                  else
                    match verifySha256 archivePath expectedChecksum (fsOf w) with
                    | None => Threw w
                    | Some false =>
                        abort "SHA256 checksum verification FAILED!"
                          archivePath w
                    | Some true =>
                        let w := log "Checksum verified." w in
                        match tar archivePath depositCliDir (fsOf w) with
                        | None => Threw w
                        | Some unpacked =>
                            let w := withFs w unpacked in
                            let extractedBin :=
                              Path.join [depositCliDir; fileName cfg; "deposit"] in
                            let moved :=
                              if Fs.existsSync extractedBin (fsOf w) then
                                renameSync extractedBin depositCliBin (fsOf w)
                              else Some (fsOf w) in
                            match moved with
                            | None => Threw w
                            | Some f =>
                                (* try { unlinkSync; rmSync } catch {} *)
                                let cleaned :=
                                  match Fs.unlinkSync archivePath f with
                                  | Some f' =>
                                      Fs.rmSync
                                        (Path.join [depositCliDir; fileName cfg]) f'
                                  | None => f
                                  end in
                                Returned depositCliBin (withFs w cleaned)
                            end
                        end
                    end
              end
          end
      end).

End DepositCli.

End KeySetup.

(** ** install.js: comparing client versions *)

Module Install.

Definition latestGethVer : string := "1.16.7".
Definition latestRethVer : string := "1.9.3".
Definition latestLighthouseVer : string := "8.0.1".
Definition latestMevBoostVer : string := "1.8.1".

Definition isDigit (a : ascii) : bool :=
  match Js.digitValue 10 a with Some _ => true | None => false end.

(** [Number(s)] where [s] is made of at most 15 decimal digits, so that
    the double it denotes is the integer itself; the empty string is 0.
    Other strings are outside the model ([None]). *)
Definition Number (s : string) : option Z :=
  if String.eqb s "" then Some 0
  else if forallb isDigit (list_ascii_of_string s)
          && (String.length s <=? 15)%nat
       then Js.digits 10 None s
       else None.

(** [parts[i]] of [v.split(".").map(Number)]: a number, or [undefined]
    (the inner [None]) past the end; the outer [None] is a part outside
    the model. *)
Definition part (parts : list string) (i : nat) : option (option Z) :=
  match parts !! i with
  | Some s => match Number s with Some n => Some (Some n) | None => None end
  | None => Some None
  end.

(** [a > b] and [a < b]; with [undefined] on a side both are false. *)
Definition greater (a b : option Z) : bool :=
  match a, b with
  | Some x, Some y => y <? x
  | _, _ => false
  end.

(** [for (let i = 0; i < 3; i++) { ... } return 0] from [i] on. *)
Fixpoint compareFrom (parts1 parts2 : list string) (i steps : nat) : option Z :=
  match steps with
  | O => Some 0
  | S steps' =>
      match part parts1 i, part parts2 i with
      | Some a, Some b =>
          if greater a b then Some 1
          else if greater b a then Some (-1)
          else compareFrom parts1 parts2 (S i) steps'
      | _, _ => None
      end
  end.

(** [compareVersions(v1, v2)] *)
Definition compareVersions (v1 v2 : string) : option Z :=
  compareFrom (Str.split "."%char v1) (Str.split "."%char v2) 0 3.

(** How [compareClientVersions] ends: with its pair, with the
    [TypeError] of [undefined.split], or outside the model. *)
Inductive Compared : Type :=
| Pair (isLatest : bool) (latestVersion : string)
| ThrewTypeError
| Unmodelled.

(** [compareClientVersions(client, installedVersion)] *)
Definition compareClientVersions (client installedVersion : string) : Compared :=
  let latestVersion :=
    if String.eqb client "reth" then Some latestRethVer
    else if String.eqb client "geth" then Some latestGethVer
    else if String.eqb client "lighthouse" then Some latestLighthouseVer
    else None in
  match latestVersion with
  | None => ThrewTypeError
  | Some latest =>
      match compareVersions installedVersion latest with
      | Some c => Pair (negb (c <? 0)) latest
      | None => Unmodelled
      end
  end.

(** A version as the patterns of [getVersionNumber] capture it: three
    decimal numbers separated by dots. *)
Definition version (v : string) : option (Z * Z * Z) :=
  match Str.split "."%char v with
  | [a; b; c] =>
      if String.eqb a "" || String.eqb b "" || String.eqb c "" then None
      else
        match Number a, Number b, Number c with
        | Some x, Some y, Some z => Some (x, y, z)
        | _, _, _ => None
        end
  | _ => None
  end.

(** The order of versions: by major, then minor, then patch number. *)
Definition older (t1 t2 : Z * Z * Z) : bool :=
  let '(a1, b1, c1) := t1 in
  let '(a2, b2, c2) := t2 in
  (a1 <? a2) || ((a1 =? a2) && ((b1 <? b2) || ((b1 =? b2) && (c1 <? c2)))).

End Install.

(** ** Worked inputs for the further properties *)

Module Cases.

(** A second instance, started while pid 4242 holds the lock. *)
Definition secondPid : Z := 999.

(** The owner before it has started a child. *)
Definition idle : Supervisor.State :=
  Supervisor.mkState Scenario.disk false false false false false false false
    false false [] [] false false [].

(** Children up, and the lock file gone from under the supervisor. *)
Definition unlocked : Supervisor.State :=
  Supervisor.mkState Scenario.freshDisk true true false false false false
    false false false [] [] false false [].

(** The owner in a shutdown: the children are signalled, none has left
    yet. *)
Definition stopping : Supervisor.State :=
  Supervisor.mkState Scenario.disk true true true false false false false
    false true
    [Supervisor.Execution; Supervisor.Consensus; Supervisor.Validator]
    [] true false
    [Supervisor.Kill Supervisor.Validator].


(** What may still arrive during a shutdown. *)
Definition lateEvents : list Supervisor.Event :=
  [Supervisor.ChildExit Supervisor.Execution (Some 1);
   Supervisor.Sig Supervisor.SIGTERM;
   Supervisor.UncaughtException;
   Supervisor.ChildExit Supervisor.Consensus (Some 137);
   Supervisor.IntervalTick].

(** The disk once the instance with pid 100 has taken the lock. *)
Definition firstLock : Fs.t :=
  default Scenario.freshDisk
    (Supervisor.createLockFile Scenario.installDir 100 Scenario.freshDisk).

Definition holder : Supervisor.State :=
  Supervisor.mkState firstLock false false false false false false false
    false false [] [] false false [].

(** A machine at boot: /dev/shm holds the directory a killed instance
    (pid 111) has left behind, and that of a live one (pid 222). *)
Definition bootDisk : Fs.t :=
  list_to_map
    [("/dev", Fs.Dir);
     ("/dev/shm", Fs.Dir);
     ("/dev/shm/bgclient-111", Fs.Dir);
     ("/dev/shm/bgclient-111/password.txt", Fs.File "left behind");
     ("/dev/shm/bgclient-222", Fs.Dir);
     ("/dev/shm/bgclient-222/password.txt", Fs.File "in use");
     ("/dev/shm/notes.txt", Fs.File "unrelated");
     ("/tmp", Fs.Dir)].

Definition boot : SecureStore.State :=
  SecureStore.mkState None None bootDisk [].

(** [process.kill(pid, 0)] while the processes 222 and 4242 are there. *)
Definition alive (z : Z) : bool := (z =? 222) || (z =? 4242).

Definition noHdiutil (_ : list string) : option string := None.

Definition noDiskutil (_ : string) (_ : Fs.t) : option Fs.t := None.

(** [hdiutil] attaches /dev/disk4 and prints it padded. *)
Definition attachDisk4 (_ : list string) : option string :=
  Some ("/dev/disk4          " +:+ String "010"%char EmptyString).

Definition onLinux : SecureSetup.Result string :=
  SecureSetup.createSecureDir "linux" "/tmp" 4242 alive noHdiutil noDiskutil
    boot.

Definition onMac : SecureSetup.Result string :=
  SecureSetup.createSecureDir "darwin" "/tmp" 4242 alive attachDisk4 noDiskutil
    boot.

(** A secure store on a RAM disk. *)
Definition macStore : SecureStore.State :=
  SecureStore.mkState (Some "/Volumes/BGClientSecure/bgclient-4242")
    (Some "/dev/disk4")
    (list_to_map
       [("/Volumes", Fs.Dir);
        ("/Volumes/BGClientSecure", Fs.Dir);
        ("/Volumes/BGClientSecure/bgclient-4242", Fs.Dir);
        ("/Volumes/BGClientSecure/bgclient-4242/password.txt",
         Fs.File Scenario.password);
        ("/home/op/buidlguidl-client", Fs.Dir)])
    ["/dev/disk4"].

(** What the validator script leaves on the disk of [Scenario]. *)
Definition secrets : LighthouseValidator.Result :=
  default (LighthouseValidator.mkResult Scenario.validatorDisk [])
    (LighthouseValidator.populateSecrets Scenario.parseKeystore
       Scenario.installDir (Some Scenario.secureDir) Scenario.validatorDisk).

(** The first-time prompt, answered twice alike. *)
Definition prompted : KeyManager.World :=
  KeyManager.worldOf
    (KeyManager.promptAndSavePassword Scenario.installDir (Some true)
       (Scenario.promptWorld [Scenario.password; Scenario.password])).


(** The deposit tool on Linux x64: the download, its hash (the pinned
    one, or another), and what unpacking adds. *)
Definition depositName : string := "staking_deposit-cli-fdab65d-linux-amd64".

Definition curlOk (_ : string) : option string := Some "archive bytes".

Definition pinnedHash (_ : string) : string :=
  "ac3151843d681c92ae75567a88fbe0e040d53c21368cc1ed1a8c3d9fb29f2a3a".


Definition untar (_ dir : string) (f : Fs.t) : option Fs.t :=
  Some (<[Path.join [dir; depositName; "deposit"] := Fs.File "deposit binary"]>
          (<[Path.join [dir; depositName] := Fs.Dir]> f)).

Definition installWorld : KeyManager.World :=
  KeyManager.mkWorld (SecureStore.mkState None None Scenario.freshDisk []) [] [].

Definition installed : KeyManager.Outcome string :=
  KeySetup.installDepositCli KeySetup.x64 curlOk pinnedHash untar
    Scenario.installDir "linux" installWorld.


(** The disk with the options of a default start saved. *)
Definition savedDisk : Fs.t :=
  default Scenario.freshDisk
    (Options.saveOptionsToFile Scenario.stringifyDefault Scenario.scriptDir
       Scenario.defaultVars Scenario.freshDisk).

End Cases.

(** * Properties *)

Import Supervisor.

(** ** Crash alerts *)

Section AlertFacts.
Variables (executionClient consensusClient : string).

Lemma startClient_onExit_trace clientName code s :
  trace (startClient_onExit clientName code s)
  = trace s ++ match code with
               | Some c => if isExiting s then []
                           else [Alert (ClientCrashed clientName) c]
               | None => []
               end.
Proof.
  unfold startClient_onExit.
  destruct code as [c|], (isExiting s); simpl;
    repeat (case_match; simpl); by rewrite ?app_nil_r.
Qed.

Lemma startValidatorClient_onExit_trace code s :
  trace (startValidatorClient_onExit code s)
  = trace s ++ match code with
               | Some c => if isExiting s then [] else [Alert ValidatorCrashed c]
               | None => []
               end.
Proof.
  unfold startValidatorClient_onExit.
  destruct code as [c|], (isExiting s); simpl; by rewrite ?app_nil_r.
Qed.

Lemma startMevBoost_onExit_trace code s :
  trace (startMevBoost_onExit code s)
  = trace s ++ match code with
               | Some c => if isExiting s then [] else [Alert MevBoostStopped c]
               | None => []
               end.
Proof.
  unfold startMevBoost_onExit.
  destruct code as [c|], (isExiting s); simpl; by rewrite ?app_nil_r.
Qed.

Lemma startListener_trace r code s :
  trace (startListener executionClient consensusClient r code s)
  = trace s ++ match code with
               | Some c => if isExiting s then []
                           else [Alert (alertKindOf executionClient consensusClient r) c]
               | None => []
               end.
Proof.
  destruct r; simpl.
  - apply startClient_onExit_trace.
  - apply startClient_onExit_trace.
  - apply startValidatorClient_onExit_trace.
  - apply startMevBoost_onExit_trace.
Qed.
End AlertFacts.

(** C10. The [exit] listener that [startClient] and [startValidatorClient]
    (and [startMevBoost]) put on a child sends one crash alert when
    [isExiting] is false and the exit code is not [null], and nothing
    otherwise: the trace grows by exactly that alert, so a child ended by a
    signal ([null] code) or leaving during a requested shutdown sends
    none. *)
Theorem C10_crash_alert_exactly_when_unexpected :
  ∀ (executionClient consensusClient : string) (r : Role)
    (code : option Z) (s : State),
    let s' := startListener executionClient consensusClient r code s in
    (trace s' = trace s ++
       (if negb (isExiting s) && bool_decide (is_Some code)
        then [Alert (alertKindOf executionClient consensusClient r) (default 0 code)]
        else []))
    ∧ (alerts (trace s') ≠ alerts (trace s)
       ↔ isExiting s = false ∧ code ≠ None)
    ∧ (code = None → trace s' = trace s)
    ∧ (isExiting s = true → trace s' = trace s).
Proof.
  intros ec cc r code s s'. subst s'.
  rewrite startListener_trace.
  destruct code as [c|], (isExiting s) eqn:Hex; simpl; rewrite ?app_nil_r;
    repeat split; try done; try (intros []; done); try (intros; congruence).
  - intros _. unfold alerts. rewrite omap_app. simpl.
    intros Heq. apply (f_equal (@List.length _)) in Heq.
    rewrite length_app in Heq. simpl in Heq. lia.
Qed.

(** ** Shutdown *)

Section ShutdownFacts.
Variables (installDir scriptDir : string) (pid : Z).
Variables (executionClient consensusClient : string).

Local Abbreviation handleExit := (handleExit installDir scriptDir pid).
Local Abbreviation process_exit := (process_exit installDir scriptDir pid).
Local Abbreviation dispatch :=
  (dispatch installDir scriptDir pid executionClient consensusClient).
Local Abbreviation run :=
  (run installDir scriptDir pid executionClient consensusClient).
Local Abbreviation untouched := (untouched installDir scriptDir).

Lemma sameFrame_refl s : sameFrame s s.
Proof. by unfold sameFrame. Qed.

Lemma sameFrame_trans s1 s2 s3 : sameFrame s1 s2 → sameFrame s2 s3 → sameFrame s1 s3.
Proof. unfold sameFrame. intros (-> & -> & -> & ->) (-> & -> & -> & ->). done. Qed.

Lemma attach_frame s r : sameFrame s (attach s r).
Proof.
  unfold attach, sameFrame.
  destruct (child r s && negb (exited r s)); [done|]. by destruct r.
Qed.

Lemma schedule_frame s t : sameFrame s (schedule s t).
Proof.
  unfold schedule, sameFrame.
  by destruct (child (snd t) s && negb (exited (snd t) s)).
Qed.

Lemma foldl_attach_frame rs s : sameFrame s (foldl attach s rs).
Proof.
  revert s. induction rs as [|r rs IH]; intros s; simpl.
  - apply sameFrame_refl.
  - eapply sameFrame_trans; [apply (attach_frame s r)|apply IH].
Qed.

Lemma foldl_schedule_frame ts s : sameFrame s (foldl schedule s ts).
Proof.
  revert s. induction ts as [|t ts IH]; intros s; simpl.
  - apply sameFrame_refl.
  - eapply sameFrame_trans; [apply (schedule_frame s t)|apply IH].
Qed.

Lemma prepare_frame s :
  isExiting (prepare scriptDir s) = true
  ∧ fs (prepare scriptDir s) = Options.deleteOptionsFile scriptDir (fs s)
  ∧ trace (prepare scriptDir s) = trace s
  ∧ processExiting (prepare scriptDir s) = processExiting s.
Proof.
  unfold prepare.
  match goal with
  | |- context [foldl schedule ?a ?l] =>
      destruct (foldl_schedule_frame l a) as (-> & -> & -> & ->)
  end.
  match goal with
  | |- context [foldl attach ?a ?l] =>
      destruct (foldl_attach_frame l a) as (-> & -> & -> & ->)
  end.
  destruct s as [f ce cc cv cm xe xc xv xm ? ? ? ? ? ?]; simpl.
  by destruct cv, cm.
Qed.

Lemma prepare_isExiting s : isExiting (prepare scriptDir s) = true.
Proof. apply prepare_frame. Qed.

Lemma prepare_fs s :
  fs (prepare scriptDir s) = Options.deleteOptionsFile scriptDir (fs s).
Proof. apply prepare_frame. Qed.

Lemma prepare_trace s : trace (prepare scriptDir s) = trace s.
Proof. apply prepare_frame. Qed.

Lemma prepare_processExiting s :
  processExiting (prepare scriptDir s) = processExiting s.
Proof. apply prepare_frame. Qed.

Lemma prepare_timers s :
  timers (prepare scriptDir s)
  = timers s ++ List.filter (λ t, live s (snd t)) killPlan.
Proof.
  destruct s as [f ce cc cv cm xe xc xv xm ? ? tm ? ? ?].
  destruct ce, cc, cv, cm, xe, xc, xv, xm; lazy -[app];
    rewrite <- ?app_assoc, ?app_nil_r; reflexivity.
Qed.

(** [process.exit] does not come back. *)
Lemma handleExit_with_Return exit exitType s s' :
  (∀ c st st', exit c st ≠ Return st') →
  handleExit_with installDir scriptDir pid exit exitType s = Return s' →
  isExiting s' = true.
Proof.
  intros Hexit. unfold handleExit_with.
  destruct (isExiting s) eqn:Hx; [intros [= <-]; done|].
  destruct (Fs.readFileSync _ _); [|intros H; by apply Hexit in H].
  destruct (bool_decide _); [intros H; by apply Hexit in H|].
  pose proof (prepare_isExiting s) as Hp.
  generalize dependent (prepare scriptDir s). intros ps Hp.
  unfold checkExit. destruct (allExited ps).
  - destruct (removeLockFile _ _); [intros H; by apply Hexit in H|].
    by intros [= <-].
  - by intros [= <-].
Qed.

Lemma process_exit_exits code s : ∃ c s', process_exit code s = Exit c s'.
Proof.
  unfold Supervisor.process_exit. repeat case_match; eauto.
Qed.

Lemma process_exit_not_Return code s s' : process_exit code s ≠ Return s'.
Proof.
  destruct (process_exit_exits code s) as (c & s1 & ->). done.
Qed.

Lemma handleExit_Return_isExiting exitType s s' :
  handleExit exitType s = Return s' → isExiting s' = true.
Proof.
  apply handleExit_with_Return. intros c st st'. apply process_exit_not_Return.
Qed.

Lemma handleExit_isExiting exitType s :
  isExiting s = true → handleExit exitType s = Return s.
Proof.
  intros H. unfold Supervisor.handleExit, handleExit_with. by rewrite H.
Qed.

(** C9. [handleExit] (requestShutdown) is idempotent: once a call has
    returned, a second call, whatever its reason, returns at once and
    leaves the whole state as it was, pending kill timers and trace of
    effects included. So two signals in immediate succession lead,
    whatever events follow, to the run one signal leads to: no further
    kill is scheduled or sent. *)
Theorem C9_requestShutdown_idempotent :
  ∀ (first second : Signal) (reason reason' : string) (later : list Event)
    (s : State),
    run (Sig first :: Sig second :: later) s = run (Sig first :: later) s
    ∧ (∀ s', handleExit reason s = Return s' →
             handleExit reason' s' = Return s').
Proof.
  intros first second reason reason' later s. split.
  - simpl. destruct (handleExit (signalName first) s) as [s'|c s'] eqn:H; [|done].
    apply handleExit_Return_isExiting in H.
    by rewrite (handleExit_isExiting _ _ H).
  - intros s' H. apply handleExit_Return_isExiting in H.
    by rewrite (handleExit_isExiting _ _ H).
Qed.

Lemma handleExit_Return_inv exitType s s' :
  isExiting s = false → handleExit exitType s = Return s' →
  s' = prepare scriptDir s ∨ s' = set_interval true (prepare scriptDir s).
Proof.
  intros Hx. unfold Supervisor.handleExit, handleExit_with. rewrite Hx.
  destruct (Fs.readFileSync _ _);
    [|intros H; by apply process_exit_not_Return in H].
  destruct (bool_decide _); [intros H; by apply process_exit_not_Return in H|].
  generalize (prepare scriptDir s). intros ps.
  unfold checkExit. destruct (allExited ps).
  - destruct (removeLockFile _ _);
      [intros H; by apply process_exit_not_Return in H|].
    intros [= <-]. by left.
  - intros [= <-]. by right.
Qed.

Lemma run_TimerDue n s :
  ∃ s', run (replicate n TimerDue) s = Return s'
        ∧ trace s' = trace s ++ map Kill (drain n (timers s)).
Proof.
  revert s. induction n as [|n IH]; intros s; simpl.
  - exists s. by rewrite app_nil_r.
  - destruct (fireOrder (timers s)) as [|t ts] eqn:Hf.
    + destruct (IH s) as (s' & -> & Ht). exists s'. split; [done|].
      rewrite Ht. destruct n; simpl; by rewrite ?Hf.
    + set (s1 := emit _ _).
      destruct (IH s1) as (s' & -> & Ht). exists s'. split; [done|].
      rewrite Ht. subst s1. simpl. by rewrite <- app_assoc.
Qed.

(** C5. When [handleExit] (requestShutdown) returns, the kill timers it
    has set fire in the order validator, execution, consensus, MEV-Boost
    (restricted to the children still to be signalled): the validator
    after 500 ms, the others after 750 ms in the order they were set, so
    the relay's SIGINT is sent after those of the execution and consensus
    clients, and every signal comes after a delay of at least 500 ms. *)
Theorem C5_shutdown_order :
  ∀ (exitType : string) (s s' : State),
    isExiting s = false →
    timers s = [] →
    handleExit exitType s = Return s' →
    map snd (fireOrder (timers s'))
      = List.filter (live s) [Validator; Execution; Consensus; MevBoost]
    ∧ (∀ d r, (d, r) ∈ timers s' →
              d = match r with Validator => 500 | _ => 750 end)
    ∧ (∃ s'', run (replicate 4 TimerDue) s' = Return s''
              ∧ kills (trace s'')
                = kills (trace s)
                  ++ List.filter (live s) [Validator; Execution; Consensus; MevBoost]).
Proof.
  intros exitType s s' Hx Htm H.
  assert (timers s' = List.filter (λ t, live s (snd t)) killPlan
          ∧ trace s' = trace s) as [Ht Htr].
  { pose proof (prepare_timers s) as Hpt. pose proof (prepare_trace s) as Hptr.
    rewrite Htm, app_nil_l in Hpt.
    destruct (handleExit_Return_inv _ _ _ Hx H) as [-> | ->]; [done|].
    revert Hpt Hptr. generalize (prepare scriptDir s).
    intros ps Hpt Hptr. by rewrite <- Hpt, <- Hptr. }
  destruct (run_TimerDue 4 s') as (s'' & Hrun & Htr'').
  rewrite Htr, Ht in Htr''. rewrite Ht. clear Ht Htr H.
  assert (kills (trace s'') = kills (trace s)
            ++ drain 4 (List.filter (λ t, live s (snd t)) killPlan)) as Hk.
  { rewrite Htr''. unfold kills. rewrite omap_app. f_equal.
    generalize (drain 4 (List.filter (λ t, live s (snd t)) killPlan)).
    intros l. induction l as [|r l IH]; [done|]. simpl. f_equal. exact IH. }
  clear Htr''. unfold killPlan in *.
  split; [|split].
  - simpl. destruct (live s Validator), (live s Execution), (live s Consensus),
      (live s MevBoost); reflexivity.
  - intros d r. simpl.
    destruct (live s Validator), (live s Execution), (live s Consensus),
      (live s MevBoost); simpl;
      rewrite ?elem_of_cons, ?elem_of_nil; intros Hin;
      repeat destruct Hin as [Hin|Hin]; simplify_eq; done.
  - exists s''. split; [done|]. rewrite Hk. f_equal. simpl.
    destruct (live s Validator), (live s Execution), (live s Consensus),
      (live s MevBoost); reflexivity.
Qed.

(** *** What the exit paths do to the file system *)

Lemma deleteOptionsFile_lookup (f : Fs.t) p :
  p ≠ Options.optionsFilePath scriptDir →
  Options.deleteOptionsFile scriptDir f !! p = f !! p.
Proof.
  intros Hp. unfold Options.deleteOptionsFile, Fs.unlinkSync.
  destruct (Fs.existsSync _ _); [|done].
  destruct (f !! Options.optionsFilePath scriptDir) as [[c|]|]; try done.
  by rewrite lookup_delete_ne.
Qed.

Lemma removeLockFile_lookup (f f' : Fs.t) p :
  removeLockFile installDir f = Some f' →
  p ≠ lockFilePath installDir → f' !! p = f !! p.
Proof.
  unfold removeLockFile, Fs.unlinkSync. intros H Hp.
  destruct (Fs.existsSync _ _); [|by simplify_eq].
  destruct (f !! lockFilePath installDir) as [[c|]|]; simplify_eq.
  by rewrite lookup_delete_ne.
Qed.

Lemma checkExit_fs exit p s :
  untouched p →
  (∀ c st, fs (finalState (exit c st)) !! p = fs st !! p) →
  match checkExit installDir exit s with
  | NotYet s' => s' = s
  | Gone o => fs (finalState o) !! p = fs s !! p
  | CheckThrew s' => s' = s
  end.
Proof.
  intros [Hl Ho] Hexit. unfold checkExit.
  destruct (allExited s); [|done].
  destruct (removeLockFile installDir (fs s)) as [f'|] eqn:Hr; [|done].
  rewrite Hexit. simpl. by apply removeLockFile_lookup.
Qed.

Lemma handleExit_with_fs exit exitType p s :
  untouched p →
  (∀ c st, fs (finalState (exit c st)) !! p = fs st !! p) →
  fs (finalState (handleExit_with installDir scriptDir pid exit exitType s)) !! p
  = fs s !! p.
Proof.
  intros Hp Hexit. unfold handleExit_with.
  destruct (isExiting s); [done|].
  destruct (Fs.readFileSync _ _); [|apply Hexit].
  destruct (bool_decide _); [apply Hexit|].
  assert (fs (prepare scriptDir s) !! p = fs s !! p) as Hprep.
  { rewrite prepare_fs. apply deleteOptionsFile_lookup, Hp. }
  pose proof (checkExit_fs exit p (prepare scriptDir s) Hp Hexit) as Hc.
  revert Hprep Hc. generalize (prepare scriptDir s). intros ps Hprep Hc.
  destruct (checkExit installDir exit ps) as [s1|o|s1]; simpl.
  - by subst s1.
  - by rewrite Hc.
  - by subst s1.
Qed.

Lemma process_exit_fs p code s :
  untouched p → fs (finalState (process_exit code s)) !! p = fs s !! p.
Proof.
  intros Hp. unfold Supervisor.process_exit.
  destruct (processExiting s); [done|].
  unfold exitListener.
  replace (isExiting (set_processExiting true s)) with (isExiting s) by done.
  destruct (isExiting s); [done|].
  pose proof (handleExit_with_fs reallyExit "exit" p
                (set_processExiting true s) Hp (λ _ _, eq_refl)) as H.
  by destruct (handleExit_with _ _ _ _ _ _).
Qed.

Lemma handleExit_fs p exitType s :
  untouched p → fs (finalState (handleExit exitType s)) !! p = fs s !! p.
Proof.
  intros Hp. apply handleExit_with_fs; [done|].
  intros c st. by apply process_exit_fs.
Qed.

Lemma settle_fs p s c :
  untouched p →
  match c with
  | NotYet s' => s' = s
  | Gone o => fs (finalState o) !! p = fs s !! p
  | CheckThrew s' => s' = s
  end →
  fs (finalState (settle installDir scriptDir pid c)) !! p = fs s !! p.
Proof.
  intros Hp. destruct c as [s1|o|s1]; simpl; intros H; subst; try done.
  by apply handleExit_fs.
Qed.

Lemma set_exited_fs r b s : fs (set_exited r b s) = fs s.
Proof. by destruct r. Qed.

Lemma startListener_fs r code s :
  fs (startListener executionClient consensusClient r code s) = fs s.
Proof.
  destruct r; simpl;
    unfold startClient_onExit, startValidatorClient_onExit, startMevBoost_onExit;
    destruct code as [c|], (isExiting s); simpl;
    repeat case_match; done.
Qed.

Lemma shutdownListener_fs p r s :
  untouched p →
  fs (finalState (settle installDir scriptDir pid
                    (shutdownListener installDir scriptDir pid r s))) !! p
  = fs s !! p.
Proof.
  intros Hp. unfold shutdownListener.
  destruct (exited r s); simpl; [done|].
  rewrite <- (set_exited_fs r true s).
  apply settle_fs; [done|].
  apply checkExit_fs; [done|]. intros c st. by apply process_exit_fs.
Qed.

Lemma dispatch_fs p ev s :
  untouched p → fs (finalState (dispatch ev s)) !! p = fs s !! p.
Proof.
  intros Hp. destruct ev as [sg| | |r code|r code| | |code]; simpl.
  - by apply handleExit_fs.
  - by apply handleExit_fs.
  - by apply handleExit_fs.
  - destruct (child r s); [|done].
    rewrite <- (startListener_fs r code s).
    generalize (startListener executionClient consensusClient r code s).
    intros s1. destruct (bool_decide _); [|done].
    by apply shutdownListener_fs.
  - destruct (child r s && bool_decide _); [|done].
    by apply shutdownListener_fs.
  - by destruct (fireOrder (timers s)).
  - destruct (interval s); [|done].
    pose proof (checkExit_fs process_exit p s Hp
                  (λ c st, process_exit_fs p c st Hp)) as Hc.
    destruct (checkExit installDir process_exit s) as [s1|o|s1] eqn:Hce.
    + subst s1. by destruct (allExited s).
    + done.
    + subst s1. simpl. by apply handleExit_fs.
  - by apply process_exit_fs.
Qed.

(** No exit path of the supervisor touches a file other than the lock
    file and options.json: whatever events arrive, and however the run
    ends, every other path holds what it held. *)
Lemma run_fs p evs s :
  untouched p → fs (finalState (run evs s)) !! p = fs s !! p.
Proof.
  intros Hp. revert s. induction evs as [|ev evs IH]; intros s; simpl; [done|].
  pose proof (dispatch_fs p ev s Hp) as Hd.
  destruct (dispatch ev s) as [s1|c s1]; simpl in *.
  - by rewrite IH.
  - done.
Qed.

End ShutdownFacts.

Lemma C5_shutdown_order_witness :
  let s' := finalState (Scenario.runFrom [Sig SIGINT]) in
  map snd (fireOrder (timers s'))
    = List.filter (live Scenario.running) [Validator; Execution; Consensus; MevBoost]
  ∧ (∀ d r, (d, r) ∈ timers s' →
            d = match r with Validator => 500 | _ => 750 end)
  ∧ (∃ s'', Supervisor.run Scenario.installDir Scenario.scriptDir Scenario.pid
              "reth" "lighthouse" (replicate 4 TimerDue) s' = Return s''
            ∧ kills (trace s'')
              = kills (trace Scenario.running)
                ++ List.filter (live Scenario.running)
                     [Validator; Execution; Consensus; MevBoost]).
Proof.
  apply (C5_shutdown_order Scenario.installDir Scenario.scriptDir Scenario.pid
           "reth" "lighthouse" "SIGINT" Scenario.running).
  - reflexivity.
  - reflexivity.
  - vm_compute. reflexivity.
Defined.

(** ** The secret directory at exit *)

Lemma rmSync_lookup_within (f : Fs.t) dir p :
  Path.within dir p = true → Fs.rmSync dir f !! p = None.
Proof.
  intros H. unfold Fs.rmSync. apply map_lookup_filter_None. right.
  intros x _. simpl. by rewrite H.
Qed.

Lemma rmSync_lookup_None (f : Fs.t) dir p :
  f !! p = None → Fs.rmSync dir f !! p = None.
Proof.
  intros H. unfold Fs.rmSync. apply map_lookup_filter_None. by left.
Qed.

(** [cleanupSecureDir] does what its name says: when the secure directory
    exists, nothing is left in it or below it, and the module forgets the
    directory. *)
Lemma cleanupSecureDir_removes (st : SecureStore.State) dir p :
  SecureStore.secureDirPath st = Some dir →
  SecureStore.isSet (Some dir) = true →
  Fs.existsSync dir (SecureStore.fs st) = true →
  Path.within dir p = true →
  SecureStore.fs (SecureStore.cleanupSecureDir st) !! p = None
  ∧ SecureStore.secureDirPath (SecureStore.cleanupSecureDir st) = None.
Proof.
  intros Hd Hset Hex Hp. unfold SecureStore.cleanupSecureDir.
  rewrite Hd, Hset. simpl. rewrite Hex. simpl.
  destruct (SecureStore.isSet (SecureStore.macRamDiskDevice st)); simpl.
  - unfold SecureStore.hdiutilDetach. simpl.
    destruct (bool_decide _); simpl; split; try done.
    + by apply rmSync_lookup_None, rmSync_lookup_within.
    + by apply rmSync_lookup_within.
  - split; [|done]. by apply rmSync_lookup_within.
Qed.

Lemma cleanupSecureDir_unset (st : SecureStore.State) :
  SecureStore.isSet (SecureStore.secureDirPath (SecureStore.cleanupSecureDir st))
  = false.
Proof.
  unfold SecureStore.cleanupSecureDir.
  by destruct (SecureStore.isSet (SecureStore.secureDirPath st)) eqn:Hs.
Qed.

(** It is safe to call more than once. *)
Lemma cleanupSecureDir_idempotent (st : SecureStore.State) :
  SecureStore.cleanupSecureDir (SecureStore.cleanupSecureDir st)
  = SecureStore.cleanupSecureDir st.
Proof.
  pose proof (cleanupSecureDir_unset st) as H.
  revert H. generalize (SecureStore.cleanupSecureDir st). intros st' H.
  unfold SecureStore.cleanupSecureDir. by rewrite H.
Qed.

Lemma secretLeft_spec o :
  Scenario.secretLeft o = true →
  ∃ code s',
    o = Exit code s'
    ∧ Fs.readFileSync Scenario.passwordPath (fs s') = Some Scenario.password
    ∧ Fs.existsSync Scenario.secureDir (fs s') = true.
Proof.
  destruct o as [s'|code s']; simpl; [done|].
  intros [H1 H2]%andb_true_iff. apply bool_decide_eq_true in H1. eauto.
Qed.

(** C1, on the code: on none of the termination paths (normal exit, the
    four handled signals, an uncaught exception, an unhandled rejection)
    does the supervisor call [cleanupSecureDir]: whatever events arrive,
    the supervisor changes no path but the lock file and options.json.
    In the worked installation every path ends the process with the
    secure directory and the keystore password still in place, where a
    call to [cleanupSecureDir] would have removed both. *)
Theorem C1_exit_paths_leave_the_secret :
  (∀ installDir scriptDir pid executionClient consensusClient evs s p,
     untouched installDir scriptDir p →
     fs (finalState (Supervisor.run installDir scriptDir pid executionClient
                       consensusClient evs s)) !! p
     = fs s !! p)
  ∧ Forall (λ ev,
              ∃ code s',
                Scenario.runFrom (ev :: Scenario.shutdownEvents) = Exit code s'
                ∧ Fs.readFileSync Scenario.passwordPath (fs s')
                  = Some Scenario.password
                ∧ Fs.existsSync Scenario.secureDir (fs s') = true)
      Scenario.terminationPaths
  ∧ Fs.readFileSync Scenario.passwordPath
      (SecureStore.fs (SecureStore.cleanupSecureDir Scenario.store)) = None
  ∧ Fs.existsSync Scenario.secureDir
      (SecureStore.fs (SecureStore.cleanupSecureDir Scenario.store)) = false.
Proof.
  split; [|split; [|split; vm_compute; reflexivity]].
  - intros. by apply run_fs.
  - unfold Scenario.terminationPaths.
    repeat apply Forall_cons_2; try apply Forall_nil_2;
      (cbv beta; apply secretLeft_spec; vm_compute; reflexivity).
Qed.

(** ** The instance lock *)

Section LockFacts.
Variables (installDir scriptDir : string) (pid : Z).
Variable kill0 : string → KillResult.

Local Abbreviation lock := (lockFilePath installDir).
Local Abbreviation acquire := (acquireInstanceLock installDir scriptDir pid kill0).

Lemma unlinkSync_keeps_dir (f f' : Fs.t) q d :
  Fs.unlinkSync q f = Some f' → Fs.isDirectory d f = true →
  Fs.isDirectory d f' = true.
Proof.
  unfold Fs.unlinkSync, Fs.isDirectory. intros H Hd.
  destruct (f !! q) as [[c|]|] eqn:Hq; simplify_eq.
  destruct (decide (d = q)) as [->|Hne]; [by rewrite Hq in Hd|].
  by rewrite lookup_delete_ne.
Qed.

Lemma unlinkSync_gone (f f' : Fs.t) q :
  Fs.unlinkSync q f = Some f' → f' !! q = None.
Proof.
  unfold Fs.unlinkSync. intros H.
  destruct (f !! q) as [[c|]|]; simplify_eq. apply lookup_delete_eq.
Qed.

Lemma deleteOptionsFile_keeps_dir (f : Fs.t) d :
  Fs.isDirectory d f = true →
  Fs.isDirectory d (Options.deleteOptionsFile scriptDir f) = true.
Proof.
  intros Hd. unfold Options.deleteOptionsFile.
  destruct (Fs.existsSync _ _); [|done].
  destruct (Fs.unlinkSync _ _) eqn:Hu; [|done].
  by eapply unlinkSync_keeps_dir.
Qed.

Lemma deleteOptionsFile_keeps_None (f : Fs.t) p :
  f !! p = None → Options.deleteOptionsFile scriptDir f !! p = None.
Proof.
  intros Hp. unfold Options.deleteOptionsFile, Fs.unlinkSync.
  destruct (Fs.existsSync _ _); [|done].
  destruct (f !! Options.optionsFilePath scriptDir) as [[c|]|]; try done.
  rewrite lookup_delete. by case_decide.
Qed.

Lemma createLockFile_owned (f : Fs.t) :
  f !! lock = None → Fs.isDirectory (Path.dirname lock) f = true →
  ∃ f', createLockFile installDir pid f = Some f'
        ∧ Fs.readFileSync lock f' = Some (pretty pid).
Proof.
  intros Hl Hd. unfold createLockFile, Fs.writeFileSync. rewrite Hl, Hd.
  eexists. split; [done|]. unfold Fs.readFileSync. by rewrite lookup_insert_eq.
Qed.

(** Acquisition once the lock path is free. *)
Lemma acquire_after_probe (f : Fs.t) :
  f !! lock = None → Fs.isDirectory (Path.dirname lock) f = true →
  ∃ f', createLockFile installDir pid (Options.deleteOptionsFile scriptDir f)
        = Some f'
        ∧ Fs.readFileSync lock f' = Some (pretty pid).
Proof.
  intros Hl Hd. apply createLockFile_owned.
  - by apply deleteOptionsFile_keeps_None.
  - by apply deleteOptionsFile_keeps_dir.
Qed.

(** The step machine, run alone, is the script. *)
Lemma lockRun_acquire (f : Fs.t) :
  lockRun installDir scriptDir pid kill0 6 AtExists f
  = match acquire f with
    | AlreadyRunning f' => (Done false, f')
    | Acquired f' => (Done true, f')
    | Crashed f' => (Crash, f')
    end.
Proof.
  unfold acquireInstanceLock, isAlreadyRunning. simpl.
  destruct (Fs.existsSync lock f); simpl.
  - destruct (Fs.readFileSync lock f) as [pidText|]; simpl.
    + destruct (kill0 pidText) as [|code|]; simpl; try done.
      * destruct (String.eqb code "ESRCH"); simpl.
        -- destruct (Fs.unlinkSync lock f); simpl;
             by destruct (createLockFile _ _ _).
        -- by destruct (createLockFile _ _ _).
      * by destruct (createLockFile _ _ _).
    + by destruct (createLockFile _ _ _).
  - by destruct (createLockFile _ _ _).
Qed.


End LockFacts.

(** C3, on the code: the lock is taken by [fs.existsSync] followed, some
    calls later, by [fs.writeFileSync], not by one exclusive create. With
    two instances (pids 100 and 200, both alive) started against one
    install directory, the interleaving A, B, A, A, B, B lets both see no
    lock file and both write one: both end as the owner, and the file
    names the last writer. Run one after the other, the second instance
    finds the first one's lock and stands back. *)
Theorem C3_two_instances_both_acquire :
  let lock := lockFilePath Scenario.installDir in
  (let r := Scenario.race [true; false; true; true; false; false] in
   pcA r = Done true ∧ pcB r = Done true
   ∧ Fs.readFileSync lock (shared r) = Some "200")
  ∧ (let r := Scenario.race [true; true; true; false; false; false] in
     pcA r = Done true ∧ pcB r = Done false
     ∧ Fs.readFileSync lock (shared r) = Some "100").
Proof. vm_compute. repeat split; reflexivity. Qed.

(** ** The persisted run configuration *)

Section OptionsFacts.
Variable JSON_stringify : list (string * Js.Val) → string.
Variable JSON_parse : string → option Js.Json.
Variable scriptDir : string.

(** Every object has a [constructor]: its own, or [Object]. *)
Lemma getProperty_constructor props :
  Js.isUndefined (Js.getProperty props "constructor") = false.
Proof.
  unfold Js.getProperty. by destruct (Js.ownProperty "constructor" props).
Qed.

Lemma validateObject_throws props :
  Options.validateObject props
  = Options.Threw "Invalid options file: suspicious keys detected".
Proof.
  unfold Options.validateObject.
  by rewrite getProperty_constructor, orb_true_r.
Qed.

(** [loadOptionsFromFile] returns an options object for no file at
    all. *)
Lemma loadOptionsFromFile_never_loads (f : Fs.t) props :
  Options.loadOptionsFromFile JSON_parse scriptDir f ≠ Options.Loaded props.
Proof.
  unfold Options.loadOptionsFromFile.
  destruct (Fs.existsSync _ _); [|done].
  destruct (Fs.readFileSync _ _) as [raw|]; [|done].
  destruct (JSON_parse raw) as [[| | | | |props']|]; try done.
  simpl. by rewrite validateObject_throws.
Qed.

(** C4, on the code: whatever configuration [saveOptionsToFile] has
    written, the [loadOptionsFromFile] that follows throws. The check
    against prototype pollution reads [options.constructor], which every
    object [JSON.parse] returns inherits from [Object.prototype], so it
    rejects every object root ("suspicious keys detected"); any other
    root is rejected as not an object. Nothing saved is ever returned. *)
Theorem C4_saved_options_are_rejected_on_load :
  ∀ (v : Options.Vars) (f f' : Fs.t),
    Options.saveOptionsToFile JSON_stringify scriptDir v f = Some f' →
    ∃ message,
      Options.loadOptionsFromFile JSON_parse scriptDir f' = Options.Threw message
      ∧ (∀ props, JSON_parse (JSON_stringify (Options.optionsObject v))
                  = Some (Js.JObj props) →
                  message = "Invalid options file: suspicious keys detected").
Proof.
  intros v f f'. unfold Options.saveOptionsToFile, Fs.writeFileSync.
  destruct (f !! Options.optionsFilePath scriptDir) as [[c|]|] eqn:Hf;
    try done;
    (destruct (Fs.isDirectory _ f); [|done]; intros [= <-];
     unfold Options.loadOptionsFromFile, Fs.existsSync, Fs.readFileSync;
     rewrite lookup_insert_eq;
     rewrite bool_decide_eq_true_2 by eauto;
     destruct (JSON_parse _) as [[| | | | |props']|]; simpl;
     rewrite ?validateObject_throws;
     (eexists; split; [reflexivity|]; intros props [=]; subst; done)).
Qed.

End OptionsFacts.

Lemma C4_saved_options_are_rejected_on_load_witness :
  ∃ message,
    Options.loadOptionsFromFile Scenario.parseDefault "/app"
      (<["/app/options.json" := Fs.File "default-options"]> {["/app" := Fs.Dir]})
    = Options.Threw message
    ∧ (∀ props, Scenario.parseDefault
                  (Scenario.stringifyDefault
                     (Options.optionsObject Scenario.defaultVars))
                = Some (Js.JObj props) →
                message = "Invalid options file: suspicious keys detected").
Proof.
  apply (C4_saved_options_are_rejected_on_load Scenario.stringifyDefault
           Scenario.parseDefault "/app" Scenario.defaultVars
           {["/app" := Fs.Dir]}).
  vm_compute. reflexivity.
Defined.

(** ** The Lighthouse secrets directory *)

Lemma escaped_spec o :
  Scenario.escaped o = true →
  ∃ r, o = Some r
       ∧ LighthouseValidator.written r = ["/dev/shm/evil"]
       ∧ Path.within Scenario.secureDir "/dev/shm/evil" = false
       ∧ Fs.readFileSync "/dev/shm/evil" (LighthouseValidator.fs r)
         = Some Scenario.password.
Proof.
  destruct o as [r|]; unfold Scenario.escaped; [|done].
  intros [[H1 _]%andb_true_iff H3]%andb_true_iff.
  apply bool_decide_eq_true in H1, H3.
  exists r. repeat split; done.
Qed.

(** C2, on the code: the population loop builds the secret file's path
    as [path.join(secretsDir, `0x${pubkey}`)] from whatever truthy
    [pubkey] the keystore holds; nothing checks that it is hexadecimal.
    With the secure directory /dev/shm/bgclient-4242 and a keystore whose
    pubkey is "/../../../evil", the password is written to /dev/shm/evil,
    outside the secure directory. *)
Theorem C2_pubkey_escapes_the_secure_directory :
  LighthouseValidator.isHex Scenario.evilPubkey = false
  ∧ ∃ r,
      LighthouseValidator.populateSecrets Scenario.parseKeystore
        Scenario.installDir (Some Scenario.secureDir) Scenario.validatorDisk
      = Some r
      ∧ LighthouseValidator.written r = ["/dev/shm/evil"]
      ∧ Path.within Scenario.secureDir "/dev/shm/evil" = false
      ∧ Fs.readFileSync "/dev/shm/evil" (LighthouseValidator.fs r)
        = Some Scenario.password.
Proof.
  split; [vm_compute; reflexivity|].
  apply escaped_spec. vm_compute. reflexivity.
Qed.

(** ** The keystore password prompt *)

Section PromptFacts.
Import KeyManager.

Lemma getPasswordFilePath_returns installDir w :
  ∃ p, getPasswordFilePath installDir w = Returned p w.
Proof.
  unfold getPasswordFilePath, SecureStore.getSecurePasswordPath,
    SecureStore.getSecureDirPath.
  destruct (SecureStore.isSet _); simpl; eauto.
Qed.

Lemma writeFileSync_read (f f' : Fs.t) p data :
  Fs.writeFileSync p data f = Some f' → Fs.readFileSync p f' = Some data.
Proof.
  unfold Fs.writeFileSync, Fs.readFileSync. intros H.
  destruct (f !! p) as [[c|]|]; try done;
    destruct (Fs.isDirectory _ f); simplify_eq; by rewrite lookup_insert_eq.
Qed.


(** The revision of the prompt in ethereum_client_scripts/keyManager.js
    differs: it has no length check. On a disk without a password file
    it stores a one-character password once the operator has typed it
    twice. *)
Lemma legacy_prompt_accepts_short_password :
  ∃ w',
    Legacy.promptAndSavePassword Scenario.installDir
      (mkWorld (SecureStore.mkState None None Scenario.freshDisk [])
         ["x"; "x"] [])
    = Returned
        "/home/op/buidlguidl-client/ethereum_clients/validator/password.txt" w'
    ∧ Fs.readFileSync
        "/home/op/buidlguidl-client/ethereum_clients/validator/password.txt"
        (fsOf w') = Some "x".
Proof. eexists. split; vm_compute; reflexivity. Qed.

End PromptFacts.

(** ** Checkpoint selection *)

Section CheckpointFacts.
Import Checkpoint.

Lemma atLeastAsGood_refl a : atLeastAsGood a a.
Proof. unfold atLeastAsGood. lia. Qed.

Lemma atLeastAsGood_trans a b c :
  atLeastAsGood a b → atLeastAsGood b c → atLeastAsGood a c.
Proof. unfold atLeastAsGood. lia. Qed.

Lemma outranks_true a b : outranks a b = true → atLeastAsGood a b.
Proof. unfold outranks, atLeastAsGood. lia. Qed.

Lemma outranks_false a b : outranks a b = false → atLeastAsGood b a.
Proof. unfold outranks, atLeastAsGood. lia. Qed.

Lemma foldl_pick_Some l b :
  ∃ c, foldl pick (Some b) l = Some c
       ∧ (c = b ∨ c ∈ l)
       ∧ atLeastAsGood c b
       ∧ ∀ c', c' ∈ l → atLeastAsGood c c'.
Proof.
  revert b. induction l as [|x l IH]; intros b; simpl.
  - exists b. repeat split; [by left|apply atLeastAsGood_refl|].
    intros c' H. by apply elem_of_nil in H.
  - destruct (outranks x b) eqn:Ho.
    + destruct (IH x) as (c & -> & Hin & Hcx & Hall). exists c.
      repeat split.
      * right. destruct Hin as [->|Hin]; [left|by right].
      * eapply atLeastAsGood_trans; [done|]. by apply outranks_true.
      * intros c' [->|Hc']%elem_of_cons; [done|by apply Hall].
    + destruct (IH b) as (c & -> & Hin & Hcb & Hall). exists c.
      repeat split.
      * destruct Hin as [->|Hin]; [by left|right; by right].
      * done.
      * intros c' [->|Hc']%elem_of_cons; [|by apply Hall].
        eapply atLeastAsGood_trans; [done|]. by apply outranks_false.
Qed.

Lemma foldl_pick_None l :
  match foldl pick None l with
  | None => l = []
  | Some c => c ∈ l ∧ ∀ c', c' ∈ l → atLeastAsGood c c'
  end.
Proof.
  destruct l as [|x l]; simpl; [done|].
  destruct (foldl_pick_Some l x) as (c & -> & Hin & Hcx & Hall). split.
  - destruct Hin as [->|Hin]; [left|by right].
  - intros c' [->|Hc']%elem_of_cons; [done|by apply Hall].
Qed.

Lemma elem_of_eligible threshold (l : list CheckpointCandidate) c :
  c ∈ List.filter (eligible threshold) l ↔ c ∈ l ∧ eligible threshold c = true.
Proof. rewrite !list_elem_of_In. apply filter_In. Qed.

(** C7. [selectBest], as the specification describes it: the URL it
    returns is that of an eligible candidate that no eligible candidate
    beats on freshness, nor, at equal freshness, on latency; it returns
    "none found" ([None]) exactly when no candidate is eligible, and in
    particular when every candidate is unreachable. *)
Theorem C7_selectBest_ranks_by_freshness_then_latency :
  ∀ (threshold : Z) (candidates : list CheckpointCandidate),
    (∀ u, selectBest threshold candidates = Some u →
          ∃ c, c ∈ candidates ∧ url c = u ∧ eligible threshold c = true
               ∧ ∀ c', c' ∈ candidates → eligible threshold c' = true →
                       headSlotAge c < headSlotAge c'
                       ∨ (headSlotAge c = headSlotAge c'
                          ∧ latency c ≤ latency c'))
    ∧ (selectBest threshold candidates = None
       ↔ ∀ c, c ∈ candidates → eligible threshold c = false)
    ∧ ((∀ c, c ∈ candidates → reachable c = false) →
       selectBest threshold candidates = None).
Proof.
  intros threshold candidates. unfold selectBest.
  pose proof (foldl_pick_None (List.filter (eligible threshold) candidates)) as H.
  assert (foldl pick None (List.filter (eligible threshold) candidates) = None
          ↔ ∀ c, c ∈ candidates → eligible threshold c = false) as Hnone.
  { destruct (foldl pick None _) as [c|].
    - destruct H as [Hin _]. apply elem_of_eligible in Hin as [Hin He].
      split; [done|]. intros Hall. rewrite (Hall c Hin) in He. done.
    - split; [|done]. intros _ c Hc.
      destruct (eligible threshold c) eqn:He; [|done].
      assert (c ∈ List.filter (eligible threshold) candidates) as Hc'
        by by apply elem_of_eligible.
      rewrite H in Hc'. by apply elem_of_nil in Hc'. }
  split; [|split].
  - intros u Hu. destruct (foldl pick None _) as [c|]; [|done].
    simpl in Hu. injection Hu as <-. destruct H as [Hin Hall].
    apply elem_of_eligible in Hin as [Hin He].
    exists c. repeat split; try done.
    intros c' Hc' He'. apply Hall. by apply elem_of_eligible.
  - rewrite <- Hnone. destruct (foldl pick None _); simpl; split; done.
  - intros Hun. assert (foldl pick None
      (List.filter (eligible threshold) candidates) = None) as ->; [|done].
    apply Hnone. intros c Hc. unfold eligible. by rewrite (Hun c Hc).
Qed.

End CheckpointFacts.

(** ** Worked values of the runtime model *)

Example path_join_plain :
  Path.join ["/dev/shm/bgclient-100"; "secrets"] = "/dev/shm/bgclient-100/secrets".
Proof. reflexivity. Qed.

Example path_join_dotdot :
  Path.join ["/dev/shm/bgclient-100/secrets"; "0x../../tmp/evil"]
  = "/dev/shm/bgclient-100/secrets/tmp/evil".
Proof. reflexivity. Qed.

Example path_join_escape :
  Path.join ["/dev/shm/bgclient-100/secrets"; "0x/../../../evil"]
  = "/dev/shm/evil".
Proof. reflexivity. Qed.

Example path_dirname_ex :
  Path.dirname "/dev/shm/bgclient-100/password.txt" = "/dev/shm/bgclient-100".
Proof. reflexivity. Qed.

Example fs_demo :
  let fs : Fs.t := {[ "/dev/shm" := Fs.Dir ]} in
  match Fs.mkdirSync "/dev/shm/bgclient-100/secrets" fs with
  | Some fs1 =>
      match Fs.writeFileSync "/dev/shm/bgclient-100/password.txt" "hunter22" fs1 with
      | Some fs2 =>
          (Fs.readFileSync "/dev/shm/bgclient-100/password.txt" fs2,
           Fs.readdirSync "/dev/shm/bgclient-100" fs2,
           Fs.existsSync "/dev/shm/bgclient-100" (Fs.rmSync "/dev/shm/bgclient-100" fs2))
          = (Some "hunter22", Some ["secrets"; "password.txt"], false)
      | None => False
      end
  | None => False
  end.
Proof. vm_compute. reflexivity. Qed.

Example parseInt_examples :
  (Js.parseInt "4242", Js.parseInt " 17abc", Js.parseInt "", Js.parseInt "0x1f",
   Js.parseInt "-5", Js.parseInt "abc")
  = (Some 4242, Some 17, None, Some 31, Some (-5), None).
Proof. vm_compute. reflexivity. Qed.

Example pretty_pid : pretty (4242 : Z) = "4242".
Proof. vm_compute. reflexivity. Qed.

Example toString_examples :
  (Js.toString (Js.JStr "ab"), Js.toString (Js.JArr [Js.JNum (Js.NInt 1); Js.JNull; Js.JStr "x"]),
   Js.toString (Js.JObj []))
  = ("ab", "1,,x", "[object Object]").
Proof. vm_compute. reflexivity. Qed.

Example fireOrder_ties_keep_registration_order :
  fireOrder [(750, Execution); (750, Consensus); (500, Validator); (750, MevBoost)]
  = [(500, Validator); (750, Execution); (750, Consensus); (750, MevBoost)].
Proof. vm_compute. reflexivity. Qed.

Example prompt_restart_stores_the_password :
  KeyManager.promptAndSavePassword Scenario.installDir None
    (Scenario.promptWorld ["correct horse"; "ignored"])
  = KeyManager.Returned Scenario.passwordPath
      (KeyManager.mkWorld Scenario.store ["ignored"] []).
Proof. vm_compute. reflexivity. Qed.

Example prompt_first_time_mismatch_is_fatal :
  KeyManager.promptAndSavePassword Scenario.installDir (Some true)
    (KeyManager.mkWorld
       (SecureStore.mkState (Some Scenario.secureDir) None Scenario.freshDisk [])
       ["correct horse"; "correct hoarse"] [])
  = KeyManager.Exited 1
      (KeyManager.mkWorld
         (SecureStore.mkState (Some Scenario.secureDir) None Scenario.freshDisk [])
         [] ["Passwords do not match. Please try again."]).
Proof. vm_compute. reflexivity. Qed.

Example lock_reclaimed_from_dead_owner :
  acquireInstanceLock Scenario.installDir Scenario.scriptDir 4243
    Scenario.bothAlive Scenario.disk
  = Acquired
      (<["/home/op/buidlguidl-client/ethereum_clients/script.lock" := Fs.File "4243"]>
         (delete "/home/op/buidlguidl-client/options.json" Scenario.disk)).
Proof. vm_compute. reflexivity. Qed.

Example lock_held_by_live_owner :
  acquireInstanceLock Scenario.installDir Scenario.scriptDir 4243
    (λ _, Signalled) Scenario.disk
  = AlreadyRunning Scenario.disk.
Proof. vm_compute. reflexivity. Qed.

Example selectBest_prefers_fresh_then_fast :
  Checkpoint.selectBest 64000
    [Checkpoint.mkCandidate "https://a.example" true 12000 80;
     Checkpoint.mkCandidate "https://b.example" true 6000 300;
     Checkpoint.mkCandidate "https://c.example" true 6000 120;
     Checkpoint.mkCandidate "https://d.example" false 0 10;
     Checkpoint.mkCandidate "https://e.example" true 900000 5]
  = Some "https://c.example".
Proof. vm_compute. reflexivity. Qed.

Example selectBest_none_found :
  Checkpoint.selectBest 64000
    [Checkpoint.mkCandidate "https://a.example" false 0 0;
     Checkpoint.mkCandidate "https://b.example" false 0 0]
  = None.
Proof. vm_compute. reflexivity. Qed.

(** * Further properties *)

Import FsChange.

(** ** The pid in the lock file *)

Section PidText.

Lemma digitValue_pretty_N_char (d : N) :
  (d < 10)%N → Js.digitValue 10 (pretty_N_char d) = Some (Z.of_N d).
Proof.
  intros Hd.
  assert (d = 0 ∨ d = 1 ∨ d = 2 ∨ d = 3 ∨ d = 4 ∨ d = 5 ∨ d = 6 ∨ d = 7
          ∨ d = 8 ∨ d = 9)%N as H by lia.
  repeat (destruct H as [->|H]; [reflexivity|]). by subst.
Qed.

(** Reading back the digits that [pretty] has written: [k] is their
    number. *)
Lemma digits_pretty_N_go (x : N) :
  (0 < x)%N →
  ∃ k, 0 ≤ k ∧ ∀ s acc,
    Js.digits 10 acc (pretty_N_go x s)
    = Js.digits 10 (Some (default 0 acc * 10 ^ k + Z.of_N x)) s.
Proof.
  induction (N.lt_wf_0 x) as [x _ IH]. intros Hx.
  assert (x `mod` 10 < 10)%N as Hm by (apply N.mod_lt; lia).
  pose proof (N.div_mod x 10 ltac:(lia)) as Hdm.
  destruct (decide (x `div` 10 = 0)%N) as [Hz|Hnz].
  - exists 1. split; [lia|]. intros s acc.
    rewrite pretty_N_go_step, Hz, pretty_N_go_0 by done. simpl Js.digits.
    rewrite digitValue_pretty_N_char by done. f_equal. f_equal. lia.
  - destruct (IH (x `div` 10)%N) as (k & Hk & IHk).
    + apply N.div_lt; lia.
    + lia.
    + exists (k + 1). split; [lia|]. intros s acc.
      rewrite pretty_N_go_step, IHk by done. simpl Js.digits.
      rewrite digitValue_pretty_N_char by done. f_equal. f_equal.
      rewrite Z.pow_add_r by lia. simpl default. lia.
Qed.

(** [pretty] never writes a leading zero. *)
Lemma pretty_N_go_leading (x : N) :
  (0 < x)%N →
  ∀ s, ∃ d rest, (1 ≤ d < 10)%N ∧ pretty_N_go x s = String (pretty_N_char d) rest.
Proof.
  induction (N.lt_wf_0 x) as [x _ IH]. intros Hx s.
  assert (x `mod` 10 < 10)%N as Hm by (apply N.mod_lt; lia).
  pose proof (N.div_mod x 10 ltac:(lia)) as Hdm.
  rewrite pretty_N_go_step by done.
  destruct (decide (x `div` 10 = 0)%N) as [Hz|Hnz].
  - rewrite Hz, pretty_N_go_0. exists (x `mod` 10)%N, s. split; [lia|done].
  - apply IH; [apply N.div_lt; lia|lia].
Qed.

Lemma parseInt_digit_led (d : N) (rest : string) :
  (1 ≤ d < 10)%N →
  Js.parseInt (String (pretty_N_char d) rest)
  = Js.digits 10 None (String (pretty_N_char d) rest)
  ∧ Js.parseInt (String "-" (String (pretty_N_char d) rest))
    = Z.opp <$> Js.digits 10 None (String (pretty_N_char d) rest).
Proof.
  intros Hd.
  assert (d = 1 ∨ d = 2 ∨ d = 3 ∨ d = 4 ∨ d = 5 ∨ d = 6 ∨ d = 7
          ∨ d = 8 ∨ d = 9)%N as H by lia.
  repeat (destruct H as [->|H];
          [split; unfold Js.parseInt; simpl;
           by destruct (Js.digits _ _ _)|]).
  subst. split; unfold Js.parseInt; simpl; by destruct (Js.digits _ _ _).
Qed.

(** [createLockFile] writes [process.pid.toString()] and [handleExit]
    reads the file back with [parseInt]: the round trip is the identity
    on every integer. *)
Lemma parseInt_pretty (z : Z) : Js.parseInt (pretty z) = Some z.
Proof.
  destruct z as [|p|p]; [done| |].
  - change (pretty (Z.pos p)) with (pretty_N_go (N.pos p) "").
    destruct (pretty_N_go_leading (N.pos p) ltac:(lia) "") as (d & rest & Hd & Hs).
    destruct (digits_pretty_N_go (N.pos p) ltac:(lia)) as (k & Hk & Hdig).
    specialize (Hdig "" None). rewrite Hs in *.
    destruct (parseInt_digit_led d rest Hd) as [-> _].
    rewrite Hdig. simpl. f_equal.
  - change (pretty (Z.neg p)) with ("-" +:+ pretty_N_go (N.pos p) "").
    destruct (pretty_N_go_leading (N.pos p) ltac:(lia) "") as (d & rest & Hd & Hs).
    destruct (digits_pretty_N_go (N.pos p) ltac:(lia)) as (k & Hk & Hdig).
    specialize (Hdig "" None). rewrite Hs in *.
    change ("-" +:+ String (pretty_N_char d) rest)
      with (String "-" (String (pretty_N_char d) rest)).
    destruct (parseInt_digit_led d rest Hd) as [_ ->].
    rewrite Hdig. simpl. f_equal.
Qed.

End PidText.

(** ** More on the supervisor *)

Section SupervisorMore.
Variables (installDir scriptDir : string) (pid : Z).
Variables (executionClient consensusClient : string).

Local Abbreviation lock := (lockFilePath installDir).
Local Abbreviation optionsPath := (Options.optionsFilePath scriptDir).
Local Abbreviation handleExit := (handleExit installDir scriptDir pid).
Local Abbreviation process_exit := (process_exit installDir scriptDir pid).
Local Abbreviation dispatch :=
  (dispatch installDir scriptDir pid executionClient consensusClient).
Local Abbreviation run :=
  (run installDir scriptDir pid executionClient consensusClient).

Lemma set_processExiting_same s :
  processExiting s = true → set_processExiting true s = s.
Proof. destruct s; simpl. by intros ->. Qed.

(** [process.exit] while a shutdown is in progress: the [exit] listener
    has nothing to do. *)
Lemma process_exit_while_exiting code s :
  isExiting s = true → process_exit code s = Exit code (set_processExiting true s).
Proof.
  intros Hx. unfold Supervisor.process_exit.
  destruct (processExiting s) eqn:Hp.
  - by rewrite set_processExiting_same.
  - unfold exitListener.
    replace (isExiting (set_processExiting true s)) with (isExiting s) by done.
    by rewrite Hx.
Qed.

(** X1. A second instance (one whose pid is not the one in the lock
    file) that is asked to shut down leaves with code 0 and does nothing
    else: no file is touched, no child is signalled, no timer is set. *)
Theorem handleExit_of_a_secondary_instance_only_exits :
  ∀ (exitType lockFilePid : string) (s : State),
    isExiting s = false →
    Fs.readFileSync lock (fs s) = Some lockFilePid →
    Js.parseInt lockFilePid ≠ Some pid →
    handleExit exitType s = Exit 0 (set_processExiting true s).
Proof.
  intros exitType t s Hx Hr Hne.
  unfold Supervisor.handleExit, handleExit_with. rewrite Hx, Hr.
  rewrite bool_decide_eq_true_2 by done.
  unfold Supervisor.process_exit.
  destruct (processExiting s) eqn:Hp.
  - by rewrite set_processExiting_same.
  - unfold exitListener, handleExit_with.
    replace (isExiting (set_processExiting true s)) with (isExiting s) by done.
    replace (fs (set_processExiting true s)) with (fs s) by done.
    rewrite Hx, Hr. cbn [negb]. cbv iota. by rewrite bool_decide_eq_true_2.
Qed.

(** X2. When the lock file cannot be read (it is missing), a shutdown
    request ends the process with code 1 and does nothing else. *)
Theorem handleExit_without_lock_file_exits_1 :
  ∀ (exitType : string) (s : State),
    isExiting s = false →
    Fs.readFileSync lock (fs s) = None →
    handleExit exitType s = Exit 1 (set_processExiting true s).
Proof.
  intros exitType s Hx Hr.
  unfold Supervisor.handleExit, handleExit_with. rewrite Hx, Hr.
  unfold Supervisor.process_exit.
  destruct (processExiting s) eqn:Hp.
  - by rewrite set_processExiting_same.
  - unfold exitListener, handleExit_with.
    replace (isExiting (set_processExiting true s)) with (isExiting s) by done.
    replace (fs (set_processExiting true s)) with (fs s) by done.
    by rewrite Hx, Hr.
Qed.

Lemma prepare_allExited s :
  allExited (prepare scriptDir s)
  = negb (live s Execution) && negb (live s Consensus)
    && negb (live s Validator) && negb (live s MevBoost).
Proof.
  destruct s as [f ce cc cv cm xe xc xv xm ? ? tm ? ? ?].
  destruct ce, cc, cv, cm, xe, xc, xv, xm; reflexivity.
Qed.

Lemma deleteOptionsFile_gone (f : Fs.t) :
  Fs.isDirectory optionsPath f = false →
  Options.deleteOptionsFile scriptDir f !! optionsPath = None.
Proof.
  unfold Options.deleteOptionsFile, Fs.existsSync, Fs.unlinkSync, Fs.isDirectory.
  destruct (f !! optionsPath) as [[c|]|] eqn:Hf; try done.
  intros _. rewrite bool_decide_eq_true_2 by eauto. apply lookup_delete_eq.
Qed.

Lemma removeLockFile_keeps_None (f f' : Fs.t) p :
  removeLockFile installDir f = Some f' → f !! p = None → f' !! p = None.
Proof.
  unfold removeLockFile, Fs.unlinkSync. intros H Hp.
  destruct (Fs.existsSync _ _); [|by simplify_eq].
  destruct (f !! lock) as [[c|]|]; simplify_eq.
  rewrite lookup_delete. by case_decide.
Qed.

Lemma removeLockFile_gone (f : Fs.t) :
  Fs.isDirectory lock f = false →
  ∃ f', removeLockFile installDir f = Some f' ∧ f' !! lock = None.
Proof.
  unfold removeLockFile, Fs.existsSync, Fs.unlinkSync, Fs.isDirectory.
  destruct (f !! lock) as [[c|]|] eqn:Hf; try done; intros _.
  - rewrite bool_decide_eq_true_2 by eauto. eexists. split; [done|].
    apply lookup_delete_eq.
  - rewrite bool_decide_eq_false_2 by (by intros [? ?]). eauto.
Qed.

Lemma deleteOptionsFile_isDirectory (f : Fs.t) p :
  Fs.isDirectory p (Options.deleteOptionsFile scriptDir f) = Fs.isDirectory p f.
Proof.
  unfold Options.deleteOptionsFile, Fs.unlinkSync, Fs.isDirectory.
  destruct (Fs.existsSync _ _); [|done].
  destruct (f !! optionsPath) as [[c|]|] eqn:Hf; try done.
  destruct (decide (p = optionsPath)) as [->|Hne].
  - by rewrite lookup_delete_eq, Hf.
  - by rewrite lookup_delete_ne.
Qed.

(** X3. A shutdown request that finds no child to wait for (none was
    started, or all have left) is over at once: the owner removes
    options.json and the lock file and leaves with code 0, with no timer
    set and no signal sent. *)
Theorem handleExit_with_no_live_child_exits_at_once :
  ∀ (exitType lockFilePid : string) (s : State),
    isExiting s = false →
    Fs.readFileSync lock (fs s) = Some lockFilePid →
    Js.parseInt lockFilePid = Some pid →
    (∀ r, live s r = false) →
    ∃ s', handleExit exitType s = Exit 0 s'
          ∧ fs s' !! lock = None
          ∧ (Fs.isDirectory optionsPath (fs s) = false →
             fs s' !! optionsPath = None)
          ∧ timers s' = timers s ∧ trace s' = trace s.
Proof.
  intros exitType t s Hx Hr Hp Hlive.
  unfold Supervisor.handleExit, handleExit_with. rewrite Hx, Hr.
  rewrite bool_decide_eq_false_2 by (intros H; by apply H).
  pose proof (prepare_allExited s) as Hall. rewrite !Hlive in Hall.
  pose proof (prepare_frame scriptDir s) as (Hix & Hfs & Htr & Hpx).
  pose proof (prepare_timers scriptDir s) as Htm.
  assert (List.filter (λ t : Z * Role, live s t.2) killPlan = []) as Hnil.
  { unfold killPlan. simpl. by rewrite !Hlive. }
  rewrite Hnil, app_nil_r in Htm. clear Hnil.
  revert Hall Hix Hfs Htr Hpx Htm. generalize (prepare scriptDir s).
  intros ps Hall Hix Hfs Htr Hpx Htm.
  unfold checkExit. rewrite Hall.
  destruct (removeLockFile_gone (fs ps)) as (f' & Hrm & Hgone).
  { rewrite Hfs, deleteOptionsFile_isDirectory.
    unfold Fs.readFileSync, Fs.isDirectory in *.
    by destruct (fs s !! lock) as [[c|]|]. }
  rewrite Hrm. rewrite process_exit_while_exiting by done.
  eexists. split; [done|]. simpl. repeat split; try done.
  intros Hd. eapply removeLockFile_keeps_None; [done|].
  rewrite Hfs. by apply deleteOptionsFile_gone.
Qed.



(** X6. Whenever the owner's shutdown request passes the ownership
    check, options.json is gone afterwards, whether [handleExit] returns
    or ends the process. *)
Theorem handleExit_removes_the_saved_options :
  ∀ (exitType lockFilePid : string) (s : State),
    isExiting s = false →
    Fs.readFileSync lock (fs s) = Some lockFilePid →
    Js.parseInt lockFilePid = Some pid →
    Fs.isDirectory optionsPath (fs s) = false →
    Fs.existsSync optionsPath (fs (finalState (handleExit exitType s))) = false.
Proof.
  intros exitType t s Hx Hr Hp Hd.
  assert (∀ f : Fs.t, f !! optionsPath = None → Fs.existsSync optionsPath f = false)
    as Hnone.
  { intros f Hf. unfold Fs.existsSync. rewrite Hf.
    apply bool_decide_eq_false_2. by intros [? ?]. }
  apply Hnone.
  unfold Supervisor.handleExit, handleExit_with. rewrite Hx, Hr.
  rewrite bool_decide_eq_false_2 by (intros H; by apply H).
  pose proof (prepare_frame scriptDir s) as (Hix & Hfs & _ & _).
  pose proof (deleteOptionsFile_gone (fs s) Hd) as Hgone. rewrite <- Hfs in Hgone.
  revert Hix Hgone. generalize (prepare scriptDir s). intros ps Hix Hgone.
  unfold checkExit. destruct (allExited ps); [|done].
  destruct (removeLockFile installDir (fs ps)) as [f'|] eqn:Hrm; [|done].
  rewrite process_exit_while_exiting by done. simpl.
  by eapply removeLockFile_keeps_None.
Qed.

(** *** Once a shutdown is requested *)

Lemma set_exited_isExiting r b s : isExiting (set_exited r b s) = isExiting s.
Proof. by destruct r. Qed.

Lemma set_exited_trace r b s : trace (set_exited r b s) = trace s.
Proof. by destruct r. Qed.

Lemma startListener_isExiting r code s :
  isExiting (startListener executionClient consensusClient r code s) = isExiting s.
Proof.
  destruct r; simpl;
    unfold startClient_onExit, startValidatorClient_onExit, startMevBoost_onExit;
    destruct code as [c|], (isExiting s) eqn:Hx; simpl;
    repeat case_match; done.
Qed.

Lemma settle_checkExit_exiting s :
  isExiting s = true →
  let o := settle installDir scriptDir pid (checkExit installDir process_exit s) in
  isExiting (finalState o) = true ∧ trace (finalState o) = trace s.
Proof.
  intros Hx. unfold checkExit. destruct (allExited s); simpl; [|done].
  destruct (removeLockFile installDir (fs s)) as [f'|]; simpl.
  - by rewrite process_exit_while_exiting.
  - by rewrite handleExit_isExiting.
Qed.

Lemma shutdownListener_exiting r s :
  isExiting s = true →
  let o := settle installDir scriptDir pid
             (shutdownListener installDir scriptDir pid r s) in
  isExiting (finalState o) = true ∧ trace (finalState o) = trace s.
Proof.
  intros Hx. unfold shutdownListener. destruct (exited r s); simpl; [done|].
  pose proof (settle_checkExit_exiting (set_exited r true s)) as H.
  rewrite set_exited_isExiting, set_exited_trace in H. by apply H.
Qed.

Lemma alerts_app tr tr' : alerts (tr ++ tr') = alerts tr ++ alerts tr'.
Proof. unfold alerts. apply omap_app. Qed.

Lemma dispatch_exiting ev s :
  isExiting s = true →
  isExiting (finalState (dispatch ev s)) = true
  ∧ alerts (trace (finalState (dispatch ev s))) = alerts (trace s).
Proof.
  intros Hx. destruct ev as [sg| | |r code|r code| | |code]; simpl.
  - by rewrite handleExit_isExiting.
  - by rewrite handleExit_isExiting.
  - by rewrite handleExit_isExiting.
  - destruct (child r s); [|done].
    pose proof (startListener_isExiting r code s) as Hi.
    pose proof (startListener_trace executionClient consensusClient r code s) as Ht.
    rewrite Hx in Hi, Ht.
    assert (trace (startListener executionClient consensusClient r code s)
            = trace s) as Ht'.
    { rewrite Ht. destruct code; by rewrite app_nil_r. }
    clear Ht. revert Hi Ht'.
    generalize (startListener executionClient consensusClient r code s).
    intros s1 Hi Ht. destruct (bool_decide _); simpl.
    + destruct (shutdownListener_exiting r s1 Hi) as [H1 H2].
      by rewrite H1, H2, Ht.
    + by rewrite Hi, Ht.
  - destruct (child r s && bool_decide _); simpl; [|done].
    destruct (shutdownListener_exiting r s Hx) as [H1 H2]. by rewrite H1, H2.
  - destruct (fireOrder (timers s)) as [|t ts]; simpl; [done|].
    split; [done|]. rewrite alerts_app. simpl. by rewrite app_nil_r.
  - destruct (interval s); simpl; [|done].
    pose proof (settle_checkExit_exiting s Hx) as H. simpl in H.
    destruct (checkExit installDir process_exit s) as [s1|o|s1] eqn:Hc.
    + unfold checkExit in Hc. destruct (allExited s) eqn:Hall.
      * by destruct (removeLockFile installDir (fs s)).
      * injection Hc as <-. by rewrite Hall.
    + simpl in *. destruct H as [H1 H2]. by rewrite H1, H2.
    + simpl in *. destruct H as [H1 H2]. by rewrite H1, H2.
  - by rewrite process_exit_while_exiting.
Qed.

(** X5. A shutdown request cannot be undone and silences the crash
    alerts: once [isExiting] is set it stays set whatever events follow,
    and no alert is sent from then on. *)
Theorem shutdown_is_monotonic_and_sends_no_alert :
  ∀ (evs : list Event) (s : State),
    isExiting s = true →
    isExiting (finalState (run evs s)) = true
    ∧ alerts (trace (finalState (run evs s))) = alerts (trace s).
Proof.
  intros evs. induction evs as [|ev evs IH]; intros s Hx; simpl; [done|].
  destruct (dispatch_exiting ev s Hx) as [H1 H2].
  destruct (dispatch ev s) as [s1|c s1]; simpl in *; [|done].
  destruct (IH s1 H1) as [H3 H4]. by rewrite H3, H4.
Qed.

End SupervisorMore.

(** ** More on the instance lock *)

Section LockMore.
Variables (installDir scriptDir : string).
Variable kill0 : string → KillResult.

Local Abbreviation lock := (lockFilePath installDir).
Local Abbreviation acquire := (acquireInstanceLock installDir scriptDir).

Lemma acquire_Acquired_inv pid (f f' : Fs.t) :
  acquire pid kill0 f = Acquired f' →
  Fs.readFileSync lock f' = Some (pretty pid)
  ∧ Fs.isDirectory (Path.dirname lock) f' = true.
Proof.
  unfold acquireInstanceLock.
  destruct (isAlreadyRunning _ _ _) as [[] f1]; [done|].
  destruct (createLockFile _ _ _) as [f3|] eqn:Hc; [|done].
  intros [= <-]. unfold createLockFile in Hc. split.
  - by eapply writeFileSync_read.
  - unfold Fs.writeFileSync in Hc.
    destruct (Options.deleteOptionsFile scriptDir f1 !! lock) as [[c|]|] eqn:Hl;
      try done;
      (destruct (Fs.isDirectory (Path.dirname lock) _) eqn:Hd; simplify_eq;
       unfold Fs.isDirectory in *;
       destruct (decide (Path.dirname lock = lock)) as [Heq|Hne];
       [by rewrite Heq, Hl in Hd|by rewrite lookup_insert_ne]).
Qed.

(** X7. One after the other, two starts against one install directory
    give one owner: once an instance has taken the lock and is alive, the
    next start is told "already running" and leaves the lock as it is. *)
Theorem second_start_finds_the_live_owner :
  ∀ (pidA pidB : Z) (f f1 : Fs.t),
    acquireInstanceLock installDir scriptDir pidA kill0 f = Acquired f1 →
    kill0 (pretty pidA) = Signalled →
    acquireInstanceLock installDir scriptDir pidB kill0 f1 = AlreadyRunning f1.
Proof.
  intros pidA pidB f f1 Ha Hk.
  destruct (acquire_Acquired_inv _ _ _ Ha) as [Hr _].
  unfold acquireInstanceLock, isAlreadyRunning.
  assert (Fs.existsSync lock f1 = true) as ->.
  { unfold Fs.existsSync, Fs.readFileSync in *.
    apply bool_decide_eq_true. destruct (f1 !! lock); [eauto|done]. }
  by rewrite Hr, Hk.
Qed.

(** X9. A lock that its owner has removed ([removeLockFile], at the end
    of a shutdown) is free: the removal succeeds, and the next start takes
    the lock under its own pid without probing anyone. *)
Theorem released_lock_is_taken_by_the_next_start :
  ∀ (pidA pidB : Z) (f f1 : Fs.t),
    acquireInstanceLock installDir scriptDir pidA kill0 f = Acquired f1 →
    ∃ f2 f3,
      removeLockFile installDir f1 = Some f2
      ∧ Fs.existsSync lock f2 = false
      ∧ acquireInstanceLock installDir scriptDir pidB kill0 f2 = Acquired f3
      ∧ Fs.readFileSync lock f3 = Some (pretty pidB).
Proof.
  intros pidA pidB f f1 Ha.
  destruct (acquire_Acquired_inv _ _ _ Ha) as [Hr Hd].
  assert (∃ f2, removeLockFile installDir f1 = Some f2 ∧ f2 !! lock = None
                ∧ Fs.isDirectory (Path.dirname lock) f2 = true)
    as (f2 & Hrm & Hgone & Hd2).
  { unfold removeLockFile, Fs.existsSync, Fs.readFileSync in *.
    destruct (f1 !! lock) as [[c|]|] eqn:Hl; try done.
    rewrite bool_decide_eq_true_2 by eauto.
    exists (delete lock f1). split; [|split].
    - unfold Fs.unlinkSync. by rewrite Hl.
    - apply lookup_delete_eq.
    - eapply unlinkSync_keeps_dir; [|done]. unfold Fs.unlinkSync. by rewrite Hl. }
  assert (Fs.existsSync lock f2 = false) as Hex.
  { unfold Fs.existsSync. rewrite Hgone. apply bool_decide_eq_false_2.
    by intros [? ?]. }
  destruct (acquire_after_probe installDir scriptDir pidB f2 Hgone Hd2)
    as (f3 & Hc & Hread).
  exists f2, f3. split; [done|]. split; [done|]. split; [|done].
  unfold acquireInstanceLock, isAlreadyRunning. by rewrite Hex, Hc.
Qed.

(** X10. The lock file round trip: what [createLockFile] writes
    ([process.pid.toString()]) is what [handleExit] compares with
    [process.pid] after [parseInt]; the two agree for every pid. *)
Theorem createLockFile_pid_is_read_back :
  ∀ (pid : Z) (f f' : Fs.t),
    createLockFile installDir pid f = Some f' →
    Fs.readFileSync lock f' ≫= Js.parseInt = Some pid.
Proof.
  intros pid f f' Hc. unfold createLockFile in Hc.
  rewrite (writeFileSync_read _ _ _ _ Hc). simpl. apply parseInt_pretty.
Qed.

(** X8. The instance that holds the lock is recognised by its own
    [handleExit]: the request starts the shutdown ([isExiting] is set),
    and if it ends the process at once, it does so with code 0 and with
    the lock file removed. *)
Theorem owner_is_recognised_by_handleExit :
  ∀ (pid : Z) (exitType : string) (f : Fs.t) (s : State),
    acquireInstanceLock installDir scriptDir pid kill0 f = Acquired (fs s) →
    isExiting s = false →
    isExiting (finalState (handleExit installDir scriptDir pid exitType s)) = true
    ∧ ∀ code s',
        handleExit installDir scriptDir pid exitType s = Exit code s' →
        code = 0 ∧ fs s' !! lock = None.
Proof.
  intros pid exitType f s Ha Hx.
  destruct (acquire_Acquired_inv _ _ _ Ha) as [Hr _].
  unfold handleExit, handleExit_with. rewrite Hx, Hr, parseInt_pretty.
  rewrite bool_decide_eq_false_2 by (intros H; by apply H).
  pose proof (prepare_frame scriptDir s) as (Hix & _).
  revert Hix. generalize (prepare scriptDir s). intros ps Hix.
  unfold checkExit. destruct (allExited ps); [|by split].
  destruct (removeLockFile installDir (fs ps)) as [f'|] eqn:Hrm; [|by split].
  rewrite process_exit_while_exiting by done. simpl. split; [done|].
  intros code s' [= <- <-]. split; [done|]. simpl.
  unfold removeLockFile in Hrm. destruct (Fs.existsSync lock (fs ps)) eqn:He.
  - by eapply unlinkSync_gone.
  - simplify_eq. unfold Fs.existsSync in He.
    apply bool_decide_eq_false in He.
    destruct (fs ps !! lock) eqn:Hl; [|done]. destruct He. eauto.
Qed.

End LockMore.

(** ** Paths made of a directory and a plain name *)

Section PathFacts.

Lemma plain_pretty_N_go (x : N) (s : string) :
  PathNames.plain s = true → PathNames.plain (pretty_N_go x s) = true.
Proof.
  revert s. induction (N.lt_wf_0 x) as [x _ IH]. intros s Hs.
  destruct (decide (x = 0)%N) as [->|Hx]; [by rewrite pretty_N_go_0|].
  rewrite pretty_N_go_step by lia. apply IH.
  - apply N.div_lt; lia.
  - assert (x `mod` 10 < 10)%N as Hm by (apply N.mod_lt; lia).
    unfold PathNames.plain in *. simpl. rewrite Hs, andb_true_r.
    revert Hm. generalize (x `mod` 10)%N. intros d Hd.
    assert (d = 0 ∨ d = 1 ∨ d = 2 ∨ d = 3 ∨ d = 4 ∨ d = 5 ∨ d = 6 ∨ d = 7
            ∨ d = 8 ∨ d = 9)%N as H by lia.
    repeat (destruct H as [->|H]; [reflexivity|]). by rewrite H.
Qed.

Lemma plain_pretty (z : Z) : PathNames.plain (pretty z) = true.
Proof.
  destruct z as [|p|p]; [done| |].
  - change (pretty (Z.pos p)) with (pretty_N_go (N.pos p) "").
    by apply plain_pretty_N_go.
  - change (pretty (Z.neg p)) with (String "-" (pretty_N_go (N.pos p) "")).
    unfold PathNames.plain. simpl. by apply plain_pretty_N_go.
Qed.

Lemma string_app_assoc (a b c : string) : (a +:+ b) +:+ c = a +:+ (b +:+ c).
Proof.
  induction a as [|x a IH]; [done|].
  change (String x ((a +:+ b) +:+ c) = String x (a +:+ (b +:+ c))).
  by rewrite IH.
Qed.

Lemma string_app_nil_r (a : string) : a +:+ "" = a.
Proof.
  induction a as [|x a IH]; [done|].
  change (String x (a +:+ "") = String x a). by rewrite IH.
Qed.

Lemma string_rev_app (s t : string) : String.rev_app s t = String.rev s +:+ t.
Proof.
  revert t. induction s as [|a s IH]; intros t; [done|].
  change (String.rev_app s (String a t)
          = String.rev_app s (String a "") +:+ t).
  by rewrite (IH (String a t)), (IH (String a "")), string_app_assoc.
Qed.

Lemma string_rev_cons (a : ascii) (s : string) :
  String.rev (String a s) = String.rev s +:+ String a "".
Proof. exact (string_rev_app s (String a "")). Qed.

Lemma split_go_plain (s cur : string) :
  PathNames.plain s = true →
  Str.split_go Path.slash cur s = [String.rev cur +:+ s].
Proof.
  revert cur. induction s as [|a s IH]; intros cur Hs; simpl.
  - by rewrite string_app_nil_r.
  - unfold PathNames.plain in Hs. simpl in Hs.
    apply andb_true_iff in Hs as [Ha Hs].
    apply negb_true_iff in Ha. unfold Path.slash. rewrite Ha.
    rewrite IH by done.
    by rewrite string_rev_cons, string_app_assoc.
Qed.

Lemma last_char_cons a s :
  Str.last_char (String a s)
  = match Str.last_char s with Some c => Some c | None => Some a end.
Proof.
  unfold Str.last_char. rewrite string_rev_cons. by destruct (String.rev s).
Qed.

Lemma last_char_plain s :
  PathNames.plain s = true → Str.last_char s ≠ Some Path.slash.
Proof.
  induction s as [|a s IH]; [done|]. intros Hs.
  unfold PathNames.plain in Hs. simpl in Hs.
  apply andb_true_iff in Hs as [Ha Hs]. rewrite last_char_cons.
  specialize (IH Hs). destruct (Str.last_char s); [done|].
  intros [= ->]. done.
Qed.

Lemma last_char_app (pre s : string) :
  Str.last_char (pre +:+ s)
  = match Str.last_char s with Some c => Some c | None => Str.last_char pre end.
Proof.
  induction pre as [|a pre IH].
  { change ("" +:+ s) with s. by destruct (Str.last_char s). }
  change (Str.last_char (String a (pre +:+ s))
          = match Str.last_char s with
            | Some c => Some c
            | None => Str.last_char (String a pre)
            end).
  rewrite !last_char_cons, IH. by destruct (Str.last_char s).
Qed.

Lemma split_shm (t : string) :
  PathNames.plain t = true →
  Str.split Path.slash ("/dev/shm/bgclient-" +:+ t)
  = [""; "dev"; "shm"; "bgclient-" +:+ t].
Proof.
  intros Ht. unfold Str.split. cbv [String.append]. simpl.
  by rewrite split_go_plain.
Qed.

Lemma path_join_shm (t : string) :
  PathNames.plain t = true →
  Path.join ["/dev/shm"; "bgclient-" +:+ t] = "/dev/shm/bgclient-" +:+ t.
Proof.
  intros Ht. unfold Path.join.
  assert (filter (λ a : string, a ≠ "") ["/dev/shm"; "bgclient-" +:+ t]
          = ["/dev/shm"; "bgclient-" +:+ t]) as -> by done.
  change (Str.join "/" ["/dev/shm"; "bgclient-" +:+ t])
    with ("/dev/shm/bgclient-" +:+ t).
  unfold Path.normalize.
  change (String.eqb ("/dev/shm/bgclient-" +:+ t) "") with false. cbv iota.
  rewrite split_shm by done.
  assert (bool_decide (Str.last_char ("/dev/shm/bgclient-" +:+ t) = Some Path.slash)
          = false) as ->.
  { apply bool_decide_eq_false_2. rewrite last_char_app.
    pose proof (last_char_plain t Ht). by destruct (Str.last_char t). }
  reflexivity.
Qed.

Lemma ancestors_shm (t : string) :
  PathNames.plain t = true →
  Fs.ancestors ("/dev/shm/bgclient-" +:+ t)
  = ["/dev"; "/dev/shm"; "/dev/shm/bgclient-" +:+ t].
Proof.
  intros Ht. unfold Fs.ancestors.
  rewrite split_shm by done.
  reflexivity.
Qed.

Lemma mkdirSync_makes (l : list string) (p : string) (f f' : Fs.t) :
  Fs.ancestors p = l ++ [p] →
  Fs.mkdirSync p f = Some f' → Fs.isDirectory p f' = true.
Proof.
  unfold Fs.mkdirSync. intros ->. rewrite foldl_app. simpl.
  destruct (foldl _ _ l) as [f1|]; [|done]. unfold Fs.isDirectory.
  destruct (f1 !! p) as [[c|]|] eqn:Hp; intros [= <-].
  - by rewrite Hp.
  - by rewrite lookup_insert_eq.
Qed.

End PathFacts.

(** ** The file system *)

Section FsFacts.

Lemma rmSync_lookup_outside (f : Fs.t) dir p :
  Path.within dir p = false → Fs.rmSync dir f !! p = f !! p.
Proof.
  intros H. unfold Fs.rmSync. destruct (f !! p) as [x|] eqn:Hp.
  - by apply map_lookup_filter_Some_2.
  - apply map_lookup_filter_None. by left.
Qed.

Lemma rmSync_lookup (f : Fs.t) dir p :
  Fs.rmSync dir f !! p = if Path.within dir p then None else f !! p.
Proof.
  destruct (Path.within dir p) eqn:H.
  - by apply rmSync_lookup_within.
  - by apply rmSync_lookup_outside.
Qed.

Lemma grown_refl f : grown f f.
Proof. intros q. by left. Qed.

Lemma grown_trans f1 f2 f3 : grown f1 f2 → grown f2 f3 → grown f1 f3.
Proof.
  intros H12 H23 q. destruct (H12 q) as [E1|[E1 E1']], (H23 q) as [E2|[E2 E2']].
  - left. congruence.
  - right. split; congruence.
  - right. split; congruence.
  - congruence.
Qed.

Lemma mkdirSync_grown (p : string) (f f' : Fs.t) :
  Fs.mkdirSync p f = Some f' → grown f f'.
Proof.
  unfold Fs.mkdirSync. generalize (Fs.ancestors p). intros l.
  revert f. induction l as [|d l IH]; intros f; simpl.
  - intros [= <-]. apply grown_refl.
  - destruct (f !! d) as [[c|]|] eqn:Hd.
    + intros H. exfalso. clear -H. induction l as [|d' l IH]; simpl in H; [done|].
      by apply IH.
    + apply IH.
    + intros H. eapply grown_trans; [|by apply IH].
      intros q. destruct (decide (q = d)) as [->|Hne].
      * right. by rewrite lookup_insert_eq.
      * left. by rewrite lookup_insert_ne.
Qed.

Lemma mkdirSync_if_grown (b : bool) (p : string) (f f' : Fs.t) :
  (if b then Fs.mkdirSync p f else Some f) = Some f' → grown f f'.
Proof.
  destruct b.
  - apply mkdirSync_grown.
  - intros [= <-]. apply grown_refl.
Qed.

Lemma writeFileSync_lookup_ne (f f' : Fs.t) p q data :
  Fs.writeFileSync p data f = Some f' → q ≠ p → f' !! q = f !! q.
Proof.
  unfold Fs.writeFileSync. intros H Hne.
  destruct (f !! p) as [[c|]|]; try done;
    destruct (Fs.isDirectory _ f); simplify_eq; by rewrite lookup_insert_ne.
Qed.

Lemma existsSync_false (f : Fs.t) p : f !! p = None → Fs.existsSync p f = false.
Proof.
  intros H. unfold Fs.existsSync. rewrite H. apply bool_decide_eq_false_2.
  by intros [? ?].
Qed.

Lemma existsSync_true (f : Fs.t) p x : f !! p = Some x → Fs.existsSync p f = true.
Proof.
  intros H. unfold Fs.existsSync. rewrite H. apply bool_decide_eq_true_2. eauto.
Qed.

Lemma path_normalize_nonempty p : Path.normalize p ≠ "".
Proof.
  unfold Path.normalize. destruct (String.eqb p ""); [done|].
  destruct (String.eqb (Str.join _ _) "") eqn:Hb.
  - by repeat case_match.
  - apply String.eqb_neq in Hb. revert Hb.
    generalize (Str.join "/" (Path.normalizeSegs
      (negb (bool_decide (Str.first_char p = Some Path.slash))) []
      (Str.split Path.slash p))).
    intros body Hb. repeat case_match; try done.
    destruct body; [done|]. done.
Qed.

Lemma path_join_nonempty args : Path.join args ≠ "".
Proof.
  unfold Path.join. destruct (filter _ args); [done|].
  apply path_normalize_nonempty.
Qed.

Lemma isSet_path_join args : SecureStore.isSet (Some (Path.join args)) = true.
Proof.
  simpl. apply negb_true_iff, String.eqb_neq, path_join_nonempty.
Qed.

End FsFacts.

(** ** secureStore.js *)

Section SecureStoreFacts.
Import SecureStore SecureSetup.

(** X13. [cleanupSecureDir] touches nothing outside the secure
    directory and the RAM-disk mount point. *)
Theorem cleanupSecureDir_leaves_the_rest :
  ∀ (st : State) (p : string),
    Path.within (default "" (secureDirPath st)) p = false →
    Path.within macMountPoint p = false →
    fs (cleanupSecureDir st) !! p = fs st !! p.
Proof.
  intros st p Hdir Hmnt. unfold cleanupSecureDir.
  destruct (isSet (secureDirPath st)); simpl; [|done].
  assert (fs (if Fs.existsSync (default "" (secureDirPath st)) (fs st)
              then mkState (secureDirPath st) (macRamDiskDevice st)
                     (Fs.rmSync (default "" (secureDirPath st)) (fs st))
                     (attached st)
              else st) !! p = fs st !! p) as H1.
  { destruct (Fs.existsSync _ _); [|done]. simpl. by apply rmSync_lookup_outside. }
  revert H1. generalize (if Fs.existsSync (default "" (secureDirPath st)) (fs st)
              then mkState (secureDirPath st) (macRamDiskDevice st)
                     (Fs.rmSync (default "" (secureDirPath st)) (fs st))
                     (attached st)
              else st). intros st1 H1.
  destruct (isSet (macRamDiskDevice st1)); simpl; [|done].
  unfold hdiutilDetach. destruct (bool_decide _); simpl; [|done].
  by rewrite rmSync_lookup_outside.
Qed.

(** X11. After [cleanupSecureDir] nothing is left in the secure
    directory or below it, and the module has forgotten the directory
    and the RAM disk: [getSecurePasswordPath] throws again, and a second
    [cleanupSecureDir] does nothing. *)
Theorem cleanupSecureDir_clears_and_forgets :
  ∀ (st : State) (dir : string),
    secureDirPath st = Some dir →
    isSet (Some dir) = true →
    Fs.existsSync dir (fs st) = true →
    let st' := cleanupSecureDir st in
    secureDirPath st' = None
    ∧ (∀ p, Path.within dir p = true → fs st' !! p = None)
    ∧ isSet (macRamDiskDevice st') = false
    ∧ getSecurePasswordPath st' = None
    ∧ cleanupSecureDir st' = st'.
Proof.
  intros st dir Hd Hset Hex st'.
  assert (secureDirPath st' = None) as Hnone.
  { by destruct (cleanupSecureDir_removes st dir dir Hd Hset Hex
                   ltac:(unfold Path.within; by rewrite String.eqb_refl)). }
  split; [done|split; [|split; [|split]]].
  - intros p Hp. by destruct (cleanupSecureDir_removes st dir p Hd Hset Hex Hp).
  - subst st'. unfold cleanupSecureDir. rewrite Hd, Hset. simpl.
    destruct (Fs.existsSync dir (fs st)); simpl.
    + destruct (isSet (macRamDiskDevice st)) eqn:Hm; simpl; [done|by rewrite Hm].
    + destruct (isSet (macRamDiskDevice st)) eqn:Hm; simpl; [done|by rewrite Hm].
  - unfold getSecurePasswordPath. by rewrite Hnone.
  - unfold cleanupSecureDir at 1. by rewrite Hnone.
Qed.

(** X12. [cleanupSecureDir] ejects the RAM disk it knows of: the device
    is no longer attached, and nothing is left at the mount point. *)
Theorem cleanupSecureDir_ejects_the_ram_disk :
  ∀ (st : State) (device : string),
    isSet (secureDirPath st) = true →
    macRamDiskDevice st = Some device →
    isSet (Some device) = true →
    device ∈ attached st →
    let st' := cleanupSecureDir st in
    (device ∉ attached st')
    ∧ ∀ p, Path.within macMountPoint p = true → fs st' !! p = None.
Proof.
  intros st device Hset Hdev Hdset Hatt st'. subst st'.
  unfold cleanupSecureDir. rewrite Hset. simpl.
  assert (∀ st1 : State,
            macRamDiskDevice st1 = Some device → attached st1 = attached st →
            let st2 :=
              if isSet (macRamDiskDevice st1) then
                let st' :=
                  match hdiutilDetach (default "" (macRamDiskDevice st1)) st1 with
                  | Some st' => st'
                  | None => st1
                  end in
                mkState (secureDirPath st') None (fs st') (attached st')
              else st1 in
            ((device ∉ attached st2)
             ∧ ∀ p, Path.within macMountPoint p = true → fs st2 !! p = None)) as H.
  { intros st1 Hd1 Ha1. rewrite Hd1, Hdset. simpl. unfold hdiutilDetach.
    rewrite Ha1, bool_decide_eq_true_2 by done. simpl. split.
    - intros [Hne _]%list_elem_of_filter. by apply Hne.
    - intros p Hp. by apply rmSync_lookup_within. }
  destruct (Fs.existsSync _ _).
  - apply (H (mkState (secureDirPath st) (macRamDiskDevice st)
                (Fs.rmSync (default "" (secureDirPath st)) (fs st)) (attached st)));
      done.
  - by apply H.
Qed.

Section Create.
Variables (platform tmpdir : string) (pid : Z).
Variable processKill0 : Z → bool.
Variable hdiutilAttach : list string → option string.
Variable diskutilErase : string → Fs.t → option Fs.t.

Local Abbreviation cleanupStaleDirs := (cleanupStaleDirs processKill0).
Local Abbreviation sweepEntry := (sweepEntry processKill0).
Local Abbreviation createSecureDir :=
  (createSecureDir platform tmpdir pid processKill0 hdiutilAttach diskutilErase).

Local Abbreviation stale := (stale processKill0).

Lemma sweepEntry_lookup parentDir f entry p :
  sweepEntry parentDir f entry !! p
  = if stale entry && Path.within (Path.join [parentDir; entry]) p
    then None else f !! p.
Proof.
  unfold SecureSetup.sweepEntry, SecureSetup.stale.
  destruct (Str.startsWith _ _); simpl; [|done].
  destruct (parseInt10 _) as [pid'|]; simpl; [|done].
  destruct (processKill0 pid'); simpl; [done|]. apply rmSync_lookup.
Qed.

Lemma foldl_sweepEntry_lookup parentDir entries f p :
  foldl (sweepEntry parentDir) f entries !! p
  = if existsb (λ entry, stale entry
                         && Path.within (Path.join [parentDir; entry]) p)
         entries
    then None else f !! p.
Proof.
  revert f. induction entries as [|e entries IH]; intros f; simpl; [done|].
  rewrite IH, sweepEntry_lookup.
  destruct (stale e && _); simpl; [|done]. by destruct (existsb _ _).
Qed.

(** X14. [cleanupStaleDirs] removes exactly the trees of the stale
    entries of the parent directory: a path is gone when it lies in the
    directory of an entry "bgclient-<pid>" whose process is not there,
    and is as before otherwise. In particular nothing is created or
    changed, and the directory of a live process is left alone. *)
Theorem cleanupStaleDirs_removes_exactly_the_stale_trees :
  ∀ (parentDir : string) (f : Fs.t) (p : string),
    cleanupStaleDirs parentDir f !! p
    = if existsb (λ entry, stale entry
                           && Path.within (Path.join [parentDir; entry]) p)
           (default [] (Fs.readdirSync parentDir f))
      then None else f !! p.
Proof.
  intros parentDir f p. unfold SecureSetup.cleanupStaleDirs.
  destruct (Fs.existsSync parentDir f) eqn:Hex; simpl.
  - destruct (Fs.readdirSync parentDir f) as [entries|]; simpl; [|done].
    apply foldl_sweepEntry_lookup.
  - unfold Fs.readdirSync, Fs.isDirectory, Fs.existsSync in *.
    apply bool_decide_eq_false in Hex.
    destruct (f !! parentDir) as [x|]; [|done]. destruct Hex. eauto.
Qed.

(** X15. When [createSecureDir] returns, the module remembers the
    directory it returned, and [getSecurePasswordPath] no longer throws:
    it answers password.txt in that directory. *)
Theorem createSecureDir_sets_the_password_path :
  ∀ (st st' : State) (dir : string),
    createSecureDir st = Ok dir st' →
    secureDirPath st' = Some dir
    ∧ getSecurePasswordPath st' = Some (Path.join [dir; "password.txt"]).
Proof.
  intros st st' dir H.
  assert (secureDirPath st' = Some dir ∧ isSet (Some dir) = true) as [H1 H2].
  { unfold SecureSetup.createSecureDir in H.
    destruct (isSet (secureDirPath st) && _) eqn:Hc.
    { apply andb_true_iff in Hc as [Hs _]. simplify_eq.
      destruct (secureDirPath st') as [d|]; [|done]. by split. }
    clear Hc.
    destruct (if String.eqb platform "linux" then _ else _) as [[] st1|st1] eqn:Hf;
      [|done].
    clear Hf. destruct (isSet (secureDirPath st1)) eqn:Hs1; simpl in H.
    - simplify_eq. destruct (secureDirPath st') as [d|]; [|done]. by split.
    - unfold createFallbackSecureDir in H.
      destruct (Fs.mkdirSync _ _); simplify_eq. split; [done|].
      apply isSet_path_join. }
  split; [done|]. unfold getSecurePasswordPath. by rewrite H1, H2.
Qed.

(** X16. On macOS a RAM disk that was attached but could not be
    formatted is never detached: [createMacSecureDir] forgets the device
    in its catch, so the device is still attached after
    [createSecureDir] (whether the fallback succeeds or throws) and after
    a later [cleanupSecureDir]. *)
Theorem createSecureDir_leaks_the_unformatted_ram_disk :
  ∀ (st : State) (output : string),
    platform = "darwin" →
    isSet (secureDirPath st) = false →
    hdiutilAttach (attached st) = Some output →
    diskutilErase (trim output) (fs st) = None →
    let st' := stateOf (createSecureDir st) in
    macRamDiskDevice st' = None
    ∧ trim output ∈ attached st'
    ∧ trim output ∈ attached (cleanupSecureDir st').
Proof.
  intros st output -> Hunset Hatt Herase st'.
  assert (macRamDiskDevice st' = None ∧ trim output ∈ attached st') as [Hm Ha].
  { subst st'. unfold SecureSetup.createSecureDir. rewrite Hunset. simpl.
    unfold createMacSecureDir. rewrite Hatt. simpl. rewrite Herase. simpl.
    unfold createFallbackSecureDir. simpl.
    destruct (Fs.mkdirSync _ _); simpl; (split; [done|]);
      apply elem_of_app; right; apply list_elem_of_singleton; done. }
  split; [done|]. split; [done|].
  unfold cleanupSecureDir. destruct (isSet (secureDirPath st')); simpl; [|done].
  destruct (Fs.existsSync _ _); simpl; by rewrite Hm.
Qed.

(** X28. On Linux with /dev/shm in place, the first [createSecureDir]
    answers /dev/shm/bgclient-<pid>, that directory exists afterwards,
    and a second call answers the same and changes nothing. *)
Theorem createSecureDir_on_linux_makes_its_directory :
  ∀ (st st' : State) (dir : string),
    platform = "linux" →
    isSet (secureDirPath st) = false →
    Fs.existsSync "/dev/shm" (fs st) = true →
    createSecureDir st = Ok dir st' →
    dir = "/dev/shm/bgclient-" +:+ pretty pid
    ∧ Fs.isDirectory dir (fs st') = true
    ∧ createSecureDir st' = Ok dir st'.
Proof.
  intros st st' dir -> Hunset Hshm.
  unfold SecureSetup.createSecureDir at 1. rewrite Hunset. simpl.
  unfold createLinuxSecureDir. rewrite Hshm. unfold dirName.
  rewrite path_join_shm by apply plain_pretty.
  destruct (Fs.mkdirSync _ _) as [f2|] eqn:Hmk; [|done]. simpl.
  intros [= <- <-].
  assert (Fs.isDirectory ("/dev/shm/bgclient-" +:+ pretty pid) f2 = true) as Hd.
  { eapply (mkdirSync_makes ["/dev"; "/dev/shm"]); [|exact Hmk].
    apply ancestors_shm, plain_pretty. }
  split; [done|]. split; [done|].
  unfold SecureSetup.createSecureDir. simpl.
  unfold Fs.isDirectory in Hd. unfold Fs.existsSync.
  destruct (f2 !! _) as [x|] eqn:Hl; [|done].
  by rewrite bool_decide_eq_true_2 by eauto.
Qed.

End Create.

End SecureStoreFacts.

(** ** lighthouse_validator.js *)

Section LighthouseFacts.
Import LighthouseValidator.
Variable JSON_parse : string → option Js.Json.
Variables (installDir : string) (passwordDir : option string).

Local Abbreviation perKeystore :=
  (perKeystore JSON_parse installDir passwordDir).
Local Abbreviation populateSecrets :=
  (populateSecrets JSON_parse installDir passwordDir).

(** One round of the loop writes at most one file, and what it writes is
    the password. *)
Lemma perKeystore_step password r ksFile :
  perKeystore password r ksFile = r
  ∨ ∃ secretFile f',
      Fs.writeFileSync secretFile password (fs r) = Some f'
      ∧ perKeystore password r ksFile = mkResult f' (written r ++ [secretFile]).
Proof.
  unfold LighthouseValidator.perKeystore.
  destruct (Fs.readFileSync _ _); [|by left].
  destruct (JSON_parse _); [|by left].
  destruct (pubkeyOf _) as [pubkey|]; [|by left].
  destruct (Js.truthy pubkey); [|by left].
  destruct (Fs.writeFileSync _ _ _) eqn:Hw; [|by left].
  right. eauto.
Qed.

Lemma writeFileSync_read_other (f f' : Fs.t) p q data :
  Fs.writeFileSync p data f = Some f' →
  Fs.readFileSync q f = Some data → Fs.readFileSync q f' = Some data.
Proof.
  intros Hw Hq. destruct (decide (q = p)) as [->|Hne].
  - by eapply writeFileSync_read.
  - unfold Fs.readFileSync in *. by rewrite (writeFileSync_lookup_ne _ _ _ _ _ Hw Hne).
Qed.

(** The loop invariant: every file written so far, and any file that
    held the password before, holds the password. *)
Lemma foldl_perKeystore_holds password (keep : string) files r :
  Forall (λ p, Fs.readFileSync p (fs r) = Some password) (written r) →
  Fs.readFileSync keep (fs r) = Some password →
  let r' := foldl (perKeystore password) r files in
  Forall (λ p, Fs.readFileSync p (fs r') = Some password) (written r')
  ∧ Fs.readFileSync keep (fs r') = Some password.
Proof.
  revert r. induction files as [|ksFile files IH]; intros r Hw Hk; simpl; [done|].
  destruct (perKeystore_step password r ksFile) as [->|(p & f' & Hwr & ->)].
  - by apply IH.
  - apply IH; simpl.
    + apply Forall_app. split.
      * eapply Forall_impl; [exact Hw|]. intros q Hq. simpl in Hq.
        by eapply writeFileSync_read_other.
      * apply Forall_cons_2; [|apply Forall_nil_2]. by eapply writeFileSync_read.
    + by eapply writeFileSync_read_other.
Qed.


Lemma grown_readFileSync (f f' : Fs.t) p c :
  grown f f' → Fs.readFileSync p f' = Some c → Fs.readFileSync p f = Some c.
Proof.
  unfold Fs.readFileSync. intros Hg H. destruct (Hg p) as [E|[_ E]].
  - by rewrite <- E.
  - by rewrite E in H.
Qed.

(** X17. Whatever the keystores contain, every file the start-up loop
    of the Lighthouse validator script has written holds the keystore
    password, and the password file still holds it. *)
Theorem populateSecrets_writes_only_the_password :
  ∀ (fs0 : Fs.t) (r : Result),
    populateSecrets fs0 = Some r →
    Forall (λ p, Fs.readFileSync p (fs r)
                 = Fs.readFileSync (passwordFile installDir passwordDir) fs0
                 ∧ is_Some (Fs.readFileSync p (fs r)))
      (written r)
    ∧ Fs.readFileSync (passwordFile installDir passwordDir) (fs r)
      = Fs.readFileSync (passwordFile installDir passwordDir) fs0.
Proof.
  intros fs0 r. unfold LighthouseValidator.populateSecrets.
  destruct (Fs.existsSync _ fs0 && Fs.existsSync _ fs0);
    [|intros [= <-]; split; [apply Forall_nil_2|done]].
  destruct (if negb _ then _ else _) as [fs1|] eqn:Hmk; [|done].
  apply mkdirSync_if_grown in Hmk as Hg.
  destruct (Fs.readFileSync _ fs1) as [password|] eqn:Hpw; [|done].
  destruct (Fs.readdirSync _ fs1) as [entries|]; [|done].
  intros [= <-].
  rewrite (grown_readFileSync _ _ _ _ Hg Hpw).
  destruct (foldl_perKeystore_holds password (passwordFile installDir passwordDir)
              (List.filter KeyManager.isKeystoreFile entries) (mkResult fs1 []))
    as [H1 H2]; [apply Forall_nil_2|done|].
  split; [|done]. eapply Forall_impl; [exact H1|].
  intros p Hp. simpl in Hp. rewrite Hp. eauto.
Qed.


End LighthouseFacts.

(** ** keyManager.js: the prompt, the import, the deposit tool *)

Section KeySetupFacts.
Import KeyManager KeySetup.

Lemma getPasswordFilePath_store installDir w w' :
  SecureStore.secureDirPath (store w') = SecureStore.secureDirPath (store w) →
  ∀ p, getPasswordFilePath installDir w = Returned p w →
       getPasswordFilePath installDir w' = Returned p w'.
Proof.
  unfold getPasswordFilePath, SecureStore.getSecureDirPath,
    SecureStore.getSecurePasswordPath.
  intros -> p. destruct (SecureStore.isSet _); simpl; by intros [= <-].
Qed.

(** X19. Once [promptAndSavePassword] has returned, [hasPasswordFile]
    answers yes; and the prompt has changed nothing but the password
    file, apart from making the directories that lead to it. *)
Theorem prompt_stores_the_password_file_and_nothing_else :
  ∀ (installDir : string) (opts : option bool) (w w' : World) (p : string),
    promptAndSavePassword installDir opts w = Returned p w' →
    hasPasswordFile installDir w' = Returned true w'
    ∧ ∀ q, q ≠ p →
        fsOf w' !! q = fsOf w !! q
        ∨ (fsOf w !! q = None ∧ fsOf w' !! q = Some Fs.Dir).
Proof.
  intros installDir opts w w' p. unfold promptAndSavePassword.
  destruct (getPasswordFilePath_returns installDir w) as (p0 & Hp0).
  rewrite Hp0. simpl bind.
  destruct (String.length (hd "" (stdin w)) <? minPasswordLength)%nat; [done|].
  assert (∀ w1 : World,
            SecureStore.secureDirPath (store w1) = SecureStore.secureDirPath (store w) →
            fsOf w1 = fsOf w →
            match (if negb (Fs.existsSync (Path.dirname p0) (fsOf w1))
                   then Fs.mkdirSync (Path.dirname p0) (fsOf w1)
                   else Some (fsOf w1)) with
            | Some fs1 =>
                match Fs.writeFileSync p0 (hd "" (stdin w)) fs1 with
                | Some fs2 => Returned p0 (withFs w1 fs2)
                | None => Threw (withFs w1 fs1)
                end
            | None => Threw w1
            end = Returned p w' →
            hasPasswordFile installDir w' = Returned true w'
            ∧ ∀ q, q ≠ p →
                fsOf w' !! q = fsOf w !! q
                ∨ (fsOf w !! q = None ∧ fsOf w' !! q = Some Fs.Dir)) as Hcont.
  { intros w1 Hs Hf H.
    destruct (if negb _ then _ else _) as [fs1|] eqn:Hmk; [|done].
    apply mkdirSync_if_grown in Hmk as Hg. rewrite Hf in Hg.
    destruct (Fs.writeFileSync p0 _ fs1) as [fs2|] eqn:Hw; [|done].
    injection H as <- <-. split.
    - unfold hasPasswordFile.
      rewrite (getPasswordFilePath_store installDir w (withFs w1 fs2)) with (p := p0);
        [|done|done].
      simpl. f_equal. apply writeFileSync_read in Hw.
      unfold Fs.readFileSync in Hw. unfold fsOf. simpl.
      destruct (fs2 !! p0) eqn:Hl; [|done]. by eapply existsSync_true.
    - intros q Hq. change (fsOf (withFs w1 fs2)) with fs2.
      rewrite (writeFileSync_lookup_ne _ _ _ _ _ Hw Hq). apply Hg. }
  destruct (default false opts); simpl.
  - destruct (String.eqb _ _); simpl; [|done]. by apply Hcont.
  - by apply Hcont.
Qed.





Section DepositCliFacts.
Variable arch : Arch.
Variable curl : string → option string.
Variable sha256hex : string → string.
Variable tar : string → string → Fs.t → option Fs.t.

Local Abbreviation getDepositCliConfig := (getDepositCliConfig arch).
Local Abbreviation installDepositCli :=
  (installDepositCli arch curl sha256hex tar).

(** X21. The two tables of the deposit tool agree: every archive that
    [getDepositCliConfig] can name has its SHA-256 in
    [DEPOSIT_CLI_CHECKSUMS], so the branch "No known checksum" of
    [installDepositCli] is never taken. *)
Theorem every_deposit_archive_has_a_checksum :
  ∀ (platform : string) (cfg : DepositCliConfig),
    getDepositCliConfig platform = Some cfg →
    ∃ h, Js.getProperty DEPOSIT_CLI_CHECKSUMS (fileName cfg +:+ ".tar.gz")
         = Js.Data (Js.JStr h)
         ∧ Js.truthy (Js.Data (Js.JStr h)) = true.
Proof.
  intros platform cfg. unfold KeySetup.getDepositCliConfig. simpl.
  destruct (String.eqb platform "darwin"); simpl.
  - destruct arch; simpl; intros [= <-]; eexists; split; reflexivity.
  - destruct (String.eqb platform "linux"); simpl; [|done].
    destruct arch; simpl; intros [= <-]; eexists; split; reflexivity.
Qed.


(** X22. [installDepositCli] hands out the deposit tool only when it was
    installed before, or when the SHA-256 of what it has just downloaded
    is the one pinned for that archive. *)
Theorem installDepositCli_returns_only_a_verified_tool :
  ∀ (installDir platform : string) (w w' : World) (p : string),
    installDepositCli installDir platform w = Returned p w' →
    (Fs.existsSync p (fsOf w) = true ∧ w' = w)
    ∨ ∃ cfg bytes,
        getDepositCliConfig platform = Some cfg
        ∧ curl (downloadUrl cfg) = Some bytes
        ∧ Js.getProperty DEPOSIT_CLI_CHECKSUMS (fileName cfg +:+ ".tar.gz")
          = Js.Data (Js.JStr (sha256hex bytes)).
Proof.
  intros installDir platform w w' p. unfold KeySetup.installDepositCli.
  destruct (Fs.existsSync _ (fsOf w)) eqn:Hex.
  { intros [= <- <-]. by left. }
  destruct (ensureDir _ _) as [[] w1|c w1|w1]; simpl; [|done|done].
  destruct (getDepositCliConfig platform) as [cfg|] eqn:Hcfg; [|done].
  destruct (curl (downloadUrl cfg)) as [bytes|] eqn:Hcurl; [|done].
  destruct (Fs.writeFileSync _ bytes (fsOf w1)) as [downloaded|] eqn:Hw; [|done].
  destruct (negb (Js.truthy _)); [unfold abort; by destruct (Fs.unlinkSync _ _)|].
  unfold verifySha256. change (fsOf (withFs w1 downloaded)) with downloaded.
  rewrite (writeFileSync_read _ _ _ _ Hw).
  destruct (Js.getProperty DEPOSIT_CLI_CHECKSUMS _) as [|b|[| | |h| |]] eqn:Hsum;
    try (unfold abort; by destruct (Fs.unlinkSync _ _)).
  destruct (String.eqb (sha256hex bytes) h) eqn:Heq;
    [|unfold abort; by destruct (Fs.unlinkSync _ _)].
  apply String.eqb_eq in Heq. subst h. intros _. right. eauto.
Qed.


End DepositCliFacts.

End KeySetupFacts.

(** ** install.js *)

Section InstallFacts.
Import Install.

Lemma compareVersions_by_parts (v1 v2 : string) (t1 t2 : Z * Z * Z) :
  version v1 = Some t1 →
  version v2 = Some t2 →
  compareVersions v1 v2
  = Some (if older t1 t2 then -1 else if older t2 t1 then 1 else 0).
Proof.
  revert t1 t2.
  intros [[a1 b1] c1] [[a2 b2] c2]. unfold version, compareVersions.
  destruct (Str.split "." v1) as [|sa1 [|sb1 [|sc1 [|]]]]; try done.
  destruct (Str.split "." v2) as [|sa2 [|sb2 [|sc2 [|]]]];
    try (by repeat case_match).
  destruct (_ || _); [done|]. destruct (_ || _); [by repeat case_match|].
  destruct (Number sa1) as [x1|] eqn:E1; [|done].
  destruct (Number sb1) as [y1|] eqn:E2; [|done].
  destruct (Number sc1) as [z1|] eqn:E3; [|done].
  destruct (Number sa2) as [x2|] eqn:E4; [|done].
  destruct (Number sb2) as [y2|] eqn:E5; [|done].
  destruct (Number sc2) as [z2|] eqn:E6; [|done].
  intros [= -> -> ->] [= -> -> ->].
  unfold compareFrom, part. simpl. rewrite E1, E2, E3, E4, E5, E6. simpl.
  unfold older.
  destruct (Z.ltb_spec a2 a1), (Z.ltb_spec a1 a2), (Z.eqb_spec a1 a2),
    (Z.eqb_spec a2 a1); try lia; simpl; try done.
  destruct (Z.ltb_spec b2 b1), (Z.ltb_spec b1 b2), (Z.eqb_spec b1 b2),
    (Z.eqb_spec b2 b1); try lia; simpl; try done.
  destruct (Z.ltb_spec c2 c1), (Z.ltb_spec c1 c2); try lia; simpl; done.
Qed.

Lemma older_asym (t1 t2 : Z * Z * Z) : older t1 t2 = true → older t2 t1 = false.
Proof.
  destruct t1 as [[a1 b1] c1], t2 as [[a2 b2] c2]. unfold older.
  intros H. apply not_true_iff_false. intros H'. revert H H'.
  rewrite !orb_true_iff, !andb_true_iff, !orb_true_iff, !andb_true_iff,
    !Z.ltb_lt, !Z.eqb_eq.
  lia.
Qed.

(** X24. On versions of the form the version patterns capture,
    [compareVersions] is the comparison by major, minor and patch
    number, read as numbers (1.10.0 is newer than 1.9.3), and is
    antisymmetric. *)
Theorem compareVersions_orders_by_major_minor_patch :
  ∀ (v1 v2 : string) (t1 t2 : Z * Z * Z),
    version v1 = Some t1 →
    version v2 = Some t2 →
    compareVersions v1 v2
    = Some (if older t1 t2 then -1 else if older t2 t1 then 1 else 0)
    ∧ compareVersions v2 v1 = Z.opp <$> compareVersions v1 v2.
Proof.
  intros v1 v2 t1 t2 H1 H2.
  rewrite (compareVersions_by_parts v1 v2 t1 t2 H1 H2),
    (compareVersions_by_parts v2 v1 t2 t1 H2 H1).
  split; [done|]. simpl.
  destruct (older t1 t2) eqn:E12.
  - by rewrite (older_asym _ _ E12).
  - by destruct (older t2 t1).
Qed.

(** X25. [compareClientVersions] reports an installed client as out of
    date exactly when its version is older than the pinned one; a
    version newer than the pinned one counts as the latest. For a
    client without a pinned version (prysm, mev-boost) the call throws. *)
Theorem compareClientVersions_flags_only_older_versions :
  ∀ (client installedVersion : string) (t : Z * Z * Z),
    version installedVersion = Some t →
    match compareClientVersions client installedVersion with
    | Pair isLatest latest =>
        (∃ tl, version latest = Some tl ∧ isLatest = negb (older t tl))
        ∧ (client = "reth" ∧ latest = latestRethVer
           ∨ client = "geth" ∧ latest = latestGethVer
           ∨ client = "lighthouse" ∧ latest = latestLighthouseVer)
    | ThrewTypeError =>
        client ≠ "reth" ∧ client ≠ "geth" ∧ client ≠ "lighthouse"
    | Unmodelled => False
    end.
Proof.
  intros client v t Hv. unfold compareClientVersions.
  assert (∀ latest tl, version latest = Some tl →
            match compareVersions v latest with
            | Some c => ∃ tl, version latest = Some tl
                              ∧ negb (c <? 0) = negb (older t tl)
            | None => False
            end) as H.
  { intros latest tl Hl.
    rewrite (compareVersions_by_parts v latest t tl Hv Hl).
    exists tl. split; [done|]. destruct (older t tl); [done|].
    by destruct (older tl t). }
  destruct (String.eqb_spec client "reth") as [->|Hr].
  { specialize (H latestRethVer (1, 9, 3) eq_refl).
    destruct (compareVersions v latestRethVer); [|done]. split; [done|]. eauto. }
  destruct (String.eqb_spec client "geth") as [->|Hg].
  { specialize (H latestGethVer (1, 16, 7) eq_refl).
    destruct (compareVersions v latestGethVer); [|done]. split; [done|]. eauto 6. }
  destruct (String.eqb_spec client "lighthouse") as [->|Hl].
  { specialize (H latestLighthouseVer (8, 0, 1) eq_refl).
    destruct (compareVersions v latestLighthouseVer); [|done].
    split; [done|]. eauto 6. }
  done.
Qed.

End InstallFacts.

(** ** The saved options *)

Section OptionsMore.
Variable JSON_stringify : list (string * Js.Val) → string.
Variable JSON_parse : string → option Js.Json.
Variable scriptDir : string.

Local Abbreviation optionsPath := (Options.optionsFilePath scriptDir).
Local Abbreviation save := (Options.saveOptionsToFile JSON_stringify scriptDir).
Local Abbreviation load := (Options.loadOptionsFromFile JSON_parse scriptDir).
Local Abbreviation delete_ := (Options.deleteOptionsFile scriptDir).

(** X26. What [saveOptionsToFile] has written, [deleteOptionsFile]
    takes away again: afterwards [loadOptionsFromFile] finds no file,
    every other path is as it was before the save, and a second delete
    does nothing. *)
Theorem deleteOptionsFile_undoes_saveOptionsToFile :
  ∀ (v : Options.Vars) (f f1 : Fs.t),
    save v f = Some f1 →
    load (delete_ f1) = Options.NotFound
    ∧ (∀ p, p ≠ optionsPath → delete_ f1 !! p = f !! p)
    ∧ delete_ (delete_ f1) = delete_ f1.
Proof.
  intros v f f1 Hs. unfold Options.saveOptionsToFile in Hs.
  pose proof (writeFileSync_read _ _ _ _ Hs) as Hr.
  assert (delete_ f1 = delete optionsPath f1) as Hd.
  { unfold Options.deleteOptionsFile, Fs.unlinkSync, Fs.readFileSync in *.
    destruct (f1 !! optionsPath) as [[c|]|] eqn:Hl; try done.
    by rewrite (existsSync_true _ _ _ Hl). }
  assert (Fs.existsSync optionsPath (delete_ f1) = false) as Hex.
  { rewrite Hd. apply existsSync_false, lookup_delete_eq. }
  split; [|split].
  - unfold Options.loadOptionsFromFile. by rewrite Hex.
  - intros p Hp. rewrite Hd, lookup_delete_ne by done.
    by eapply writeFileSync_lookup_ne.
  - unfold Options.deleteOptionsFile at 1. by rewrite Hex.
Qed.

End OptionsMore.

(** ** The earlier prompt *)

Section LegacyPromptFacts.
Import KeyManager.


End LegacyPromptFacts.

(** ** The further properties on the worked inputs *)

Lemma handleExit_of_a_secondary_instance_only_exits_witness :
  handleExit Scenario.installDir Scenario.scriptDir Cases.secondPid "SIGINT"
    Scenario.running
  = Exit 0 (set_processExiting true Scenario.running).
Proof.
  apply (handleExit_of_a_secondary_instance_only_exits Scenario.installDir
           Scenario.scriptDir Cases.secondPid "SIGINT" "4242" Scenario.running).
  - reflexivity.
  - vm_compute; reflexivity.
  - vm_compute. discriminate.
Defined.

Lemma handleExit_without_lock_file_exits_1_witness :
  handleExit Scenario.installDir Scenario.scriptDir Scenario.pid "SIGTERM"
    Cases.unlocked
  = Exit 1 (set_processExiting true Cases.unlocked).
Proof.
  apply (handleExit_without_lock_file_exits_1 Scenario.installDir
           Scenario.scriptDir Scenario.pid "SIGTERM" Cases.unlocked).
  - reflexivity.
  - vm_compute; reflexivity.
Defined.

Lemma handleExit_with_no_live_child_exits_at_once_witness :
  ∃ s', handleExit Scenario.installDir Scenario.scriptDir Scenario.pid "SIGINT"
          Cases.idle = Exit 0 s'
        ∧ fs s' !! lockFilePath Scenario.installDir = None
        ∧ (Fs.isDirectory (Options.optionsFilePath Scenario.scriptDir)
             (fs Cases.idle) = false →
           fs s' !! Options.optionsFilePath Scenario.scriptDir = None)
        ∧ timers s' = timers Cases.idle ∧ trace s' = trace Cases.idle.
Proof.
  apply (handleExit_with_no_live_child_exits_at_once Scenario.installDir
           Scenario.scriptDir Scenario.pid "SIGINT" "4242" Cases.idle).
  - reflexivity.
  - vm_compute; reflexivity.
  - vm_compute; reflexivity.
  - intros r. destruct r; reflexivity.
Defined.


Lemma shutdown_is_monotonic_and_sends_no_alert_witness :
  isExiting (finalState (run Scenario.installDir Scenario.scriptDir Scenario.pid
                           "reth" "lighthouse" Cases.lateEvents Cases.stopping))
  = true
  ∧ alerts (trace (finalState (run Scenario.installDir Scenario.scriptDir
                                 Scenario.pid "reth" "lighthouse"
                                 Cases.lateEvents Cases.stopping)))
    = alerts (trace Cases.stopping).
Proof.
  apply (shutdown_is_monotonic_and_sends_no_alert Scenario.installDir
           Scenario.scriptDir Scenario.pid "reth" "lighthouse" Cases.lateEvents
           Cases.stopping).
  reflexivity.
Defined.

Lemma handleExit_removes_the_saved_options_witness :
  Fs.existsSync (Options.optionsFilePath Scenario.scriptDir)
    (fs (finalState (handleExit Scenario.installDir Scenario.scriptDir
                       Scenario.pid "SIGINT" Scenario.running)))
  = false.
Proof.
  apply (handleExit_removes_the_saved_options Scenario.installDir
           Scenario.scriptDir Scenario.pid "SIGINT" "4242" Scenario.running).
  - reflexivity.
  - vm_compute; reflexivity.
  - vm_compute; reflexivity.
  - vm_compute; reflexivity.
Defined.

Lemma second_start_finds_the_live_owner_witness :
  acquireInstanceLock Scenario.installDir Scenario.scriptDir 200
    Scenario.bothAlive Cases.firstLock
  = AlreadyRunning Cases.firstLock.
Proof.
  apply (second_start_finds_the_live_owner Scenario.installDir
           Scenario.scriptDir Scenario.bothAlive 100 200 Scenario.freshDisk
           Cases.firstLock).
  - vm_compute; reflexivity.
  - vm_compute; reflexivity.
Defined.

Lemma owner_is_recognised_by_handleExit_witness :
  isExiting (finalState (handleExit Scenario.installDir Scenario.scriptDir 100
                           "SIGINT" Cases.holder)) = true
  ∧ ∀ code s',
      handleExit Scenario.installDir Scenario.scriptDir 100 "SIGINT"
        Cases.holder = Exit code s' →
      code = 0 ∧ fs s' !! lockFilePath Scenario.installDir = None.
Proof.
  apply (owner_is_recognised_by_handleExit Scenario.installDir
           Scenario.scriptDir Scenario.bothAlive 100 "SIGINT" Scenario.freshDisk
           Cases.holder).
  - vm_compute; reflexivity.
  - reflexivity.
Defined.

Lemma released_lock_is_taken_by_the_next_start_witness :
  ∃ f2 f3,
    removeLockFile Scenario.installDir Cases.firstLock = Some f2
    ∧ Fs.existsSync (lockFilePath Scenario.installDir) f2 = false
    ∧ acquireInstanceLock Scenario.installDir Scenario.scriptDir 200
        Scenario.bothAlive f2 = Acquired f3
    ∧ Fs.readFileSync (lockFilePath Scenario.installDir) f3 = Some (pretty 200).
Proof.
  apply (released_lock_is_taken_by_the_next_start Scenario.installDir
           Scenario.scriptDir Scenario.bothAlive 100 200 Scenario.freshDisk
           Cases.firstLock).
  vm_compute; reflexivity.
Defined.

Lemma createLockFile_pid_is_read_back_witness :
  Fs.readFileSync (lockFilePath Scenario.installDir) Cases.firstLock
    ≫= Js.parseInt = Some 100.
Proof.
  apply (createLockFile_pid_is_read_back Scenario.installDir 100
           Scenario.freshDisk Cases.firstLock).
  vm_compute; reflexivity.
Defined.

Lemma cleanupSecureDir_clears_and_forgets_witness :
  SecureStore.secureDirPath (SecureStore.cleanupSecureDir Scenario.store) = None
  ∧ (∀ p, Path.within Scenario.secureDir p = true →
          SecureStore.fs (SecureStore.cleanupSecureDir Scenario.store) !! p = None)
  ∧ SecureStore.isSet
      (SecureStore.macRamDiskDevice (SecureStore.cleanupSecureDir Scenario.store))
    = false
  ∧ SecureStore.getSecurePasswordPath (SecureStore.cleanupSecureDir Scenario.store)
    = None
  ∧ SecureStore.cleanupSecureDir (SecureStore.cleanupSecureDir Scenario.store)
    = SecureStore.cleanupSecureDir Scenario.store.
Proof.
  apply (cleanupSecureDir_clears_and_forgets Scenario.store Scenario.secureDir).
  - reflexivity.
  - reflexivity.
  - vm_compute; reflexivity.
Defined.

Lemma cleanupSecureDir_ejects_the_ram_disk_witness :
  ("/dev/disk4" ∉ SecureStore.attached (SecureStore.cleanupSecureDir Cases.macStore))
  ∧ ∀ p, Path.within SecureStore.macMountPoint p = true →
         SecureStore.fs (SecureStore.cleanupSecureDir Cases.macStore) !! p = None.
Proof.
  apply (cleanupSecureDir_ejects_the_ram_disk Cases.macStore "/dev/disk4").
  - reflexivity.
  - reflexivity.
  - reflexivity.
  - apply (bool_decide_unpack _). vm_compute. exact I.
Defined.

Lemma cleanupSecureDir_leaves_the_rest_witness :
  SecureStore.fs (SecureStore.cleanupSecureDir Scenario.store)
    !! lockFilePath Scenario.installDir
  = SecureStore.fs Scenario.store !! lockFilePath Scenario.installDir.
Proof.
  apply (cleanupSecureDir_leaves_the_rest Scenario.store
           (lockFilePath Scenario.installDir)).
  - vm_compute; reflexivity.
  - vm_compute; reflexivity.
Defined.

Lemma createSecureDir_sets_the_password_path_witness :
  SecureStore.secureDirPath (SecureSetup.stateOf Cases.onLinux)
  = Some "/dev/shm/bgclient-4242"
  ∧ SecureStore.getSecurePasswordPath (SecureSetup.stateOf Cases.onLinux)
    = Some (Path.join ["/dev/shm/bgclient-4242"; "password.txt"]).
Proof.
  apply (createSecureDir_sets_the_password_path "linux" "/tmp" 4242 Cases.alive
           Cases.noHdiutil Cases.noDiskutil Cases.boot).
  vm_compute; reflexivity.
Defined.

Lemma createSecureDir_leaks_the_unformatted_ram_disk_witness :
  SecureStore.macRamDiskDevice (SecureSetup.stateOf Cases.onMac) = None
  ∧ "/dev/disk4" ∈ SecureStore.attached (SecureSetup.stateOf Cases.onMac)
  ∧ "/dev/disk4"
    ∈ SecureStore.attached
        (SecureStore.cleanupSecureDir (SecureSetup.stateOf Cases.onMac)).
Proof.
  apply (createSecureDir_leaks_the_unformatted_ram_disk "darwin" "/tmp" 4242
           Cases.alive Cases.attachDisk4 Cases.noDiskutil Cases.boot
           ("/dev/disk4          " +:+ String "010"%char EmptyString)).
  - reflexivity.
  - reflexivity.
  - reflexivity.
  - reflexivity.
Defined.

Lemma createSecureDir_on_linux_makes_its_directory_witness :
  "/dev/shm/bgclient-4242" = "/dev/shm/bgclient-" +:+ pretty 4242
  ∧ Fs.isDirectory "/dev/shm/bgclient-4242"
      (SecureStore.fs (SecureSetup.stateOf Cases.onLinux)) = true
  ∧ SecureSetup.createSecureDir "linux" "/tmp" 4242 Cases.alive Cases.noHdiutil
      Cases.noDiskutil (SecureSetup.stateOf Cases.onLinux)
    = SecureSetup.Ok "/dev/shm/bgclient-4242" (SecureSetup.stateOf Cases.onLinux).
Proof.
  apply (createSecureDir_on_linux_makes_its_directory "linux" "/tmp" 4242
           Cases.alive Cases.noHdiutil Cases.noDiskutil Cases.boot).
  - reflexivity.
  - reflexivity.
  - vm_compute; reflexivity.
  - vm_compute; reflexivity.
Defined.

(** The sweep on the boot disk: the directory of the killed instance is
    gone with its password file; that of the live one and the unrelated
    file are untouched. *)
Example cleanupStaleDirs_at_boot :
  let swept := SecureSetup.cleanupStaleDirs Cases.alive "/dev/shm" Cases.bootDisk in
  swept !! "/dev/shm/bgclient-111" = None
  ∧ swept !! "/dev/shm/bgclient-111/password.txt" = None
  ∧ swept !! "/dev/shm/bgclient-222/password.txt" = Some (Fs.File "in use")
  ∧ swept !! "/dev/shm/notes.txt" = Some (Fs.File "unrelated").
Proof. repeat split; vm_compute; reflexivity. Qed.

Lemma populateSecrets_writes_only_the_password_witness :
  Forall (λ p, Fs.readFileSync p (LighthouseValidator.fs Cases.secrets)
               = Fs.readFileSync
                   (LighthouseValidator.passwordFile Scenario.installDir
                      (Some Scenario.secureDir)) Scenario.validatorDisk
               ∧ is_Some (Fs.readFileSync p (LighthouseValidator.fs Cases.secrets)))
    (LighthouseValidator.written Cases.secrets)
  ∧ Fs.readFileSync
      (LighthouseValidator.passwordFile Scenario.installDir
         (Some Scenario.secureDir)) (LighthouseValidator.fs Cases.secrets)
    = Fs.readFileSync
        (LighthouseValidator.passwordFile Scenario.installDir
           (Some Scenario.secureDir)) Scenario.validatorDisk.
Proof.
  apply (populateSecrets_writes_only_the_password Scenario.parseKeystore
           Scenario.installDir (Some Scenario.secureDir) Scenario.validatorDisk
           Cases.secrets).
  vm_compute; reflexivity.
Defined.


Lemma prompt_stores_the_password_file_and_nothing_else_witness :
  KeySetup.hasPasswordFile Scenario.installDir Cases.prompted
  = KeyManager.Returned true Cases.prompted
  ∧ ∀ q, q ≠ Scenario.passwordPath →
      KeyManager.fsOf Cases.prompted !! q
      = KeyManager.fsOf
          (Scenario.promptWorld [Scenario.password; Scenario.password]) !! q
      ∨ (KeyManager.fsOf
           (Scenario.promptWorld [Scenario.password; Scenario.password]) !! q
         = None
         ∧ KeyManager.fsOf Cases.prompted !! q = Some Fs.Dir).
Proof.
  apply (prompt_stores_the_password_file_and_nothing_else Scenario.installDir
           (Some true)
           (Scenario.promptWorld [Scenario.password; Scenario.password])
           Cases.prompted Scenario.passwordPath).
  vm_compute; reflexivity.
Defined.


Lemma every_deposit_archive_has_a_checksum_witness :
  ∃ h, Js.getProperty KeySetup.DEPOSIT_CLI_CHECKSUMS
         (Cases.depositName +:+ ".tar.gz")
       = Js.Data (Js.JStr h)
       ∧ Js.truthy (Js.Data (Js.JStr h)) = true.
Proof.
  apply (every_deposit_archive_has_a_checksum KeySetup.x64 "linux"
           (KeySetup.mkConfig Cases.depositName
              ("https://github.com/ethereum/staking-deposit-cli/releases/download/v2.7.0/"
               +:+ Cases.depositName +:+ ".tar.gz"))).
  reflexivity.
Defined.

Lemma installDepositCli_returns_only_a_verified_tool_witness :
  (Fs.existsSync
     "/home/op/buidlguidl-client/ethereum_clients/deposit-cli/deposit"
     (KeyManager.fsOf Cases.installWorld) = true
   ∧ KeyManager.worldOf Cases.installed = Cases.installWorld)
  ∨ ∃ cfg bytes,
      KeySetup.getDepositCliConfig KeySetup.x64 "linux" = Some cfg
      ∧ Cases.curlOk (KeySetup.downloadUrl cfg) = Some bytes
      ∧ Js.getProperty KeySetup.DEPOSIT_CLI_CHECKSUMS
          (KeySetup.fileName cfg +:+ ".tar.gz")
        = Js.Data (Js.JStr (Cases.pinnedHash bytes)).
Proof.
  apply (installDepositCli_returns_only_a_verified_tool KeySetup.x64
           Cases.curlOk Cases.pinnedHash Cases.untar Scenario.installDir
           "linux" Cases.installWorld (KeyManager.worldOf Cases.installed)
           "/home/op/buidlguidl-client/ethereum_clients/deposit-cli/deposit").
  vm_compute; reflexivity.
Defined.


Lemma compareVersions_orders_by_major_minor_patch_witness :
  Install.compareVersions "1.10.0" "1.9.3"
  = Some (if Install.older (1, 10, 0) (1, 9, 3) then -1
          else if Install.older (1, 9, 3) (1, 10, 0) then 1 else 0)
  ∧ Install.compareVersions "1.9.3" "1.10.0"
    = Z.opp <$> Install.compareVersions "1.10.0" "1.9.3".
Proof.
  apply (compareVersions_orders_by_major_minor_patch "1.10.0" "1.9.3"
           (1, 10, 0) (1, 9, 3)).
  - reflexivity.
  - reflexivity.
Defined.

Lemma compareClientVersions_flags_only_older_versions_witness :
  match Install.compareClientVersions "reth" "1.9.2" with
  | Install.Pair isLatest latest =>
      (∃ tl, Install.version latest = Some tl
             ∧ isLatest = negb (Install.older (1, 9, 2) tl))
      ∧ ("reth" = "reth" ∧ latest = Install.latestRethVer
         ∨ "reth" = "geth" ∧ latest = Install.latestGethVer
         ∨ "reth" = "lighthouse" ∧ latest = Install.latestLighthouseVer)
  | Install.ThrewTypeError =>
      "reth" ≠ "reth" ∧ "reth" ≠ "geth" ∧ "reth" ≠ "lighthouse"
  | Install.Unmodelled => False
  end.
Proof.
  apply (compareClientVersions_flags_only_older_versions "reth" "1.9.2"
           (1, 9, 2)).
  reflexivity.
Defined.

Lemma deleteOptionsFile_undoes_saveOptionsToFile_witness :
  Options.loadOptionsFromFile Scenario.parseDefault Scenario.scriptDir
    (Options.deleteOptionsFile Scenario.scriptDir Cases.savedDisk)
  = Options.NotFound
  ∧ (∀ p, p ≠ Options.optionsFilePath Scenario.scriptDir →
          Options.deleteOptionsFile Scenario.scriptDir Cases.savedDisk !! p
          = Scenario.freshDisk !! p)
  ∧ Options.deleteOptionsFile Scenario.scriptDir
      (Options.deleteOptionsFile Scenario.scriptDir Cases.savedDisk)
    = Options.deleteOptionsFile Scenario.scriptDir Cases.savedDisk.
Proof.
  apply (deleteOptionsFile_undoes_saveOptionsToFile Scenario.stringifyDefault
           Scenario.parseDefault Scenario.scriptDir Scenario.defaultVars
           Scenario.freshDisk Cases.savedDisk).
  vm_compute; reflexivity.
Defined.
